(** * Image handlers of the varlink API (pkg/varlinkapi/images.go)

    A shallow embedding of the image-management handlers of the varlink
    gateway, and the properties of them that the design document states.

    Every handler of [images.go] receives a [call] on which it sends replies,
    consults the libpod runtime (image store, registries, build backend) and
    finally returns a Go [error].  The embedding keeps that shape:

    - the runtime, the registries and the Go library functions the handlers
      call are the fields of one record, [Runtime];
    - a handler is a computation in a small monad, [M], that threads the
      image store and the [Continues] flag of the call, collects the events
      the handler causes (replies sent, images removed, builds launched, ...)
      and ends with [Return e] (the handler's [return]), or with [Panic]
      (a Go run-time panic). *)

From Stdlib Require Import String Ascii List ZArith Bool Lia.
Import ListNotations.
Open Scope string_scope.

(* ================================================================= *)
(** ** Errors *)

(** Go [error] values as the handlers see them: the sentinel
    [image.ErrNoSuchImage], leaf errors made by [errors.New] and the like,
    and errors wrapped by [errors.Wrapf]. *)
Inductive error : Type :=
| ErrNoSuchImage
| errorString (msg : string)
| withMessage (cause : error) (msg : string).

(** [errors.Cause]: unwrap to the innermost error. *)
Fixpoint Cause (e : error) : error :=
  match e with
  | withMessage c _ => Cause c
  | _ => e
  end.

(** [errors.Cause(err) == image.ErrNoSuchImage]. *)
Definition is_ErrNoSuchImage (e : error) : bool :=
  match Cause e with
  | ErrNoSuchImage => true
  | _ => false
  end.

(** Results of fallible calls, [(v, err)] in Go. *)
Inductive result (A : Type) : Type :=
| Ok (v : A)
| Err (e : error).
Arguments Ok {A} v.
Arguments Err {A} e.

(* ================================================================= *)
(** ** Data of the varlink interface and of the libraries *)

(** A handle on a local image ([*image.Image]): what [ID()] and [Names()]
    give. *)
Record Image : Type := mkImage {
  ID : string;
  Names : list string
}.

(** [image.History] entries; [Created] is kept as the text that
    [Created.String()] prints. *)
Record History : Type := mkHistory {
  hist_ID : string;
  hist_Created : string;
  hist_CreatedBy : string;
  hist_Size : Z;
  hist_Comment : string
}.

(** [iopodman.ImageHistory]. *)
Record ImageHistory : Type := mkImageHistory {
  ih_Id : string;
  ih_Created : string;
  ih_CreatedBy : string;
  ih_Tags : list string;
  ih_Size : Z;
  ih_Comment : string
}.

(** [docker.SearchResult]. *)
Record SearchResult : Type := mkSearchResult {
  sr_Name : string;
  sr_Description : string;
  sr_StarCount : Z;
  sr_IsOfficial : bool;
  sr_IsAutomated : bool
}.

(** [iopodman.ImageSearch]. *)
Record ImageSearch : Type := mkImageSearch {
  Description : string;
  Is_official : bool;
  Is_automated : bool;
  Name : string;
  Star_count : Z
}.

(** [iopodman.BuildResponse]. *)
Record BuildResponse : Type := mkBuildResponse {
  Logs : list string;
  Id : string
}.

(** The replies the modelled handlers send ([call.Reply...]). *)
Inductive Reply : Type :=
| ReplyErrorOccurred (reason : string)
| ReplyImageNotFound (id : string)
| ReplyBuildImage (br : BuildResponse)
| ReplyHistoryImage (histories : list ImageHistory)
| ReplyPushImage (id : string)
| ReplySearchImage (results : list ImageSearch)
| ReplyPullImage (id : string)
| ReplyImageExists (exists_ : Z)
| ReplyImagesPrune (pruned : list string).

(** [iopodman.BuildInfo], the build request: the fields [BuildImage] reads.
    Maps with string keys are association lists. *)
Record BuildInfo : Type := mkBuildInfo {
  Dockerfile : list string;
  Tags : list string;
  Add_hosts : list string;
  Cgroup_parent : string;
  Cpu_period : Z;
  Cpu_quota : Z;
  Cpuset_cpus : string;
  Cpuset_mems : string;
  Memory : string;
  Memory_swap : string;
  Shm_size : string;
  Ulimit : list string;
  Volume : list string;
  Squash : bool;
  Pull : bool;
  Pull_always : bool;
  Image_format : string;
  Build_args : list (string * string);
  Label : list string;
  Annotations : list string
}.

(** [types.OptionalBool] and [types.NewOptionalBool]. *)
Inductive OptionalBool : Type :=
| OptionalBoolUndefined
| OptionalBoolTrue
| OptionalBoolFalse.

Definition NewOptionalBool (b : bool) : OptionalBool :=
  if b then OptionalBoolTrue else OptionalBoolFalse.

(** [types.DockerAuthConfig]. *)
Record DockerAuthConfig : Type := mkDockerAuthConfig {
  Username : string;
  Password : string
}.

(** [image.DockerRegistryOptions]: the fields the handlers set. *)
Record DockerRegistryOptions : Type := mkDockerRegistryOptions {
  DockerRegistryCreds : option DockerAuthConfig;
  DockerCertPath : string;
  DockerInsecureSkipTLSVerify : OptionalBool
}.

(** [image.SigningOptions]. *)
Record SigningOptions : Type := mkSigningOptions {
  RemoveSignatures : bool;
  SignBy : string
}.

(** Namespace types of the OCI runtime specification
    ([specs.LinuxNamespaceType]). *)
Module specs.
Inductive LinuxNamespaceType : Type :=
| PIDNamespace
| NetworkNamespace
| MountNamespace
| IPCNamespace
| UTSNamespace
| UserNamespace
| CgroupNamespace.
End specs.

(** Media types of manifests ([v1] of image-spec, [manifest] of
    containers/image). *)
Module v1.
Definition MediaTypeImageManifest : string :=
  "application/vnd.oci.image.manifest.v1+json".
End v1.

Module manifest.
Definition DockerV2Schema1SignedMediaType : string :=
  "application/vnd.docker.distribution.manifest.v1+prettyjws".
Definition DockerV2Schema2MediaType : string :=
  "application/vnd.docker.distribution.manifest.v2+json".
End manifest.

Module buildah.
Definition OCIv1ImageManifest : string := v1.MediaTypeImageManifest.
Definition Dockerv2ImageManifest : string := manifest.DockerV2Schema2MediaType.

Record NamespaceOption : Type := mkNamespaceOption {
  Name : specs.LinuxNamespaceType;
  Host : bool
}.

Record CommonBuildOptions : Type := mkCommonBuildOptions {
  AddHost : list string;
  CgroupParent : string;
  CPUPeriod : Z;
  CPUQuota : Z;
  CPUSetCPUs : string;
  CPUSetMems : string;
  Memory : Z;
  MemorySwap : Z;
  ShmSize : string;
  Ulimit : list string;
  Volumes : list string
}.
End buildah.

Module imagebuildah.
Inductive PullPolicy : Type :=
| PullIfMissing
| PullAlways
| PullNever.

Inductive Compression : Type :=
| Uncompressed
| Gzip.

(** [imagebuildah.BuildOptions]: the fields [BuildImage] fills in.  The
    [ReportWriter] is the buffer the handler polls; it is part of the
    build run, below, and has no field here. *)
Record BuildOptions : Type := mkBuildOptions {
  ContextDirectory : string;
  PullPolicy_ : PullPolicy;
  Compression_ : Compression;
  Quiet : bool;
  Args : list (string * string);
  AdditionalTags : list string;
  OutputFormat : string;
  CommonBuildOpts : buildah.CommonBuildOptions;
  Squash : bool;
  Labels : list string;
  Annotations : list string;
  NamespaceOptions : list buildah.NamespaceOption
}.
End imagebuildah.

(** An image reference parsed by [alltransports.ParseImageName]: opaque here,
    it keeps the text it was parsed from. *)
Record ImageReference : Type := mkImageReference {
  ref_text : string
}.

(* ================================================================= *)
(** ** Events *)

(** What a handler does that is visible outside it.  A reply is recorded
    with the value [call.Continues] has when it is sent: a reply sent with
    the flag set is framed as one of several, and tells the caller that more
    follow. *)
Inductive Event : Type :=
| EvReply (continues : bool) (r : Reply)
| EvBuild (options : imagebuildah.BuildOptions) (dockerfiles : list string)
| EvLine (line : string)
| EvSleep
| EvRemove (img : Image) (force : bool) (err : option error)
| EvSearch (registry : string)
| EvLoadArchive (ref : ImageReference)
| EvPull (name : string)
| EvPush (img : Image) (destname : string) (manifestType : string).

(* ================================================================= *)
(** ** The runtime and the libraries the handlers call *)

Set Implicit Arguments.

(** One run of the background build task, as the polling handler can observe
    it: the successive writes of the task to the report buffer, the error (or
    nil) it sends on the channel once it has written everything, and the
    store it leaves.  A run has finitely many writes: the build ends. *)
Record BuildRun (St : Type) : Type := mkBuildRun {
  writes : list string;
  build_err : option error;
  store_after : St
}.

(** Everything the handlers call that [images.go] does not define: the Go
    standard library ([filepath], [fmt]'s [%q]), go-units, containers/image,
    and the libpod runtime with its image store of state [St]. *)
Record Runtime (St : Type) : Type := mkRuntime {
  (* Go library *)
  filepath_Abs : string -> result string;
  filepath_Dir : string -> string;
  filepath_Rel : string -> string -> result string;
  Quote : string -> string;
  ErrNoSuchImage_text : string;
  units_RAMInBytes : string -> result Z;
  util_ParseRegistryCreds : string -> result DockerAuthConfig;
  (* image store *)
  NewFromLocal : string -> St -> result Image;
  GetPruneImages : St -> result (list Image);
  Image_History : Image -> St -> result (list History);
  Image_Remove : Image -> bool -> St -> option error * St;
  (* build backend *)
  Runtime_Build : imagebuildah.BuildOptions -> list string -> St -> BuildRun St;
  (* registries and transports *)
  sysreg_GetRegistries : St -> result (list string);
  docker_SearchRegistry : string -> string -> Z -> St -> result (list SearchResult) * St;
  dockerarchive_Transport_Name : string;
  alltransports_ParseImageName : string -> result ImageReference;
  LoadFromArchiveReference : ImageReference -> string -> St -> result (list Image) * St;
  ImageRuntime_New : string -> string -> DockerRegistryOptions -> SigningOptions -> St -> result Image * St;
  PushImageToHeuristicDestination :
    Image -> string -> string -> string -> bool -> SigningOptions ->
    DockerRegistryOptions -> St -> option error * St
}.

Unset Implicit Arguments.

(* ================================================================= *)
(** ** The handler monad *)

(** How a piece of handler code ends: it goes on with a value, the handler
    returns (nil or an error), or the goroutine panics. *)
Inductive Res (A : Type) : Type :=
| Val (a : A)
| Return (e : option error)
| Panic (msg : string).
Arguments Val {A} a.
Arguments Return {A} e.
Arguments Panic {A} msg.

(** The mutable state a handler threads: the store and [call.Continues]. *)
Record CallState (St : Type) : Type := mkCallState {
  store : St;
  Continues : bool
}.
Arguments mkCallState {St} store Continues.
Arguments store {St} c.
Arguments Continues {St} c.

Record Out (St A : Type) : Type := mkOut {
  emitted : list Event;
  final : CallState St;
  res : Res A
}.
Arguments mkOut {St A} emitted final res.
Arguments emitted {St A} o.
Arguments final {St A} o.
Arguments res {St A} o.

Definition M (St A : Type) : Type := CallState St -> Out St A.

Section HandlerMonad.
Context {St : Type}.

Definition ret {A} (a : A) : M St A :=
  fun s => mkOut [] s (Val a).

Definition bind {A B} (m : M St A) (f : A -> M St B) : M St B :=
  fun s =>
    let o := m s in
    match res o with
    | Val a =>
        let o' := f a (final o) in
        mkOut (emitted o ++ emitted o') (final o') (res o')
    | Return e => mkOut (emitted o) (final o) (Return e)
    | Panic msg => mkOut (emitted o) (final o) (Panic msg)
    end.

(** [return e] of the handler. *)
Definition return_ {A} (e : option error) : M St A :=
  fun s => mkOut [] s (Return e).

Definition panic {A} (msg : string) : M St A :=
  fun s => mkOut [] s (Panic msg).

Definition emit (e : Event) : M St unit :=
  fun s => mkOut [e] s (Val tt).

Definition get_store : M St St :=
  fun s => mkOut [] s (Val (store s)).

Definition put_store (st : St) : M St unit :=
  fun s => mkOut [] (mkCallState st (Continues s)) (Val tt).

Definition get_Continues : M St bool :=
  fun s => mkOut [] s (Val (Continues s)).

Definition set_Continues (b : bool) : M St unit :=
  fun s => mkOut [] (mkCallState (store s) b) (Val tt).

(** [call.Reply...(...)]: the reply goes out framed by the current
    [Continues]; sending succeeds, so the call's own result is nil. *)
Definition reply (r : Reply) : M St unit :=
  fun s => mkOut [EvReply (Continues s) r] s (Val tt).

(** [return call.Reply...(...)]. *)
Definition return_reply {A} (r : Reply) : M St A :=
  bind (reply r) (fun _ => return_ None).

End HandlerMonad.

Declare Scope handler_scope.
Delimit Scope handler_scope with handler.
Notation "x <- m ;; k" := (bind m (fun x => k))
  (at level 61, m at next level, right associativity) : handler_scope.
Notation "m ;; k" := (bind m (fun _ => k))
  (at level 61, right associativity) : handler_scope.
Open Scope handler_scope.

(** A handler never falls off its end: it returns or panics. *)
Definition Handler (St : Type) : Type := M St Empty_set.

Inductive Ending : Type :=
| Returned (e : option error)
| Panicked (msg : string).

Definition ending {St} (o : Out St Empty_set) : Ending :=
  match res o with
  | Val a => match a with end
  | Return e => Returned e
  | Panic msg => Panicked msg
  end.

(** A call starts with [Continues] unset. *)
Definition run {St} (h : Handler St) (st : St) : Out St Empty_set :=
  h (mkCallState st false).

(** The replies among the events, with their framing. *)
Fixpoint replies (evs : list Event) : list (bool * Reply) :=
  match evs with
  | [] => []
  | EvReply c r :: evs' => (c, r) :: replies evs'
  | _ :: evs' => replies evs'
  end.

(* ================================================================= *)
(** ** The handlers *)

Section Handlers.
Context {St : Type}.
Variable rt : Runtime St.

(** [err.Error()]. *)
Fixpoint Error (e : error) : string :=
  match e with
  | ErrNoSuchImage => ErrNoSuchImage_text rt
  | errorString msg => msg
  | withMessage cause msg => msg ++ ": " ++ Error cause
  end.

(** [strings.HasPrefix(s, prefix)]. *)
Definition HasPrefix (s prefix : string) : bool := String.prefix prefix s.

(** Calls into the runtime that change the store or reach outside the
    process; each records its event. *)
Definition Remove (i : Image) (force : bool) : M St (option error) :=
  st <- get_store ;;
  let r := Image_Remove rt i force st in
  put_store (snd r) ;;
  emit (EvRemove i force (fst r)) ;;
  ret (fst r).

Definition SearchRegistry (reg name : string) (limit : Z)
    : M St (result (list SearchResult)) :=
  st <- get_store ;;
  emit (EvSearch reg) ;;
  let r := docker_SearchRegistry rt reg name limit st in
  put_store (snd r) ;;
  ret (fst r).

Definition LoadFromArchive (srcRef : ImageReference) (signaturePolicy : string)
    : M St (result (list Image)) :=
  st <- get_store ;;
  emit (EvLoadArchive srcRef) ;;
  let r := LoadFromArchiveReference rt srcRef signaturePolicy st in
  put_store (snd r) ;;
  ret (fst r).

Definition New (name signaturePolicy : string)
    (dockeroptions : DockerRegistryOptions) (so : SigningOptions)
    : M St (result Image) :=
  st <- get_store ;;
  emit (EvPull name) ;;
  let r := ImageRuntime_New rt name signaturePolicy dockeroptions so st in
  put_store (snd r) ;;
  ret (fst r).

Definition PushImageToDestination (img : Image)
    (destname manifestType signaturePolicy : string) (compress : bool)
    (so : SigningOptions) (dockeroptions : DockerRegistryOptions)
    : M St (option error) :=
  st <- get_store ;;
  emit (EvPush img destname manifestType) ;;
  let r := PushImageToHeuristicDestination rt img destname manifestType
             signaturePolicy compress so dockeroptions st in
  put_store (snd r) ;;
  ret (fst r).

(** *** ImageExists (images.go, 586-595) *)
Definition ImageExists (name : string) : Handler St :=
  st <- get_store ;;
  match NewFromLocal rt name st with
  | Err err =>
      if is_ErrNoSuchImage err
      then return_reply (ReplyImageExists 1)
      else return_reply (ReplyErrorOccurred (Error err))
  | Ok _ => return_reply (ReplyImageExists 0)
  end.

(** *** HistoryImage (images.go, 305-327) *)
Definition imageHistory (newImage : Image) (hist : History) : ImageHistory :=
  {| ih_Id := hist_ID hist;
     ih_Created := hist_Created hist;
     ih_CreatedBy := hist_CreatedBy hist;
     ih_Tags := Names newImage;
     ih_Size := hist_Size hist;
     ih_Comment := hist_Comment hist |}.

Fixpoint HistoryImage_loop (newImage : Image) (history : list History)
    (histories : list ImageHistory) : list ImageHistory :=
  match history with
  | [] => histories
  | hist :: rest =>
      HistoryImage_loop newImage rest (histories ++ [imageHistory newImage hist])
  end.

Definition HistoryImage (name : string) : Handler St :=
  st <- get_store ;;
  match NewFromLocal rt name st with
  | Err _ => return_reply (ReplyImageNotFound name)
  | Ok newImage =>
      match Image_History rt newImage st with
      | Err err => return_reply (ReplyErrorOccurred (Error err))
      | Ok history =>
          return_reply (ReplyHistoryImage (HistoryImage_loop newImage history []))
      end
  end.

(** *** PushImage (images.go, 330-379) *)
Definition PushImage (name tag : string) (tlsVerify : bool)
    (signaturePolicy creds certDir : string) (compress : bool)
    (format : string) (removeSignatures : bool) (signBy : string)
    : Handler St :=
  st <- get_store ;;
  match NewFromLocal rt name st with
  | Err err => return_reply (ReplyImageNotFound (Error err))
  | Ok newImage =>
      let destname := if (tag =? "")%string then name else tag in
      registryCreds <-
        (if (creds =? "")%string then ret None
         else match util_ParseRegistryCreds rt creds with
              | Err err => return_ (Some err)
              | Ok c => ret (Some c)
              end) ;;
      let dockerRegistryOptions :=
        {| DockerRegistryCreds := registryCreds;
           DockerCertPath := certDir;
           DockerInsecureSkipTLSVerify :=
             if negb tlsVerify then OptionalBoolTrue
             else OptionalBoolUndefined |} in
      manifestType <-
        (if (format =? "")%string then ret ""
         else if (format =? "oci")%string then ret v1.MediaTypeImageManifest
         else if (format =? "v2s1")%string
              then ret manifest.DockerV2Schema1SignedMediaType
         else if ((format =? "v2s2") || (format =? "docker"))%string
              then ret manifest.DockerV2Schema2MediaType
         else return_reply (ReplyErrorOccurred
                ("unknown format " ++ Quote rt format ++
                 ". Choose on of the supported formats: 'oci', 'v2s1', or 'v2s2'"))) ;;
      let so := {| RemoveSignatures := removeSignatures; SignBy := signBy |} in
      r <- PushImageToDestination newImage destname manifestType
             signaturePolicy compress so dockerRegistryOptions ;;
      match r with
      | Some err => return_reply (ReplyErrorOccurred (Error err))
      | None => return_reply (ReplyPushImage (ID newImage))
      end
  end.

(** *** SearchImage (images.go, 410-440) *)
Definition imageSearch (result : SearchResult) : ImageSearch :=
  {| Description := sr_Description result;
     Is_official := sr_IsOfficial result;
     Is_automated := sr_IsAutomated result;
     Name := sr_Name result;
     Star_count := sr_StarCount result |}.

(** The loop over the registries; [n] is [len(registries)] of the whole
    list, [regs] what is left of it. *)
Fixpoint SearchImage_loop (n : nat) (name : string) (limit : Z)
    (regs : list string) (imageResults : list ImageSearch)
    : M St (list ImageSearch) :=
  match regs with
  | [] => ret imageResults
  | reg :: rest =>
      r <- SearchRegistry reg name limit ;;
      match r with
      | Err err =>
          if (1 <? n)%nat
          then SearchImage_loop n name limit rest imageResults
          else return_reply (ReplyErrorOccurred (Error err))
      | Ok results =>
          SearchImage_loop n name limit rest
            (imageResults ++ map imageSearch results)
      end
  end.

Definition SearchImage (name : string) (limit : Z) : Handler St :=
  st <- get_store ;;
  match sysreg_GetRegistries rt st with
  | Err err =>
      return_reply (ReplyErrorOccurred
        ("unable to get system registries: " ++ Quote rt (Error err)))
  | Ok registries =>
      imageResults <-
        SearchImage_loop (length registries) name limit registries [] ;;
      return_reply (ReplySearchImage imageResults)
  end.

(** *** PullImage (images.go, 542-583) *)
Definition PullImage (name certDir creds signaturePolicy : string)
    (tlsVerify : bool) : Handler St :=
  registryCreds <-
    (if (creds =? "")%string then ret None
     else match util_ParseRegistryCreds rt creds with
          | Err err => return_ (Some err)
          | Ok c => ret (Some c)
          end) ;;
  let dockerRegistryOptions :=
    {| DockerRegistryCreds := registryCreds;
       DockerCertPath := certDir;
       DockerInsecureSkipTLSVerify :=
         if tlsVerify then NewOptionalBool (negb tlsVerify)
         else OptionalBoolUndefined |} in
  let so := {| RemoveSignatures := false; SignBy := "" |} in
  if HasPrefix name (dockerarchive_Transport_Name rt ++ ":")
  then
    match alltransports_ParseImageName rt name with
    | Err err =>
        return_ (Some (withMessage err ("error parsing " ++ Quote rt name)))
    | Ok srcRef =>
        r <- LoadFromArchive srcRef signaturePolicy ;;
        match r with
        | Err err =>
            return_ (Some (withMessage err
                             ("error pulling image from " ++ Quote rt name)))
        | Ok newImage =>
            match newImage with
            | [] => panic "index out of range"
            | img :: _ => return_reply (ReplyPullImage (ID img))
            end
        end
    end
  else
    r <- New name signaturePolicy dockerRegistryOptions so ;;
    match r with
    | Err err =>
        return_reply (ReplyErrorOccurred
          ("unable to pull " ++ name ++ ": " ++ Error err))
    | Ok newImage => return_reply (ReplyPullImage (ID newImage))
    end.

(** *** ImagesPrune (images.go, 630-645) *)
Fixpoint ImagesPrune_loop (pruneImages : list Image) (pruned : list string)
    : Handler St :=
  match pruneImages with
  | [] => return_reply (ReplyImagesPrune pruned)
  | i :: rest =>
      r <- Remove i true ;;
      match r with
      | Some err => return_reply (ReplyErrorOccurred (Error err))
      | None => ImagesPrune_loop rest (pruned ++ [ID i])
      end
  end.

Definition ImagesPrune : Handler St :=
  st <- get_store ;;
  match GetPruneImages rt st with
  | Err err => return_ (Some err)
  | Ok pruneImages => ImagesPrune_loop pruneImages []
  end.

(** *** BuildImage (images.go, 110-266) *)

(** [bytes.Buffer.ReadString(delim)] on the unread part [buf] of the
    buffer: up to and with the first [delim], or, when there is none,
    everything that is left together with [io.EOF].  Gives the string read,
    whether the error is [io.EOF], and what stays unread. *)
Fixpoint split_delim (delim : ascii) (buf : string) : option (string * string) :=
  match buf with
  | EmptyString => None
  | String c rest =>
      if (c =? delim)%char then Some (String c EmptyString, rest)
      else match split_delim delim rest with
           | Some (line, rest') => Some (String c line, rest')
           | None => None
           end
  end.

Definition ReadString (delim : ascii) (buf : string) : string * bool * string :=
  match split_delim delim buf with
  | Some (line, rest) => (line, false, rest)
  | None => (buf, true, EmptyString)
  end.

Definition newline : ascii := "010"%char.

(** The first loop (122-139): the first Dockerfile that is not a URL gives
    the context directory and is replaced, in the request's own list, by
    its path relative to it. *)
Definition is_remote (dockerfile : string) : bool :=
  HasPrefix dockerfile "http://" || HasPrefix dockerfile "https://" ||
  HasPrefix dockerfile "git://" || HasPrefix dockerfile "github.com/".

Fixpoint BuildImage_contextDir (dockerfiles : list string)
    : result (string * list string) :=
  match dockerfiles with
  | [] => Ok ("", [])
  | d :: rest =>
      if is_remote d then
        match BuildImage_contextDir rest with
        | Ok (contextDir, rest') => Ok (contextDir, d :: rest')
        | Err e => Err e
        end
      else
        match filepath_Abs rt d with
        | Err err =>
            Err (withMessage err
                   ("error determining path to file " ++ Quote rt d))
        | Ok absFile =>
            let contextDir := filepath_Dir rt absFile in
            match filepath_Rel rt contextDir absFile with
            | Err err =>
                Err (withMessage err
                       ("error determining path to file " ++ Quote rt ""))
            | Ok rel => Ok (contextDir, rel :: rest)
            end
        end
  end.

Definition hostNetwork : buildah.NamespaceOption :=
  {| buildah.Name := specs.NetworkNamespace; buildah.Host := true |}.

(** Lines 118-217: what [BuildImage] checks and computes before it starts
    the build; the options and the Dockerfile list for the backend. *)
Definition BuildImage_options (config : BuildInfo)
    : M St (imagebuildah.BuildOptions * list string) :=
  r <- match BuildImage_contextDir (Dockerfile config) with
       | Err e => return_ (Some e)
       | Ok r => ret r
       end ;;
  let contextDir := fst r in
  let dockerfiles := snd r in
  let pullPolicy :=
    if Pull_always config then imagebuildah.PullAlways
    else if Pull config then imagebuildah.PullIfMissing
    else imagebuildah.PullNever in
  let manifestType :=
    if (Image_format config =? "")%string then "oci"
    else Image_format config in
  manifestType <-
    (if HasPrefix manifestType "oci" then ret buildah.OCIv1ImageManifest
     else if HasPrefix manifestType "docker"
          then ret buildah.Dockerv2ImageManifest
     else return_reply (ReplyErrorOccurred
            ("unrecognized image type " ++ Quote rt manifestType))) ;;
  memoryLimit <-
    (if (Memory config =? "")%string then ret 0%Z
     else match units_RAMInBytes rt (Memory config) with
          | Err err => return_reply (ReplyErrorOccurred (Error err))
          | Ok v => ret v
          end) ;;
  memorySwap <-
    (if (Memory_swap config =? "")%string then ret 0%Z
     else match units_RAMInBytes rt (Memory_swap config) with
          | Err err => return_reply (ReplyErrorOccurred (Error err))
          | Ok v => ret v
          end) ;;
  let commonOpts :=
    {| buildah.AddHost := Add_hosts config;
       buildah.CgroupParent := Cgroup_parent config;
       buildah.CPUPeriod := (Cpu_period config mod 2 ^ 64)%Z;
       buildah.CPUQuota := Cpu_quota config;
       buildah.CPUSetCPUs := Cpuset_cpus config;
       buildah.CPUSetMems := Cpuset_mems config;
       buildah.Memory := memoryLimit;
       buildah.MemorySwap := memorySwap;
       buildah.ShmSize := Shm_size config;
       buildah.Ulimit := Ulimit config;
       buildah.Volumes := Volume config |} in
  let namespace := ([] ++ [hostNetwork])%list in
  ret ({| imagebuildah.ContextDirectory := contextDir;
          imagebuildah.PullPolicy_ := pullPolicy;
          imagebuildah.Compression_ := imagebuildah.Gzip;
          imagebuildah.Quiet := false;
          imagebuildah.Args := Build_args config;
          imagebuildah.AdditionalTags := Tags config;
          imagebuildah.OutputFormat := manifestType;
          imagebuildah.CommonBuildOpts := commonOpts;
          imagebuildah.Squash := Squash config;
          imagebuildah.Labels := Label config;
          imagebuildah.Annotations := Annotations config;
          imagebuildah.NamespaceOptions := namespace |},
       dockerfiles).

(** [build] (268-277): the goroutine is started; what it will do is the
    run the backend gives for these options on the present store. *)
Definition build (options : imagebuildah.BuildOptions)
    (dockerfiles : list string) : M St (BuildRun St) :=
  st <- get_store ;;
  emit (EvBuild options dockerfiles) ;;
  ret (Runtime_Build rt options dockerfiles st).

(** The build task runs beside the handler.  Before each step of the
    handler that looks at it (a [ReadString], a [select]) the task's next
    write, if any is left, has reached the buffer; the channel has the
    task's result once nothing is left. *)
Definition deliver (buf : string) (pending : list string)
    : string * list string :=
  match pending with
  | [] => (buf, [])
  | w :: rest => (buf ++ w, rest)
  end.

(** The polling loop (226-255).  [ReadString] on a [bytes.Buffer] fails with
    [io.EOF] only, so the loop's last branch (250), for any other error, is
    never taken and has no counterpart here.  [None]: the fuel did not
    suffice. *)
Fixpoint BuildImage_poll (fuel : nat) (wantsMore : bool) (c : BuildRun St)
    (buf : string) (pending : list string) (log : list string)
    : M St (option (list string)) :=
  match fuel with
  | O => ret None
  | Datatypes.S fuel' =>
      let '(buf1, pending1) := deliver buf pending in
      let '(line, eof, buf2) := ReadString newline buf1 in
      if negb eof then
        emit (EvLine line) ;;
        BuildImage_poll fuel' wantsMore c buf2 pending1 (log ++ [line])
      else
        let '(buf3, pending3) := deliver buf2 pending1 in
        match pending3 with
        | [] =>
            put_store (store_after c) ;;
            match build_err c with
            | Some err => return_reply (ReplyErrorOccurred (Error err))
            | None => ret (Some log)
            end
        | _ :: _ =>
            if negb wantsMore then
              emit EvSleep ;;
              BuildImage_poll fuel' wantsMore c buf3 pending3 log
            else
              reply (ReplyBuildImage {| Logs := log; Id := "" |}) ;;
              BuildImage_poll fuel' wantsMore c buf3 pending3 []
        end
  end.

Fixpoint newlines (s : string) : nat :=
  match s with
  | EmptyString => 0
  | String c rest =>
      if (c =? newline)%char then Datatypes.S (newlines rest) else newlines rest
  end.

Fixpoint pending_newlines (pending : list string) : nat :=
  match pending with
  | [] => 0
  | w :: rest => newlines w + pending_newlines rest
  end.

(** Iterations that suffice for the loop to see the end of the run. *)
Definition poll_fuel (buf : string) (pending : list string) : nat :=
  2 * length pending + newlines buf + pending_newlines pending + 1.

Definition BuildImage (wantsMore : bool) (config : BuildInfo) : Handler St :=
  r <- BuildImage_options config ;;
  let options := fst r in
  let dockerfiles := snd r in
  (if wantsMore then set_Continues true else ret tt) ;;
  c <- build options dockerfiles ;;
  log <- BuildImage_poll (poll_fuel "" (writes c)) wantsMore c "" (writes c) [] ;;
  match log with
  | None => panic "poll: out of fuel"
  | Some log =>
      set_Continues false ;;
      match Tags config with
      | [] => panic "index out of range"
      | tag0 :: _ =>
          st <- get_store ;;
          match NewFromLocal rt tag0 st with
          | Err err => return_reply (ReplyErrorOccurred (Error err))
          | Ok newImage =>
              return_reply
                (ReplyBuildImage {| Logs := log; Id := ID newImage |})
          end
      end
  end.

End Handlers.

(* ================================================================= *)
(** ** Reading the events of a run *)

(** The log lines the polling loop took from the build's output. *)
Fixpoint lines (evs : list Event) : list string :=
  match evs with
  | [] => []
  | EvLine l :: evs' => l :: lines evs'
  | _ :: evs' => lines evs'
  end.

(** The log lines that the replies carry, one reply after the other. *)
Fixpoint reply_logs (evs : list Event) : list string :=
  match evs with
  | [] => []
  | EvReply _ (ReplyBuildImage br) :: evs' => (Logs br ++ reply_logs evs')%list
  | _ :: evs' => reply_logs evs'
  end.

(** What is left for the polling loop to do: a bound on its iterations. *)
Definition poll_measure (buf : string) (pending : list string) : nat :=
  2 * length pending + newlines buf + pending_newlines pending.

(** The builds started, with their options. *)
Fixpoint builds (evs : list Event) : list imagebuildah.BuildOptions :=
  match evs with
  | [] => []
  | EvBuild o _ :: evs' => o :: builds evs'
  | _ :: evs' => builds evs'
  end.

(** The destinations pushed to. *)
Fixpoint pushes (evs : list Event) : list string :=
  match evs with
  | [] => []
  | EvPush _ d _ :: evs' => d :: pushes evs'
  | _ :: evs' => pushes evs'
  end.

(** The names handed to the registry pull, and the archives loaded. *)
Fixpoint pulls (evs : list Event) : list string :=
  match evs with
  | [] => []
  | EvPull n :: evs' => n :: pulls evs'
  | _ :: evs' => pulls evs'
  end.

Fixpoint loads (evs : list Event) : list ImageReference :=
  match evs with
  | [] => []
  | EvLoadArchive r :: evs' => r :: loads evs'
  | _ :: evs' => loads evs'
  end.

(** The IDs of the images whose removal succeeded. *)
Fixpoint removed (evs : list Event) : list string :=
  match evs with
  | [] => []
  | EvRemove i _ None :: evs' => ID i :: removed evs'
  | _ :: evs' => removed evs'
  end.

(** The image IDs a reply carries as its list of pruned images. *)
Definition reply_pruned (r : Reply) : option (list string) :=
  match r with
  | ReplyImagesPrune pruned => Some pruned
  | _ => None
  end.

(** Replies that report a fault. *)
Definition is_fault (r : Reply) : bool :=
  match r with
  | ReplyErrorOccurred _ | ReplyImageNotFound _ => true
  | _ => false
  end.

(** The output formats [BuildImage] accepts (150-158): none given, or one
    that starts with [oci] or with [docker]. *)
Definition recognized_format (format : string) : bool :=
  (format =? "")%string || String.prefix "oci" format ||
  String.prefix "docker" format.

(** The formats [PushImage] knows (358-368), none given included. *)
Definition push_format_known (format : string) : Prop :=
  In format [""; "oci"; "v2s1"; "v2s2"; "docker"].

(** The credentials of a call are usable: none given, or they parse. *)
Definition creds_parse {St} (rt : Runtime St) (creds : string) : Prop :=
  creds = "" \/ exists c, util_ParseRegistryCreds rt creds = Ok c.

(** The events of removing the images [imgs] with [force], all with
    success. *)
Definition removals_ok (imgs : list Image) : list Event :=
  map (fun i => EvRemove i true None) imgs.

(** What [SearchImage] is to reply when failures are skipped: the converted
    results of the registries that answer, one registry after the other. *)
Fixpoint search_results {St} (rt : Runtime St) (name : string) (limit : Z)
    (regs : list string) (st : St) : list ImageSearch :=
  match regs with
  | [] => []
  | reg :: rest =>
      let r := docker_SearchRegistry rt reg name limit st in
      (match fst r with
       | Ok results => map imageSearch results
       | Err _ => []
       end ++ search_results rt name limit rest (snd r))%list
  end.

(** The store the registries leave after they have all been asked. *)
Fixpoint search_store {St} (rt : Runtime St) (name : string) (limit : Z)
    (regs : list string) (st : St) : St :=
  match regs with
  | [] => st
  | reg :: rest =>
      search_store rt name limit rest
        (snd (docker_SearchRegistry rt reg name limit st))
  end.

(* ================================================================= *)
(** ** A small concrete runtime *)

(** A runtime over a store that is the list of its images, to run the
    handlers on concrete calls.  Its behaviour is set by a few [Knobs]. *)
Module Demo.

Definition dquote : string := String (ascii_of_nat 34) EmptyString.
Definition quote (s : string) : string := dquote ++ s ++ dquote.

Definition matches (name : string) (i : Image) : bool :=
  (ID i =? name)%string || existsb (String.eqb name) (Names i).

Definition lookup (name : string) (st : list Image) : result Image :=
  match find (matches name) st with
  | Some i => Ok i
  | None => Err (withMessage ErrNoSuchImage ("unable to find " ++ name))
  end.

Definition mem (x : string) (l : list string) : bool :=
  existsb (String.eqb x) l.

Fixpoint assoc {A} (k : string) (l : list (string * A)) : option A :=
  match l with
  | [] => None
  | (k', v) :: rest => if (k =? k')%string then Some v else assoc k rest
  end.

Record Knobs : Type := mkKnobs {
  getwd : option string;
  used : list string;
  locked : list string;
  history : list (string * list History);
  output : list string;
  outcome : option error;
  built : string;
  registries : list (string * result (list SearchResult));
  archive : list Image;
  remote : list Image
}.

Definition runtime (k : Knobs) : Runtime (list Image) :=
  {| filepath_Abs := fun d =>
       if String.prefix "/" d then Ok d
       else match getwd k with
            | Some wd => Ok (wd ++ "/" ++ d)
            | None => Err (errorString "getwd: no such file or directory")
            end;
     filepath_Dir := fun _ =>
       match getwd k with Some wd => wd | None => "/" end;
     filepath_Rel := fun base target =>
       Ok (substring (String.length base + 1) (String.length target) target);
     Quote := quote;
     ErrNoSuchImage_text := "unable to find image";
     units_RAMInBytes := fun s =>
       if (s =? "1g")%string then Ok 1073741824%Z
       else if (s =? "512m")%string then Ok 536870912%Z
       else Err (errorString ("invalid size: '" ++ s ++ "'"));
     util_ParseRegistryCreds := fun c =>
       if String.prefix ":" c then Err (errorString "username can't be empty")
       else Ok {| Username := c; Password := "" |};
     NewFromLocal := lookup;
     GetPruneImages := fun st =>
       Ok (filter (fun i => negb (mem (ID i) (used k))) st);
     Image_History := fun i _ =>
       match assoc (ID i) (history k) with
       | Some h => Ok h
       | None => Err (errorString "no history")
       end;
     Image_Remove := fun i _ st =>
       if mem (ID i) (locked k)
       then (Some (errorString ("could not remove image " ++ ID i)), st)
       else (None, filter (fun j => negb (ID j =? ID i)%string) st);
     Runtime_Build := fun options _ st =>
       {| writes := output k;
          build_err := outcome k;
          store_after :=
            match outcome k with
            | None =>
                (st ++ [mkImage (built k) (imagebuildah.AdditionalTags options)])%list
            | Some _ => st
            end |};
     sysreg_GetRegistries := fun _ => Ok (map fst (registries k));
     docker_SearchRegistry := fun reg _ _ st =>
       (match assoc reg (registries k) with
        | Some r => r
        | None => Err (errorString "no such registry")
        end, st);
     dockerarchive_Transport_Name := "docker-archive";
     alltransports_ParseImageName := fun n => Ok (mkImageReference n);
     LoadFromArchiveReference := fun _ _ st =>
       match archive k with
       | [] => (Err (errorString "no image in the archive"), st)
       | _ => (Ok (archive k), (st ++ archive k)%list)
       end;
     ImageRuntime_New := fun name _ _ _ st =>
       match lookup name (remote k) with
       | Ok i => (Ok i, (st ++ [i])%list)
       | Err _ => (Err (errorString "registry unreachable"), st)
       end;
     PushImageToHeuristicDestination := fun _ _ _ _ _ _ _ st => (None, st) |}.

Definition alpine : Image := mkImage "abc123" ["myapp:latest"].
Definition busybox : Image := mkImage "def456" ["busybox:1"].
Definition scratch : Image := mkImage "0a1b2c" [].

Definition layers : list History :=
  [ mkHistory "l1" "2019-01-01" "/bin/sh -c #(nop) ADD file" 5 "";
    mkHistory "l2" "2019-01-02" "/bin/sh -c #(nop) CMD sh" 0 "" ].

Definition result_of (n : string) (stars : Z) : SearchResult :=
  mkSearchResult n "" stars false false.

Definition knobs : Knobs :=
  {| getwd := Some "/work";
     used := ["abc123"];
     locked := [];
     history := [("abc123", layers)];
     output := ["STEP 1: FROM alpine" ++ String newline "";
                "STEP 2: RUN tr"; "ue" ++ String newline "";
                "";
                "STEP 3: COMMIT" ++ String newline "" ];
     outcome := None;
     built := "f00d";
     registries :=
       [ ("docker.io", Ok [result_of "docker.io/library/alpine" 5]);
         ("quay.io", Err (errorString "unauthorized"));
         ("registry.local", Ok [result_of "registry.local/alpine" 1]) ];
     archive := [mkImage "7a2" ["x:latest"]];
     remote := [] |}.

Definition store0 : list Image := [alpine; busybox; scratch].

(** A request for a plain build of one Dockerfile into one tag. *)
Definition request (tags : list string) (format : string) : BuildInfo :=
  {| Dockerfile := ["Dockerfile"];
     Tags := tags;
     Add_hosts := [];
     Cgroup_parent := "";
     Cpu_period := 0;
     Cpu_quota := 0;
     Cpuset_cpus := "";
     Cpuset_mems := "";
     Memory := "";
     Memory_swap := "";
     Shm_size := "";
     Ulimit := [];
     Volume := [];
     Squash := false;
     Pull := false;
     Pull_always := false;
     Image_format := format;
     Build_args := [];
     Label := [];
     Annotations := [] |}.

(** The process has lost its working directory: [os.Getwd] fails. *)
Definition no_cwd : Knobs :=
  mkKnobs None (used knobs) (locked knobs) (history knobs) (output knobs)
    (outcome knobs) (built knobs) (registries knobs) (archive knobs)
    (remote knobs).

(** Removing [0a1b2c] fails. *)
Definition scratch_locked : Knobs :=
  mkKnobs (getwd knobs) (used knobs) ["0a1b2c"] (history knobs)
    (output knobs) (outcome knobs) (built knobs) (registries knobs)
    (archive knobs) (remote knobs).

(** One registry only, and it refuses. *)
Definition one_registry : Knobs :=
  mkKnobs (getwd knobs) (used knobs) (locked knobs) (history knobs)
    (output knobs) (outcome knobs) (built knobs)
    [("quay.io", Err (errorString "unauthorized"))] (archive knobs)
    (remote knobs).

End Demo.

(* ================================================================= *)
(** * The rest of the interface *)

(** The handlers of [images.go] that remain: [ListImages], [GetImage],
    [CreateImage], [InspectImage], [TagImage], [RemoveImage],
    [DeleteUnusedImages], [Commit], [ImportImage], [ExportImage] and
    [ContainerRunlabel].  They send replies of further kinds and call
    further parts of the runtime; both are added beside what is above. *)

(** ** Data *)

(** [iopodman.ImageInList]. *)
Record ImageInList : Type := mkImageInList {
  il_Id : string;
  il_ParentId : string;
  il_RepoTags : list string;
  il_RepoDigests : list string;
  il_Created : string;
  il_Size : Z;
  il_VirtualSize : Z;
  il_Containers : Z;
  il_Labels : list (string * string);
  il_IsParent : bool
}.

(** The replies of the remaining handlers. *)
Inductive ReplyX : Type :=
| ReplyListImages (images : list ImageInList)
| ReplyGetImage (image : ImageInList)
| ReplyMethodNotImplemented (method : string)
| ReplyInspectImage (image : string)
| ReplyTagImage (id : string)
| ReplyRemoveImage (id : string)
| ReplyDeleteUnusedImages (images : list string)
| ReplyContainerNotFound (name : string)
| ReplyCommit (id : string)
| ReplyImportImage (id : string)
| ReplyExportImage (id : string)
| ReplyContainerRunlabel.

(** What [Inspect] gives, before it is serialized: opaque. *)
Record ImageData : Type := mkImageData {
  data_text : string
}.

(** A container handle ([*libpod.Container]). *)
Record Container : Type := mkContainer {
  ctr_ID : string
}.

(** [types.SystemContext] as [image.GetSystemContext] makes it, kept as the
    arguments it is made from. *)
Record SystemContext : Type := mkSystemContext {
  sc_SignaturePolicyPath : string;
  sc_AuthFilePath : string;
  sc_ForceCompress : bool
}.

Definition GetSystemContext (signaturePolicyPath authFilePath : string)
    (forceCompress : bool) : SystemContext :=
  mkSystemContext signaturePolicyPath authFilePath forceCompress.

(** [buildah.CommitOptions] and [libpod.ContainerCommitOptions]: the fields
    [Commit] sets. *)
Record CommitOptions : Type := mkCommitOptions {
  co_SignaturePolicyPath : string;
  co_SystemContext : SystemContext;
  co_PreferredManifestType : string
}.

Record ContainerCommitOptions : Type := mkContainerCommitOptions {
  cco_CommitOptions : CommitOptions;
  cco_Pause : bool;
  cco_Message : string;
  cco_Changes : list string;
  cco_Author : string
}.

(** The image configuration of the OCI image specification: [v1.History],
    of which [ImportImage] sets the comment, [v1.ImageConfig], opaque, and
    [v1.Image]. *)
Module imgspec.
Record History : Type := mkHistory {
  Comment : string
}.

Record ImageConfig : Type := mkImageConfig {
  changes : list string
}.

Record Image : Type := mkImage {
  Config : ImageConfig;
  History_ : list History
}.
End imgspec.

(** [reference.NamedTagged]: opaque, with the text it was parsed from. *)
Record NamedTagged : Type := mkNamedTagged {
  tagged_text : string
}.

(** [iopodman.Runlabel]. *)
Record Runlabel : Type := mkRunlabel {
  rl_Image : string;
  rl_Authfile : string;
  rl_CertDir : string;
  rl_Creds : string;
  rl_Name : string;
  rl_Pull : bool;
  rl_SignaturePolicyPath : string;
  rl_TlsVerify : bool;
  rl_Label : string;
  rl_ExtraArgs : list string;
  rl_Opts : list (string * string)
}.

(** ** Events *)

(** The events of the remaining handlers: those of the kinds above, the
    further replies, and the further calls that change something. *)
Inductive EventX : Type :=
| Old (e : Event)
| EvReplyX (continues : bool) (r : ReplyX)
| EvTag (img : Image) (tag : string) (err : option error)
| EvRemoveImage (img : Image) (force : bool) (err : option error)
| EvCommit (ctr : Container) (imageName : string)
    (options : ContainerCommitOptions)
| EvImport (source reference : string) (so : SigningOptions)
    (config : imgspec.Image)
| EvPushTo (img : Image) (destname manifestType signaturePolicy : string)
    (compress : bool) (so : SigningOptions)
    (dockerRegistryOptions : DockerRegistryOptions)
    (additionalTags : list NamedTagged)
| EvGetRunlabel (label image : string) (pull : bool)
    (dockerRegistryOptions : DockerRegistryOptions)
| EvExec (env : list string) (cmd : string) (args : list string).

(** ** The runtime, continued *)

Set Implicit Arguments.

(** What the remaining handlers call beyond [Runtime].  A call that Go
    writes [v, _ := f()] has its value and its error side by side; [Size]
    gives a pointer, [None] when it is nil. *)
Record Runtime2 (St : Type) : Type := mkRuntime2 {
  GetImages : St -> result (list Image);
  Image_Parent : Image -> string;
  Image_Created : Image -> string;
  Image_VirtualSize : Image -> Z;
  Image_Labels : Image -> St -> list (string * string) * option error;
  Image_Containers : Image -> St -> list string * option error;
  Image_RepoDigests : Image -> St -> result (list string);
  Image_Size : Image -> St -> option Z * option error;
  Image_IsParent : Image -> St -> result bool;
  Image_Inspect : Image -> St -> result ImageData;
  json_Marshal : ImageData -> result string;
  Image_TagImage : Image -> string -> St -> option error * St;
  Runtime_RemoveImage : Image -> bool -> St -> result string * St;
  LookupContainer : string -> St -> result Container;
  Config_SignaturePolicyPath : St -> string;
  Container_Commit :
    Container -> string -> ContainerCommitOptions -> St -> result Image * St;
  util_GetImageConfig : list string -> result imgspec.ImageConfig;
  ImageRuntime_Import :
    string -> string -> SigningOptions -> imgspec.Image -> St ->
    result Image * St;
  image_GetAdditionalTags : list string -> result (list NamedTagged);
  PushImageToHeuristicDestination_tags :
    Image -> string -> string -> string -> bool -> SigningOptions ->
    DockerRegistryOptions -> list NamedTagged -> St -> option error * St;
  shared_GetRunlabel :
    string -> string -> bool -> string -> DockerRegistryOptions -> string ->
    string -> St -> result (string * string) * St;
  shared_GenerateRunlabelCommand :
    string -> string -> string -> list (string * string) -> list string ->
    result (list string * list string);
  utils_ExecCmdWithStdStreams :
    list string -> string -> list string -> St -> option error * St
}.

Unset Implicit Arguments.

(** ** The handler monad, with the further events *)

Record OutX (St A : Type) : Type := mkOutX {
  emittedX : list EventX;
  finalX : CallState St;
  resX : Res A
}.
Arguments mkOutX {St A} emittedX finalX resX.
Arguments emittedX {St A} o.
Arguments finalX {St A} o.
Arguments resX {St A} o.

Definition MX (St A : Type) : Type := CallState St -> OutX St A.

Section HandlerMonadX.
Context {St : Type}.

Definition retX {A} (a : A) : MX St A :=
  fun s => mkOutX [] s (Val a).

Definition bindX {A B} (m : MX St A) (f : A -> MX St B) : MX St B :=
  fun s =>
    let o := m s in
    match resX o with
    | Val a =>
        let o' := f a (finalX o) in
        mkOutX (emittedX o ++ emittedX o') (finalX o') (resX o')
    | Return e => mkOutX (emittedX o) (finalX o) (Return e)
    | Panic msg => mkOutX (emittedX o) (finalX o) (Panic msg)
    end.

(** A computation of the monad above, its events kept as they are. *)
Definition liftX {A} (m : M St A) : MX St A :=
  fun s =>
    let o := m s in
    mkOutX (map Old (emitted o)) (final o) (res o).

Definition emitX (e : EventX) : MX St unit :=
  fun s => mkOutX [e] s (Val tt).

(** [return call.Reply...(...)] for a reply of the further kinds. *)
Definition return_replyX {A} (r : ReplyX) : MX St A :=
  fun s => mkOutX [EvReplyX (Continues s) r] s (Return None).

End HandlerMonadX.

Definition HandlerX (St : Type) : Type := MX St Empty_set.

Definition endingX {St} (o : OutX St Empty_set) : Ending :=
  match resX o with
  | Val a => match a with end
  | Return e => Returned e
  | Panic msg => Panicked msg
  end.

Definition runX {St} (h : HandlerX St) (st : St) : OutX St Empty_set :=
  h (mkCallState st false).

Declare Scope handlerx_scope.
Delimit Scope handlerx_scope with handlerx.
Notation "x <- m ;; k" := (bindX m (fun x => k))
  (at level 61, m at next level, right associativity) : handlerx_scope.
Notation "m ;; k" := (bindX m (fun _ => k))
  (at level 61, right associativity) : handlerx_scope.

(** [int64(v)] of a [uint64]. *)
Definition int64_of_uint64 (v : Z) : Z :=
  (if v <? 2 ^ 63 then v else v - 2 ^ 64)%Z.

(** ** The handlers *)

Section HandlersX.
Context {St : Type}.
Variable rt : Runtime St.
Variable rx : Runtime2 St.
Local Open Scope handlerx_scope.

Definition ErrorOccurred {A} (reason : string) : MX St A :=
  liftX (return_reply (ReplyErrorOccurred reason)).

Definition ImageNotFound {A} (id : string) : MX St A :=
  liftX (return_reply (ReplyImageNotFound id)).

(** *** ListImages (images.go, 35-70) *)
Fixpoint ListImages_loop (images : list Image) (imageList : list ImageInList)
    : HandlerX St :=
  match images with
  | [] => return_replyX (ReplyListImages imageList)
  | image :: rest =>
      st <- liftX get_store ;;
      let labels := fst (Image_Labels rx image st) in
      let containers := fst (Image_Containers rx image st) in
      match Image_RepoDigests rx image st with
      | Err err => liftX (return_ (Some err))
      | Ok repoDigests =>
          let size := fst (Image_Size rx image st) in
          match Image_IsParent rx image st with
          | Err err => ErrorOccurred (Error rt err)
          | Ok isParent =>
              match size with
              | None => liftX (panic "nil pointer dereference")
              | Some size =>
                  let i :=
                    {| il_Id := ID image;
                       il_ParentId := Image_Parent rx image;
                       il_RepoTags := Names image;
                       il_RepoDigests := repoDigests;
                       il_Created := Image_Created rx image;
                       il_Size := int64_of_uint64 size;
                       il_VirtualSize := Image_VirtualSize rx image;
                       il_Containers := Z.of_nat (length containers);
                       il_Labels := labels;
                       il_IsParent := isParent |} in
                  ListImages_loop rest (imageList ++ [i])
              end
          end
      end
  end.

Definition ListImages : HandlerX St :=
  st <- liftX get_store ;;
  match GetImages rx st with
  | Err err =>
      ErrorOccurred ("unable to get list of images " ++ Quote rt (Error rt err))
  | Ok images => ListImages_loop images []
  end.

(** *** GetImage (images.go, 73-107) *)
Definition GetImage (name : string) : HandlerX St :=
  st <- liftX get_store ;;
  match NewFromLocal rt name st with
  | Err err => ImageNotFound (Error rt err)
  | Ok newImage =>
      match snd (Image_Labels rx newImage st) with
      | Some err => liftX (return_ (Some err))
      | None =>
          let labels := fst (Image_Labels rx newImage st) in
          match snd (Image_Containers rx newImage st) with
          | Some err => liftX (return_ (Some err))
          | None =>
              let containers := fst (Image_Containers rx newImage st) in
              match Image_RepoDigests rx newImage st with
              | Err err => liftX (return_ (Some err))
              | Ok repoDigests =>
                  match snd (Image_Size rx newImage st) with
                  | Some err => liftX (return_ (Some err))
                  | None =>
                      match fst (Image_Size rx newImage st) with
                      | None => liftX (panic "nil pointer dereference")
                      | Some size =>
                          return_replyX
                            (ReplyGetImage
                               {| il_Id := ID newImage;
                                  il_ParentId := Image_Parent rx newImage;
                                  il_RepoTags := Names newImage;
                                  il_RepoDigests := repoDigests;
                                  il_Created := Image_Created rx newImage;
                                  il_Size := int64_of_uint64 size;
                                  il_VirtualSize := Image_VirtualSize rx newImage;
                                  il_Containers :=
                                    Z.of_nat (length containers);
                                  il_Labels := labels;
                                  il_IsParent := false |})
                      end
                  end
              end
          end
      end
  end.

(** *** CreateImage (images.go, 281-283) *)
Definition CreateImage : HandlerX St :=
  return_replyX (ReplyMethodNotImplemented "CreateImage").

(** *** InspectImage (images.go, 287-301) *)
Definition InspectImage (name : string) : HandlerX St :=
  st <- liftX get_store ;;
  match NewFromLocal rt name st with
  | Err _ => ImageNotFound name
  | Ok newImage =>
      match Image_Inspect rx newImage st with
      | Err err => ErrorOccurred (Error rt err)
      | Ok inspectInfo =>
          match json_Marshal rx inspectInfo with
          | Err _ => ErrorOccurred "unable to serialize"
          | Ok b => return_replyX (ReplyInspectImage b)
          end
      end
  end.

(** *** TagImage (images.go, 382-391) *)
Definition TagImage (name tag : string) : HandlerX St :=
  st <- liftX get_store ;;
  match NewFromLocal rt name st with
  | Err _ => ImageNotFound name
  | Ok newImage =>
      let r := Image_TagImage rx newImage tag st in
      liftX (put_store (snd r)) ;;
      emitX (EvTag newImage tag (fst r)) ;;
      match fst r with
      | Some err => ErrorOccurred (Error rt err)
      | None => return_replyX (ReplyTagImage (ID newImage))
      end
  end.

(** *** RemoveImage (images.go, 395-406) *)
Definition RemoveImage (name : string) (force : bool) : HandlerX St :=
  st <- liftX get_store ;;
  match NewFromLocal rt name st with
  | Err _ => ImageNotFound name
  | Ok newImage =>
      let r := Runtime_RemoveImage rx newImage force st in
      liftX (put_store (snd r)) ;;
      match fst r with
      | Err err =>
          emitX (EvRemoveImage newImage force (Some err)) ;;
          ErrorOccurred (Error rt err)
      | Ok _ =>
          emitX (EvRemoveImage newImage force None) ;;
          return_replyX (ReplyRemoveImage (ID newImage))
      end
  end.

(** *** DeleteUnusedImages (images.go, 444-463) *)
Fixpoint DeleteUnusedImages_loop (images : list Image)
    (deletedImages : list string) : HandlerX St :=
  match images with
  | [] => return_replyX (ReplyDeleteUnusedImages deletedImages)
  | img :: rest =>
      st <- liftX get_store ;;
      match Image_Containers rx img st with
      | (_, Some err) => ErrorOccurred (Error rt err)
      | (containers, None) =>
          if (length containers =? 0)%nat then
            r <- liftX (Remove rt img false) ;;
            match r with
            | Some err => ErrorOccurred (Error rt err)
            | None =>
                DeleteUnusedImages_loop rest (deletedImages ++ [ID img])
            end
          else DeleteUnusedImages_loop rest deletedImages
      end
  end.

Definition DeleteUnusedImages : HandlerX St :=
  st <- liftX get_store ;;
  match GetImages rx st with
  | Err err => ErrorOccurred (Error rt err)
  | Ok images => DeleteUnusedImages_loop images []
  end.

(** *** Commit (images.go, 466-500) *)
Definition Commit (name imageName : string) (changes : list string)
    (author message : string) (pause : bool) (manifestType : string)
    : HandlerX St :=
  st <- liftX get_store ;;
  match LookupContainer rx name st with
  | Err _ => return_replyX (ReplyContainerNotFound name)
  | Ok ctr =>
      let sc := GetSystemContext (Config_SignaturePolicyPath rx st) "" false in
      mimeType <-
        (if ((manifestType =? "oci") || (manifestType =? ""))%string
         then retX buildah.OCIv1ImageManifest
         else if (manifestType =? "docker")%string
              then retX manifest.DockerV2Schema2MediaType
         else ErrorOccurred
                ("unrecognized image format " ++ Quote rt manifestType)) ;;
      let coptions :=
        {| co_SignaturePolicyPath := Config_SignaturePolicyPath rx st;
           co_SystemContext := sc;
           co_PreferredManifestType := mimeType |} in
      let options :=
        {| cco_CommitOptions := coptions;
           cco_Pause := pause;
           cco_Message := message;
           cco_Changes := changes;
           cco_Author := author |} in
      emitX (EvCommit ctr imageName options) ;;
      let r := Container_Commit rx ctr imageName options st in
      liftX (put_store (snd r)) ;;
      match fst r with
      | Err err => ErrorOccurred (Error rt err)
      | Ok newImage => return_replyX (ReplyCommit (ID newImage))
      end
  end.

(** *** ImportImage (images.go, 503-520) *)
Definition ImportImage (source reference message : string)
    (changes : list string) : HandlerX St :=
  match util_GetImageConfig rx changes with
  | Err err => ErrorOccurred (Error rt err)
  | Ok configChanges =>
      let history := [ {| imgspec.Comment := message |} ] in
      let config :=
        {| imgspec.Config := configChanges; imgspec.History_ := history |} in
      let so := {| RemoveSignatures := false; SignBy := "" |} in
      st <- liftX get_store ;;
      emitX (EvImport source reference so config) ;;
      let r := ImageRuntime_Import rx source reference so config st in
      liftX (put_store (snd r)) ;;
      match fst r with
      | Err err => ErrorOccurred (Error rt err)
      | Ok newImage => return_replyX (ReplyImportImage (ID newImage))
      end
  end.

(** *** ExportImage (images.go, 524-539) *)
Definition ExportImage (name destination : string) (compress : bool)
    (tags : list string) : HandlerX St :=
  st <- liftX get_store ;;
  match NewFromLocal rt name st with
  | Err _ => ImageNotFound name
  | Ok newImage =>
      match image_GetAdditionalTags rx tags with
      | Err err => liftX (return_ (Some err))
      | Ok additionalTags =>
          let so := {| RemoveSignatures := false; SignBy := "" |} in
          let dockeroptions :=
            {| DockerRegistryCreds := None;
               DockerCertPath := "";
               DockerInsecureSkipTLSVerify := OptionalBoolUndefined |} in
          emitX (EvPushTo newImage destination "" "" compress so
                   dockeroptions additionalTags) ;;
          let r := PushImageToHeuristicDestination_tags rx newImage
                     destination "" "" compress so dockeroptions
                     additionalTags st in
          liftX (put_store (snd r)) ;;
          match fst r with
          | Some err => ErrorOccurred (Error rt err)
          | None => return_replyX (ReplyExportImage (ID newImage))
          end
      end
  end.

(** *** ContainerRunlabel (images.go, 598-627) *)
Definition ContainerRunlabel (input : Runlabel) : HandlerX St :=
  let dockerRegistryOptions :=
    {| DockerRegistryCreds := None;
       DockerCertPath := rl_CertDir input;
       DockerInsecureSkipTLSVerify :=
         if negb (rl_TlsVerify input) then OptionalBoolTrue
         else OptionalBoolUndefined |} in
  st <- liftX get_store ;;
  emitX (EvGetRunlabel (rl_Label input) (rl_Image input) (rl_Pull input)
           dockerRegistryOptions) ;;
  let r := shared_GetRunlabel rx (rl_Label input) (rl_Image input)
             (rl_Pull input) (rl_Creds input) dockerRegistryOptions
             (rl_Authfile input) (rl_SignaturePolicyPath input) st in
  liftX (put_store (snd r)) ;;
  match fst r with
  | Err err => liftX (return_ (Some err))
  | Ok (runLabel, imageName) =>
      if (runLabel =? "")%string then liftX (return_ None)
      else
        match shared_GenerateRunlabelCommand rx runLabel imageName
                (rl_Name input) (rl_Opts input) (rl_ExtraArgs input) with
        | Err err => liftX (return_ (Some err))
        | Ok (cmd, env) =>
            match cmd with
            | [] => liftX (panic "index out of range")
            | cmd0 :: args =>
                st <- liftX get_store ;;
                emitX (EvExec env cmd0 args) ;;
                let r := utils_ExecCmdWithStdStreams rx env cmd0 args st in
                liftX (put_store (snd r)) ;;
                match fst r with
                | Some err => ErrorOccurred (Error rt err)
                | None => return_replyX ReplyContainerRunlabel
                end
            end
        end
  end.

End HandlersX.

(** ** Reading the events of the remaining handlers *)

(** How many replies a run has sent, of whatever kind. *)
Fixpoint sent (evs : list EventX) : nat :=
  match evs with
  | [] => 0
  | Old (EvReply _ _) :: evs' => Datatypes.S (sent evs')
  | EvReplyX _ _ :: evs' => Datatypes.S (sent evs')
  | _ :: evs' => sent evs'
  end.

(** A run that consists of one reply: nothing else happens, the store is
    [st] at the end, and the handler returns nil. *)
Definition only_reply {St} (o : Out St Empty_set) (r : Reply) (st : St)
    : Prop :=
  emitted o = [EvReply false r] /\ store (final o) = st
  /\ ending o = Returned None.

Definition only_replyX {St} (o : OutX St Empty_set) (e : EventX) (st : St)
    : Prop :=
  emittedX o = [e] /\ store (finalX o) = st /\ endingX o = Returned None.

(** The events that are replies to the caller. *)
Definition is_reply (e : EventX) : bool :=
  match e with
  | Old (EvReply _ _) | EvReplyX _ _ => true
  | _ => false
  end.

(** No reply among the events. *)
Definition no_reply (evs : list EventX) : bool :=
  forallb (fun e => negb (is_reply e)) evs.

(** A reply, when there is one, is the last event: at most one reply is
    sent, and nothing is done after it. *)
Fixpoint reply_is_last (evs : list EventX) : bool :=
  match evs with
  | [] => true
  | e :: rest =>
      if is_reply e then match rest with [] => true | _ :: _ => false end
      else reply_is_last rest
  end.

(** A log line as [ReadString] gives it without error: some text with no
    line end in it, then the line end. *)
Definition whole_line (l : string) : Prop :=
  exists body, l = (body ++ String newline "")%string /\ newlines body = 0.

(** The media type [PushImage] asks for, by format (358-368). *)
Definition push_manifestType (format : string) : string :=
  if (format =? "")%string then ""
  else if (format =? "oci")%string then v1.MediaTypeImageManifest
  else if (format =? "v2s1")%string
       then manifest.DockerV2Schema1SignedMediaType
  else manifest.DockerV2Schema2MediaType.

(** The credentials as [PushImage] and [PullImage] take them from the call
    (344-350, 547-553): none when the text is empty, else what it parses
    to. *)
Definition parsed_creds {St} (rt : Runtime St) (creds : string)
    : result (option DockerAuthConfig) :=
  if (creds =? "")%string then Ok None
  else match util_ParseRegistryCreds rt creds with
       | Ok c => Ok (Some c)
       | Err e => Err e
       end.

(** [image.SigningOptions{}] and [image.DockerRegistryOptions{}]. *)
Definition no_signing : SigningOptions :=
  {| RemoveSignatures := false; SignBy := "" |}.

Definition no_registry_options : DockerRegistryOptions :=
  {| DockerRegistryCreds := None;
     DockerCertPath := "";
     DockerInsecureSkipTLSVerify := OptionalBoolUndefined |}.

(** The formats [Commit] takes (473-480). *)
Definition commit_format_known (manifestType : string) : Prop :=
  In manifestType [""; "oci"; "docker"].

(** An image that [ListImages] can list on the store [st]: its digests and
    its parenthood can be read, and its size is there. *)
Definition listable {St} (rx : Runtime2 St) (st : St) (image : Image) : Prop :=
  (exists repoDigests, Image_RepoDigests rx image st = Ok repoDigests)
  /\ (exists isParent, Image_IsParent rx image st = Ok isParent)
  /\ (exists size, fst (Image_Size rx image st) = Some size).

(** The entry [ListImages] makes for an image. *)
Definition list_entry {St} (rx : Runtime2 St) (st : St) (image : Image)
    : ImageInList :=
  {| il_Id := ID image;
     il_ParentId := Image_Parent rx image;
     il_RepoTags := Names image;
     il_RepoDigests :=
       match Image_RepoDigests rx image st with Ok d => d | Err _ => [] end;
     il_Created := Image_Created rx image;
     il_Size :=
       match fst (Image_Size rx image st) with
       | Some size => int64_of_uint64 size
       | None => 0%Z
       end;
     il_VirtualSize := Image_VirtualSize rx image;
     il_Containers :=
       Z.of_nat (length (fst (Image_Containers rx image st)));
     il_Labels := fst (Image_Labels rx image st);
     il_IsParent :=
       match Image_IsParent rx image st with Ok p => p | Err _ => false end |}.

(** An entry without the mark of a parent, as [GetImage] fills it. *)
Definition without_parent (e : ImageInList) : ImageInList :=
  {| il_Id := il_Id e;
     il_ParentId := il_ParentId e;
     il_RepoTags := il_RepoTags e;
     il_RepoDigests := il_RepoDigests e;
     il_Created := il_Created e;
     il_Size := il_Size e;
     il_VirtualSize := il_VirtualSize e;
     il_Containers := il_Containers e;
     il_Labels := il_Labels e;
     il_IsParent := false |}.

(** ** A concrete runtime for the remaining handlers *)

Module Demo2.

Record Knobs : Type := mkKnobs {
  ctrs : list (string * list string);
  unreadable : list string;
  sizeless : list string;
  known_ctrs : list string;
  runlabel : string
}.

Definition containers_of (k : Knobs) (i : Image) : list string :=
  match Demo.assoc (ID i) (ctrs k) with
  | Some l => l
  | None => []
  end.

Definition runtime2 (k : Knobs) : Runtime2 (list Image) :=
  {| GetImages := fun st => Ok st;
     Image_Parent := fun _ => "";
     Image_Created := fun _ => "2019-01-01 00:00:00 +0000 UTC";
     Image_VirtualSize := fun _ => (-1)%Z;
     Image_Labels := fun i _ =>
       if Demo.mem (ID i) (unreadable k)
       then ([], Some (errorString "cannot read the labels"))
       else ([("maintainer", "me")], None);
     Image_Containers := fun i _ =>
       if Demo.mem (ID i) (unreadable k)
       then ([], Some (errorString "cannot read the containers"))
       else (containers_of k i, None);
     Image_RepoDigests := fun _ _ => Ok [];
     Image_Size := fun i _ =>
       if Demo.mem (ID i) (sizeless k)
       then (None, Some (errorString "unable to determine size"))
       else (Some 1024%Z, None);
     Image_IsParent := fun _ _ => Ok false;
     Image_Inspect := fun i _ => Ok (mkImageData (ID i));
     json_Marshal := fun d => Ok (data_text d);
     Image_TagImage := fun i tag st =>
       (None,
        map (fun j => if (ID j =? ID i)%string
                      then mkImage (ID j) (Names j ++ [tag])
                      else j) st);
     Runtime_RemoveImage := fun i force st =>
       if negb force && negb (length (containers_of k i) =? 0)%nat
       then (Err (errorString "image is in use by a container"), st)
       else (Ok (ID i), filter (fun j => negb (ID j =? ID i)%string) st);
     LookupContainer := fun name _ =>
       if Demo.mem name (known_ctrs k) then Ok (mkContainer name)
       else Err (errorString "no such container");
     Config_SignaturePolicyPath := fun _ => "/etc/containers/policy.json";
     Container_Commit := fun _ imageName _ st =>
       (Ok (mkImage "c0ffee" [imageName]),
        (st ++ [mkImage "c0ffee" [imageName]])%list);
     util_GetImageConfig := fun changes => Ok (imgspec.mkImageConfig changes);
     ImageRuntime_Import := fun _ reference _ _ st =>
       (Ok (mkImage "1a2b3c" [reference]),
        (st ++ [mkImage "1a2b3c" [reference]])%list);
     image_GetAdditionalTags := fun tags => Ok (map mkNamedTagged tags);
     PushImageToHeuristicDestination_tags :=
       fun _ _ _ _ _ _ _ _ st => (None, st);
     shared_GetRunlabel := fun _ image _ _ _ _ _ st =>
       (Ok (runlabel k, image), st);
     shared_GenerateRunlabelCommand := fun runLabel imageName _ _ _ =>
       Ok (["podman"; "run"; imageName], []);
     utils_ExecCmdWithStdStreams := fun _ _ _ st => (None, st) |}.

Definition knobs : Knobs :=
  {| ctrs := [("abc123", ["web1"])];
     unreadable := [];
     sizeless := [];
     known_ctrs := ["web1"];
     runlabel := "" |}.

(** The size of [def456] cannot be determined. *)
Definition busybox_sizeless : Knobs :=
  mkKnobs (ctrs knobs) (unreadable knobs) ["def456"] (known_ctrs knobs)
    (runlabel knobs).

(** The build fails at its second step. *)
Definition build_fails : Demo.Knobs :=
  Demo.mkKnobs (Demo.getwd Demo.knobs) (Demo.used Demo.knobs)
    (Demo.locked Demo.knobs) (Demo.history Demo.knobs)
    ["STEP 1: FROM alpine" ++ String newline ""; "STEP 2: RUN fal"]
    (Some (errorString "error building at step 2"))
    (Demo.built Demo.knobs) (Demo.registries Demo.knobs)
    (Demo.archive Demo.knobs) (Demo.remote Demo.knobs).

(** Every registry refuses. *)
Definition all_refuse : Demo.Knobs :=
  Demo.mkKnobs (Demo.getwd Demo.knobs) (Demo.used Demo.knobs)
    (Demo.locked Demo.knobs) (Demo.history Demo.knobs)
    (Demo.output Demo.knobs) (Demo.outcome Demo.knobs)
    (Demo.built Demo.knobs)
    [("docker.io", Err (errorString "unauthorized"));
     ("quay.io", Err (errorString "timeout"))]
    (Demo.archive Demo.knobs) (Demo.remote Demo.knobs).

(** The registry has [alpine]. *)
Definition registry_has_alpine : Demo.Knobs :=
  Demo.mkKnobs (Demo.getwd Demo.knobs) (Demo.used Demo.knobs)
    (Demo.locked Demo.knobs) (Demo.history Demo.knobs)
    (Demo.output Demo.knobs) (Demo.outcome Demo.knobs)
    (Demo.built Demo.knobs) (Demo.registries Demo.knobs)
    (Demo.archive Demo.knobs) [mkImage "a1b2" ["alpine"]].

(** A request with memory limits. *)
Definition request_mem (memory memory_swap : string) : BuildInfo :=
  {| Dockerfile := ["Dockerfile"];
     Tags := ["app:1"];
     Add_hosts := [];
     Cgroup_parent := "";
     Cpu_period := 0;
     Cpu_quota := 0;
     Cpuset_cpus := "";
     Cpuset_mems := "";
     Memory := memory;
     Memory_swap := memory_swap;
     Shm_size := "";
     Ulimit := [];
     Volume := [];
     Squash := false;
     Pull := true;
     Pull_always := true;
     Image_format := "docker-v2";
     Build_args := [];
     Label := [];
     Annotations := [] |}.

(** The image has a run label. *)
Definition labelled : Knobs :=
  mkKnobs (ctrs knobs) (unreadable knobs) (sizeless knobs) (known_ctrs knobs)
    "podman run IMAGE".

(** A call of [ContainerRunlabel]. *)
Definition runlabel_call : Runlabel :=
  {| rl_Image := "myapp:latest";
     rl_Authfile := "";
     rl_CertDir := "";
     rl_Creds := "";
     rl_Name := "";
     rl_Pull := false;
     rl_SignaturePolicyPath := "";
     rl_TlsVerify := true;
     rl_Label := "run";
     rl_ExtraArgs := [];
     rl_Opts := [] |}.

End Demo2.


(* ================================================================= *)
(** * Properties *)

Open Scope list_scope.

(** ** The monad: how a run decomposes *)

Section MonadFacts.
Context {St : Type}.

Lemma bind_val {A B} (m : M St A) (f : A -> M St B) s a :
  res (m s) = Val a ->
  bind m f s =
    mkOut (emitted (m s) ++ emitted (f a (final (m s))))
          (final (f a (final (m s)))) (res (f a (final (m s)))).
Proof. unfold bind. intros ->. reflexivity. Qed.

Lemma bind_return {A B} (m : M St A) (f : A -> M St B) s e :
  res (m s) = Return e ->
  bind m f s = mkOut (emitted (m s)) (final (m s)) (Return e).
Proof. unfold bind. intros ->. reflexivity. Qed.

Lemma bind_panic {A B} (m : M St A) (f : A -> M St B) s msg :
  res (m s) = Panic msg ->
  bind m f s = mkOut (emitted (m s)) (final (m s)) (Panic msg).
Proof. unfold bind. intros ->. reflexivity. Qed.

Lemma out_eta {A} (o : Out St A) : o = mkOut (emitted o) (final o) (res o).
Proof. destruct o; reflexivity. Qed.

Lemma replies_app evs evs' : replies (evs ++ evs') = replies evs ++ replies evs'.
Proof.
  induction evs as [|e evs IH]; [reflexivity|].
  destruct e; cbn; rewrite ?IH; reflexivity.
Qed.

Lemma lines_app evs evs' : lines (evs ++ evs') = lines evs ++ lines evs'.
Proof.
  induction evs as [|e evs IH]; [reflexivity|].
  destruct e; cbn; rewrite ?IH; reflexivity.
Qed.

Lemma builds_app evs evs' : builds (evs ++ evs') = builds evs ++ builds evs'.
Proof.
  induction evs as [|e evs IH]; [reflexivity|].
  destruct e; cbn; rewrite ?IH; reflexivity.
Qed.

End MonadFacts.

(** One step of symbolic execution of a handler: the monad's operations are
    unfolded and the record projections reduced. *)
Ltac mstep :=
  cbv [bind ret return_ return_reply reply emit get_store put_store
       get_Continues set_Continues panic];
  cbn [emitted final res store Continues app fst snd ending].

(** ** ImageExists *)

Section ImageExistsFacts.
Context {St : Type} (rt : Runtime St).

(** C10. [ImageExists] sends exactly one reply and leaves the store alone.
    The reply is [ImageExists(0)] when the lookup finds an image,
    [ImageExists(1)] when the lookup fails with an error whose cause is
    [ErrNoSuchImage] (the existence is encoded inverted), and
    [ErrorOccurred] only for a lookup error of another cause: a missing
    image never gives the error reply. *)
Theorem ImageExists_inverted (name : string) (st : St) :
  let o := run (ImageExists rt name) st in
  emitted o =
    [EvReply false
       match NewFromLocal rt name st with
       | Ok _ => ReplyImageExists 0
       | Err err =>
           if is_ErrNoSuchImage err then ReplyImageExists 1
           else ReplyErrorOccurred (Error rt err)
       end]
  /\ ending o = Returned None
  /\ store (final o) = st.
Proof.
  unfold run, ImageExists. cbn.
  destruct (NewFromLocal rt name st) as [img|err]; cbn.
  - auto.
  - destruct (is_ErrNoSuchImage err); cbn; auto.
Qed.

End ImageExistsFacts.

(** ** HistoryImage *)

Section HistoryImageFacts.
Context {St : Type} (rt : Runtime St).

Lemma HistoryImage_loop_map (newImage : Image) (history : list History) :
  forall histories,
    HistoryImage_loop newImage history histories =
    histories ++ map (imageHistory newImage) history.
Proof.
  induction history as [|hist rest IH]; intros histories; cbn.
  - now rewrite app_nil_r.
  - rewrite IH, <- app_assoc. reflexivity.
Qed.

(** C6, as the code has it.  On an existing image whose history can be
    read, [HistoryImage] replies once, with one entry per history entry of
    the image, in the order the image gives them; every entry, and not the
    last one alone, carries the current names of the image. *)
Theorem HistoryImage_every_entry_tagged (name : string) (st : St)
    (newImage : Image) (history : list History) :
  NewFromLocal rt name st = Ok newImage ->
  Image_History rt newImage st = Ok history ->
  let o := run (HistoryImage rt name) st in
  exists histories,
    emitted o = [EvReply false (ReplyHistoryImage histories)]
    /\ ending o = Returned None
    /\ histories = map (imageHistory newImage) history
    /\ map ih_Id histories = map hist_ID history
    /\ Forall (fun h => ih_Tags h = Names newImage) histories.
Proof.
  intros Himg Hhist. unfold run, HistoryImage. cbn.
  rewrite Himg, Hhist. cbn.
  rewrite HistoryImage_loop_map. cbn.
  eexists. repeat split.
  - now rewrite map_map.
  - apply Forall_forall. intros h Hin.
    apply in_map_iff in Hin. destruct Hin as [x [<- _]]. reflexivity.
Qed.

End HistoryImageFacts.

(** A run of the theorem: the image [myapp:latest] of the demo store. *)
Lemma HistoryImage_every_entry_tagged_witness :
  exists histories,
    emitted (run (HistoryImage (Demo.runtime Demo.knobs) "myapp:latest")
               Demo.store0)
      = [EvReply false (ReplyHistoryImage histories)]
    /\ ending (run (HistoryImage (Demo.runtime Demo.knobs) "myapp:latest")
                 Demo.store0) = Returned None
    /\ histories = map (imageHistory Demo.alpine) Demo.layers
    /\ map ih_Id histories = map hist_ID Demo.layers
    /\ Forall (fun h => ih_Tags h = Names Demo.alpine) histories.
Proof.
  apply (HistoryImage_every_entry_tagged (Demo.runtime Demo.knobs)
           "myapp:latest" Demo.store0 Demo.alpine Demo.layers);
    reflexivity.
Defined.

(** C6 as the claim has it fails: of the two entries of [myapp:latest], the
    first, which is not the final one, carries the name of the image. *)
Lemma HistoryImage_earlier_entry_has_tags :
  exists h1 h2,
    replies (emitted (run (HistoryImage (Demo.runtime Demo.knobs)
                             "myapp:latest") Demo.store0))
      = [(false, ReplyHistoryImage [h1; h2])]
    /\ ih_Tags h1 = ["myapp:latest"]
    /\ ih_Tags h1 <> [].
Proof.
  do 2 eexists. split; [reflexivity|]. split; [reflexivity|]. discriminate.
Qed.

(** ** PushImage *)

Section PushImageFacts.
Context {St : Type} (rt : Runtime St).

(** C7. On an existing local image, [PushImage] pushes nowhere but to the
    tag argument when that is not empty, and nowhere but to the source name
    when it is; and when the credentials parse and the format is a known
    one, it does push, once, to that destination. *)
Theorem PushImage_destination (name tag : string) (tlsVerify : bool)
    (signaturePolicy creds certDir : string) (compress : bool)
    (format : string) (removeSignatures : bool) (signBy : string)
    (st : St) (newImage : Image) :
  NewFromLocal rt name st = Ok newImage ->
  let o := run (PushImage rt name tag tlsVerify signaturePolicy creds
                  certDir compress format removeSignatures signBy) st in
  (tag <> ""%string -> forall d, In d (pushes (emitted o)) -> d = tag)
  /\ (tag = ""%string -> forall d, In d (pushes (emitted o)) -> d = name)
  /\ (creds_parse rt creds -> push_format_known format ->
      pushes (emitted o) = [if (tag =? "")%string then name else tag]).
Proof.
  intros Himg o.
  assert (Hshape :
    pushes (emitted o) = [] \/
    pushes (emitted o) = [if (tag =? "")%string then name else tag]).
  { subst o. unfold run, PushImage. cbn. rewrite Himg. cbn.
    destruct (creds =? "")%string; cbn.
    2: destruct (util_ParseRegistryCreds rt creds); cbn; [|now left].
    all: destruct (format =? "")%string; cbn;
      [|destruct (format =? "oci")%string; cbn;
        [|destruct (format =? "v2s1")%string; cbn;
          [|destruct ((format =? "v2s2") || (format =? "docker"))%string;
            cbn; [|now left]]]].
    all: match goal with
         | |- context [PushImageToHeuristicDestination ?r ?i ?d ?m ?p ?c ?s ?o ?x] =>
             destruct (PushImageToHeuristicDestination r i d m p c s o x)
               as [[e|] st']
         end; cbn; now right. }
  assert (Hdoes : creds_parse rt creds -> push_format_known format ->
    pushes (emitted o) = [if (tag =? "")%string then name else tag]).
  { intros Hcreds Hfmt. subst o. unfold run, PushImage. cbn.
    rewrite Himg. cbn.
    assert (Hc : exists c,
      (if (creds =? "")%string then ret None
       else match util_ParseRegistryCreds rt creds with
            | Err err => return_ (Some err)
            | Ok c => ret (Some c)
            end) = (ret c : M St (option DockerAuthConfig))).
    { destruct Hcreds as [->|[c Hc]]; cbn; [now eexists|].
      rewrite Hc. destruct (creds =? "")%string; now eexists. }
    destruct Hc as [c ->]. cbn.
    unfold push_format_known in Hfmt. cbn in Hfmt.
    destruct Hfmt as [<-|[<-|[<-|[<-|[<-|[]]]]]]; cbn;
      match goal with
      | |- context [PushImageToHeuristicDestination ?r ?i ?d ?m ?p ?c ?s ?o ?x] =>
          destruct (PushImageToHeuristicDestination r i d m p c s o x)
            as [[e|] st']
      end; reflexivity. }
  clearbody o.
  split; [|split]; [| |exact Hdoes].
  - intros Htag d Hd. apply String.eqb_neq in Htag.
    rewrite Htag in Hshape.
    destruct Hshape as [H|H]; rewrite H in Hd; cbn in Hd; intuition.
  - intros Htag d Hd. rewrite Htag in Hshape.
    destruct Hshape as [H|H]; rewrite H in Hd; cbn in Hd; intuition.
Qed.

End PushImageFacts.

(** A run of the theorem: [myapp:latest] pushed under another name. *)
Lemma PushImage_destination_witness :
  let o := run (PushImage (Demo.runtime Demo.knobs) "myapp:latest"
                  "quay.io/me/myapp:1" true "" "" "" false "oci" false "")
             Demo.store0 in
  ("quay.io/me/myapp:1" <> "" ->
     forall d, In d (pushes (emitted o)) -> d = "quay.io/me/myapp:1")
  /\ ("quay.io/me/myapp:1" = "" ->
      forall d, In d (pushes (emitted o)) -> d = "myapp:latest")
  /\ (creds_parse (Demo.runtime Demo.knobs) "" ->
      push_format_known "oci" ->
      pushes (emitted o) = ["quay.io/me/myapp:1"]).
Proof.
  apply (PushImage_destination (Demo.runtime Demo.knobs) "myapp:latest"
           "quay.io/me/myapp:1" true "" "" "" false "oci" false ""
           Demo.store0 Demo.alpine).
  reflexivity.
Defined.

(** ** ImagesPrune *)

Section ImagesPruneFacts.
Context {St : Type} (rt : Runtime St).

Lemma ImagesPrune_loop_spec (pruneImages : list Image) :
  forall (pruned : list string) (s : CallState St),
    let o := ImagesPrune_loop rt pruneImages pruned s in
    res o = Return None /\
    Continues (final o) = Continues s /\
    (emitted o =
       removals_ok pruneImages ++
       [EvReply (Continues s)
          (ReplyImagesPrune (pruned ++ map ID pruneImages))]
     \/
     exists pre i err post,
       pruneImages = pre ++ i :: post /\
       emitted o =
         removals_ok pre ++
         [EvRemove i true (Some err);
          EvReply (Continues s) (ReplyErrorOccurred (Error rt err))]).
Proof.
  induction pruneImages as [|i rest IH]; intros pruned s.
  - cbn. rewrite app_nil_r. auto.
  - cbn -[ImagesPrune_loop]. cbn [ImagesPrune_loop].
    unfold bind at 1. cbn -[ImagesPrune_loop].
    destruct (Image_Remove rt i true (store s)) as [[err|] st'] eqn:Hrm;
      cbn -[ImagesPrune_loop].
    + split; [reflexivity|]. split; [reflexivity|]. right.
      exists [], i, err, rest. split; reflexivity.
    + specialize (IH (pruned ++ [ID i]) (mkCallState st' (Continues s))).
      cbn -[ImagesPrune_loop] in IH.
      destruct IH as [Hres [Hcont [Hall|Hfail]]].
      * split; [exact Hres|]. split; [exact Hcont|]. left.
        rewrite Hall, <- app_assoc. reflexivity.
      * split; [exact Hres|]. split; [exact Hcont|]. right.
        destruct Hfail as [pre [j [err [post [Hl Hev]]]]].
        exists (i :: pre), j, err, post. split.
        -- now rewrite Hl.
        -- rewrite Hev. reflexivity.
Qed.

(** C3, as the code has it.  When the prune set can be computed, the
    images are removed one by one, in order and with [force] set; the run
    stops at the first removal that fails.  If none fails the reply lists
    the IDs of all of them; if one fails the one reply is [ErrorOccurred]
    with the text of the error, and no ID goes with it. *)
Theorem ImagesPrune_fail_fast (st : St) (pruneImages : list Image) :
  GetPruneImages rt st = Ok pruneImages ->
  let o := run (ImagesPrune rt) st in
  ending o = Returned None /\
  (emitted o =
     removals_ok pruneImages ++
     [EvReply false (ReplyImagesPrune (map ID pruneImages))]
   \/
   exists pre i err post,
     pruneImages = pre ++ i :: post /\
     removed (emitted o) = map ID pre /\
     emitted o =
       removals_ok pre ++
       [EvRemove i true (Some err);
        EvReply false (ReplyErrorOccurred (Error rt err))]).
Proof.
  intros Hset o.
  assert (Ho : o = ImagesPrune_loop rt pruneImages [] (mkCallState st false)).
  { subst o. unfold run, ImagesPrune. unfold bind at 1.
    cbn -[ImagesPrune_loop]. rewrite Hset.
    destruct (ImagesPrune_loop rt pruneImages [] (mkCallState st false));
      reflexivity. }
  clearbody o. subst o.
  destruct (ImagesPrune_loop_spec pruneImages [] (mkCallState st false))
    as [Hres [_ Hev]].
  cbn [Continues app] in Hev.
  split; [unfold ending; now rewrite Hres|].
  destruct Hev as [Hall|[pre [i [err [post [Hl Hev]]]]]]; [now left|right].
  exists pre, i, err, post. split; [exact Hl|]. split; [|exact Hev].
  rewrite Hev. clear. unfold removals_ok.
  induction pre as [|p pre IH]; cbn; [reflexivity|]. now rewrite IH.
Qed.

End ImagesPruneFacts.

(** A run of the theorem: two images without containers, the second of
    which cannot be removed. *)
Lemma ImagesPrune_fail_fast_witness :
  let o := run (ImagesPrune (Demo.runtime Demo.scratch_locked)) Demo.store0 in
  ending o = Returned None /\
  (emitted o =
     removals_ok [Demo.busybox; Demo.scratch] ++
     [EvReply false (ReplyImagesPrune (map ID [Demo.busybox; Demo.scratch]))]
   \/
   exists pre i err post,
     [Demo.busybox; Demo.scratch] = pre ++ i :: post /\
     removed (emitted o) = map ID pre /\
     emitted o =
       removals_ok pre ++
       [EvRemove i true (Some err);
        EvReply false
          (ReplyErrorOccurred (Error (Demo.runtime Demo.scratch_locked) err))]).
Proof.
  apply (ImagesPrune_fail_fast (Demo.runtime Demo.scratch_locked) Demo.store0
           [Demo.busybox; Demo.scratch]).
  reflexivity.
Defined.

(** C3 as the claim has it fails.  [def456] is removed, the removal of
    [0a1b2c] fails: the one reply is the error, and it does not carry the ID
    that was removed. *)
Lemma ImagesPrune_error_reply_drops_ids :
  let o := run (ImagesPrune (Demo.runtime Demo.scratch_locked)) Demo.store0 in
  removed (emitted o) = ["def456"%string]
  /\ replies (emitted o) =
       [(false, ReplyErrorOccurred "could not remove image 0a1b2c")]
  /\ (forall c r, In (c, r) (replies (emitted o)) -> reply_pruned r = None).
Proof.
  split; [reflexivity|]. split; [reflexivity|].
  intros c r [H|[]]. now inversion H.
Qed.

(** ** SearchImage *)

Section SearchImageFacts.
Context {St : Type} (rt : Runtime St).

(** With more than one registry configured the loop never leaves early:
    it asks every registry and adds up what the answering ones give. *)
Lemma SearchImage_loop_many (n : nat) (name : string) (limit : Z)
    (regs : list string) :
  (1 < n)%nat ->
  forall (imageResults : list ImageSearch) (s : CallState St),
    let o := SearchImage_loop rt n name limit regs imageResults s in
    emitted o = map EvSearch regs
    /\ res o = Val (imageResults ++ search_results rt name limit regs (store s))
    /\ final o =
         mkCallState (search_store rt name limit regs (store s)) (Continues s).
Proof.
  intros Hn. apply Nat.ltb_lt in Hn.
  induction regs as [|reg rest IH]; intros imageResults s.
  - cbn. rewrite app_nil_r. destruct s; auto.
  - cbn [SearchImage_loop search_results search_store map].
    rewrite Hn. unfold bind at 1. unfold SearchRegistry.
    cbn -[SearchImage_loop search_results search_store].
    destruct (docker_SearchRegistry rt reg name limit (store s))
      as [[results|err] st'] eqn:Hreg;
      cbn -[SearchImage_loop search_results search_store].
    + destruct (IH (imageResults ++ map imageSearch results)
                  (mkCallState st' (Continues s))) as [Hev [Hres Hfin]].
      cbn [store Continues] in *.
      rewrite Hev, Hres, Hfin, <- app_assoc. auto.
    + destruct (IH imageResults (mkCallState st' (Continues s)))
        as [Hev [Hres Hfin]].
      cbn [store Continues] in *.
      rewrite Hev, Hres, Hfin. auto.
Qed.

(** C4.  When the list of registries can be read: with two registries or
    more, every registry is asked, in order, a failing one is skipped, and
    the one reply carries the results of the answering ones, registry after
    registry; with one registry only, its failure is the reply. *)
Theorem SearchImage_partial_failure (name : string) (limit : Z) (st : St)
    (registries : list string) :
  sysreg_GetRegistries rt st = Ok registries ->
  let o := run (SearchImage rt name limit) st in
  ((2 <= length registries)%nat ->
     emitted o =
       map EvSearch registries ++
       [EvReply false
          (ReplySearchImage (search_results rt name limit registries st))]
     /\ ending o = Returned None)
  /\ (forall reg err,
        registries = [reg] ->
        fst (docker_SearchRegistry rt reg name limit st) = Err err ->
        emitted o =
          [EvSearch reg; EvReply false (ReplyErrorOccurred (Error rt err))]
        /\ ending o = Returned None).
Proof.
  intros Hregs o. split.
  - intros Hn. subst o. unfold run, SearchImage.
    destruct (SearchImage_loop_many (length registries) name limit
                registries Hn [] (mkCallState st false)) as [Hev [Hres Hfin]].
    cbn [store Continues app] in *.
    rewrite (bind_val get_store _ _ st) by reflexivity.
    cbn [get_store emitted final res app]. rewrite Hregs.
    rewrite (bind_val (SearchImage_loop rt _ name limit registries [])
               _ _ _ Hres), Hev, Hfin.
    cbn. auto.
  - intros reg err -> Herr. subst o.
    unfold run, SearchImage, SearchImage_loop, SearchRegistry. mstep.
    rewrite Hregs. mstep. rewrite Herr. mstep. auto.
Qed.

End SearchImageFacts.

(** A run of the theorem: three registries, the second of which refuses. *)
Lemma SearchImage_partial_failure_witness :
  let rt := Demo.runtime Demo.knobs in
  let regs := ["docker.io"; "quay.io"; "registry.local"]%string in
  let o := run (SearchImage rt "alpine" 10) Demo.store0 in
  ((2 <= length regs)%nat ->
     emitted o =
       map EvSearch regs ++
       [EvReply false
          (ReplySearchImage (search_results rt "alpine" 10 regs Demo.store0))]
     /\ ending o = Returned None)
  /\ (forall reg err,
        regs = [reg] ->
        fst (docker_SearchRegistry rt reg "alpine" 10 Demo.store0) = Err err ->
        emitted o =
          [EvSearch reg; EvReply false (ReplyErrorOccurred (Error rt err))]
        /\ ending o = Returned None).
Proof.
  apply (SearchImage_partial_failure (Demo.runtime Demo.knobs) "alpine" 10
           Demo.store0 ["docker.io"; "quay.io"; "registry.local"]%string).
  reflexivity.
Defined.

(** The two cases of the theorem on the demo registries: one of three fails
    and the other two are reported; the only one fails and the call fails. *)
Example SearchImage_three_registries :
  replies (emitted (run (SearchImage (Demo.runtime Demo.knobs) "alpine" 10)
                      Demo.store0))
  = [(false,
      ReplySearchImage
        [imageSearch (Demo.result_of "docker.io/library/alpine" 5);
         imageSearch (Demo.result_of "registry.local/alpine" 1)])].
Proof. reflexivity. Qed.

Example SearchImage_single_registry :
  replies (emitted (run (SearchImage (Demo.runtime Demo.one_registry)
                           "alpine" 10) Demo.store0))
  = [(false, ReplyErrorOccurred "unauthorized")].
Proof. reflexivity. Qed.

(** ** PullImage *)

Section PullImageFacts.
Context {St : Type} (rt : Runtime St).

(** C5, as the code has it.  The scheme that sends [PullImage] to the
    local archive is the name of the docker-archive transport followed by
    the separator.  For a name that begins with it no registry pull is
    attempted, whatever else happens; and when the credentials parse, the
    name parses as a reference and the archive loads, the archive is the
    only thing read and the one reply carries the ID of the first image
    loaded from it. *)
Theorem PullImage_archive_transport (name certDir creds signaturePolicy : string)
    (tlsVerify : bool) (st : St) :
  HasPrefix name (dockerarchive_Transport_Name rt ++ ":")%string = true ->
  let o := run (PullImage rt name certDir creds signaturePolicy tlsVerify) st in
  pulls (emitted o) = []
  /\ (forall srcRef img rest,
        creds_parse rt creds ->
        alltransports_ParseImageName rt name = Ok srcRef ->
        fst (LoadFromArchiveReference rt srcRef signaturePolicy st)
          = Ok (img :: rest) ->
        emitted o = [EvLoadArchive srcRef; EvReply false (ReplyPullImage (ID img))]
        /\ ending o = Returned None
        /\ store (final o)
           = snd (LoadFromArchiveReference rt srcRef signaturePolicy st)).
Proof.
  intros Hpre o. subst o. unfold run, PullImage, LoadFromArchive, New.
  split.
  - destruct (creds =? "")%string; mstep.
    2: destruct (util_ParseRegistryCreds rt creds); mstep; [|reflexivity].
    all: rewrite Hpre;
      destruct (alltransports_ParseImageName rt name) as [srcRef|e]; mstep;
      [|reflexivity];
      destruct (LoadFromArchiveReference rt srcRef signaturePolicy st)
        as [[[|img rest]|e] st']; mstep; reflexivity.
  - intros srcRef img rest Hcreds Hparse Hload.
    assert (Hc : exists c,
      (if (creds =? "")%string then ret None
       else match util_ParseRegistryCreds rt creds with
            | Err err => return_ (Some err)
            | Ok c => ret (Some c)
            end) = (ret c : M St (option DockerAuthConfig))).
    { destruct Hcreds as [->|[c Hc]]; cbn; [now eexists|].
      rewrite Hc. destruct (creds =? "")%string; now eexists. }
    destruct Hc as [c ->]. mstep. rewrite Hpre, Hparse. mstep.
    rewrite Hload. mstep. auto.
Qed.

(** The separator belongs to the scheme: a name without the scheme, the
    bare transport name for one, goes to the registry pull and not to the
    archive. *)
Lemma PullImage_other_names (name certDir creds signaturePolicy : string)
    (tlsVerify : bool) (st : St) :
  HasPrefix name (dockerarchive_Transport_Name rt ++ ":")%string = false ->
  creds_parse rt creds ->
  let o := run (PullImage rt name certDir creds signaturePolicy tlsVerify) st in
  pulls (emitted o) = [name] /\ loads (emitted o) = [].
Proof.
  intros Hpre Hcreds o. subst o.
  unfold run, PullImage, LoadFromArchive, New.
  assert (Hc : exists c,
    (if (creds =? "")%string then ret None
     else match util_ParseRegistryCreds rt creds with
          | Err err => return_ (Some err)
          | Ok c => ret (Some c)
          end) = (ret c : M St (option DockerAuthConfig))).
  { destruct Hcreds as [->|[c Hc]]; cbn; [now eexists|].
    rewrite Hc. destruct (creds =? "")%string; now eexists. }
  destruct Hc as [c ->]. mstep. rewrite Hpre. mstep.
  match goal with
  | |- context [ImageRuntime_New ?r ?n ?p ?o ?s ?x] =>
      destruct (ImageRuntime_New r n p o s x) as [[i|e] st']
  end; mstep; auto.
Qed.

End PullImageFacts.

(** A run of the theorem: an archive named with the docker-archive scheme. *)
Lemma PullImage_archive_transport_witness :
  let rt := Demo.runtime Demo.knobs in
  let o := run (PullImage rt "docker-archive:/tmp/x.tar" "" "" "" true)
             Demo.store0 in
  pulls (emitted o) = []
  /\ (forall srcRef img rest,
        creds_parse rt "" ->
        alltransports_ParseImageName rt "docker-archive:/tmp/x.tar" = Ok srcRef ->
        fst (LoadFromArchiveReference rt srcRef "" Demo.store0)
          = Ok (img :: rest) ->
        emitted o = [EvLoadArchive srcRef; EvReply false (ReplyPullImage (ID img))]
        /\ ending o = Returned None
        /\ store (final o) = snd (LoadFromArchiveReference rt srcRef "" Demo.store0)).
Proof.
  apply (PullImage_archive_transport (Demo.runtime Demo.knobs)
           "docker-archive:/tmp/x.tar" "" "" "" true Demo.store0).
  reflexivity.
Defined.

Example PullImage_docker_archive :
  emitted (run (PullImage (Demo.runtime Demo.knobs)
                  "docker-archive:/tmp/x.tar" "" "" "" true) Demo.store0)
  = [EvLoadArchive (mkImageReference "docker-archive:/tmp/x.tar");
     EvReply false (ReplyPullImage "7a2")].
Proof. reflexivity. Qed.

(** C5 as the claim has it fails.  With the transport named as
    containers/image names it, [docker-archive], the name
    [archive:/tmp/x.tar] does not begin with the scheme: no archive is
    loaded and the name is handed to the registry pull. *)
Lemma PullImage_archive_prefix_goes_to_registry :
  let o := run (PullImage (Demo.runtime Demo.knobs) "archive:/tmp/x.tar"
                  "" "" "" true) Demo.store0 in
  dockerarchive_Transport_Name (Demo.runtime Demo.knobs) = "docker-archive"%string
  /\ String.prefix "archive:" "archive:/tmp/x.tar" = true
  /\ loads (emitted o) = []
  /\ pulls (emitted o) = ["archive:/tmp/x.tar"%string].
Proof. repeat split. Qed.

(** ** BuildImage: the polling loop *)

Section PollFacts.
Context {St : Type} (rt : Runtime St).

Lemma newlines_app (a b : string) :
  newlines (a ++ b)%string = newlines a + newlines b.
Proof.
  induction a as [|c a IH]; [reflexivity|].
  cbn. destruct (c =? newline)%char; cbn; now rewrite IH.
Qed.

Lemma split_delim_some (buf line rest : string) :
  split_delim newline buf = Some (line, rest) ->
  newlines buf = Datatypes.S (newlines rest).
Proof.
  revert line rest. induction buf as [|c buf IH]; intros line rest; cbn.
  - discriminate.
  - destruct (c =? newline)%char.
    + intros H. now inversion H.
    + destruct (split_delim newline buf) as [[l r]|]; [|discriminate].
      intros H. inversion H; subst. now apply (IH l).
Qed.

Lemma split_delim_none (buf : string) :
  split_delim newline buf = None -> newlines buf = 0.
Proof.
  induction buf as [|c buf IH]; cbn; [reflexivity|].
  destruct (c =? newline)%char; [discriminate|].
  destruct (split_delim newline buf) as [[l r]|]; [discriminate|].
  intros _. now apply IH.
Qed.

(** The loop with enough fuel.  It ends when the build has ended: with the
    lines of the last batch when the build succeeded, with the handler's
    return after the error reply when it failed.  It starts no build, leaves
    [Continues] alone, and the store is the one the build left.  The lines
    in the replies it sent, then the last batch, are the lines it had at the
    start and then read, in order; and without [wantsMore] it sends no reply
    but the error. *)
Lemma BuildImage_poll_spec (wantsMore : bool) (c : BuildRun St) :
  forall (fuel : nat) (buf : string) (pending log : list string)
         (s : CallState St),
    poll_measure buf pending < fuel ->
    let o := BuildImage_poll rt fuel wantsMore c buf pending log s in
    final o = mkCallState (store_after c) (Continues s)
    /\ builds (emitted o) = []
    /\ (exists batch,
          res o = match build_err c with
                  | Some _ => Return None
                  | None => Val (Some batch)
                  end
          /\ (build_err c = None ->
              reply_logs (emitted o) ++ batch = log ++ lines (emitted o)))
    /\ (wantsMore = false ->
        replies (emitted o) =
          match build_err c with
          | Some err => [(Continues s, ReplyErrorOccurred (Error rt err))]
          | None => []
          end)
    /\ (forall k r, In (k, r) (replies (emitted o)) -> k = Continues s).
Proof.
  assert (Hready : forall log (s : CallState St),
    let o := (put_store (store_after c) ;;
              match build_err c with
              | Some err => return_reply (ReplyErrorOccurred (Error rt err))
              | None => ret (Some log)
              end) s in
    final o = mkCallState (store_after c) (Continues s)
    /\ builds (emitted o) = []
    /\ (exists batch,
          res o = match build_err c with
                  | Some _ => Return None
                  | None => Val (Some batch)
                  end
          /\ (build_err c = None ->
              reply_logs (emitted o) ++ batch = log ++ lines (emitted o)))
    /\ (wantsMore = false ->
        replies (emitted o) =
          match build_err c with
          | Some err => [(Continues s, ReplyErrorOccurred (Error rt err))]
          | None => []
          end)
    /\ (forall k r, In (k, r) (replies (emitted o)) -> k = Continues s)).
  { intros log s. mstep. destruct (build_err c) as [err|]; mstep; cbn.
    - repeat split; try reflexivity.
      + exists log. split; [reflexivity|discriminate].
      + intros k r [H|[]]. now inversion H.
    - repeat split; try reflexivity.
      + exists log. split; [reflexivity|]. now rewrite app_nil_r.
      + intros k r []. }
  induction fuel as [|fuel IH]; intros buf pending log s Hfuel; [lia|].
  cbn [BuildImage_poll].
  destruct (deliver buf pending) as [buf1 pending1] eqn:Hd1.
  assert (Hm1 : poll_measure buf1 pending1 <= poll_measure buf pending
                /\ (pending1 <> [] ->
                    poll_measure buf1 pending1 + 2 <= poll_measure buf pending)).
  { unfold poll_measure. destruct pending as [|w rest]; cbn in Hd1;
      inversion Hd1; subst; cbn [length pending_newlines].
    - split; [lia|]. congruence.
    - rewrite newlines_app. split; lia. }
  unfold ReadString.
  destruct (split_delim newline buf1) as [[line buf2]|] eqn:Hsplit;
    cbn [negb].
  - (* a line is there *)
    apply split_delim_some in Hsplit.
    assert (Hlt : poll_measure buf2 pending1 < fuel).
    { unfold poll_measure in *. lia. }
    specialize (IH buf2 pending1 (log ++ [line]) s Hlt).
    destruct IH as [Hfin [Hb [[batch [Hres Hlog]] [Hrep Hk]]]].
    rewrite (bind_val (emit (EvLine line)) _ s tt) by reflexivity.
    cbn [emit emitted final res app].
    repeat split; try assumption.
    exists batch. split; [exact Hres|].
    intros Hok. cbn [reply_logs lines]. rewrite (Hlog Hok), <- app_assoc.
    reflexivity.
  - (* nothing but an unfinished line: it is read and dropped *)
    apply split_delim_none in Hsplit.
    destruct (deliver "" pending1) as [buf3 pending3] eqn:Hd3.
    destruct pending3 as [|w3 rest3].
    + apply Hready.
    + assert (Hlt : poll_measure buf3 (w3 :: rest3) < fuel).
      { destruct pending1 as [|w1 rest1]; cbn in Hd3; inversion Hd3; subst.
        destruct Hm1 as [_ Hm1]. specialize (Hm1 ltac:(discriminate)).
        unfold poll_measure in *. cbn [length pending_newlines] in *.
        cbn [newlines] in *. lia. }
      destruct wantsMore; cbn [negb].
      * specialize (IH buf3 (w3 :: rest3) [] s Hlt).
        destruct IH as [Hfin [Hb [[batch [Hres Hlog]] [Hrep Hk]]]].
        rewrite (bind_val (reply (ReplyBuildImage {| Logs := log; Id := "" |}))
                   _ s tt) by reflexivity.
        cbn [reply emitted final res app].
        repeat split; try assumption.
        -- exists batch. split; [exact Hres|].
           intros Hok. specialize (Hlog Hok). cbn [reply_logs lines Logs].
           cbn [app] in Hlog. rewrite <- app_assoc, Hlog. reflexivity.
        -- discriminate.
        -- intros k r [H|H]; [now inversion H|now apply (Hk k r)].
      * specialize (IH buf3 (w3 :: rest3) log s Hlt).
        destruct IH as [Hfin [Hb [[batch [Hres Hlog]] [Hrep Hk]]]].
        rewrite (bind_val (emit EvSleep) _ s tt) by reflexivity.
        cbn [emit emitted final res app].
        repeat split; try assumption.
        exists batch. split; [exact Hres|]. exact Hlog.
Qed.

End PollFacts.

(** ** BuildImage: what is checked before the build starts *)

Section BuildImageFacts.
Context {St : Type} (rt : Runtime St).

(** The checks send at most the one error reply, start nothing and leave
    the state alone.  They end the handler with the path error when the
    first local Dockerfile cannot be resolved; otherwise with the reply
    [unrecognized image type] when the format is not a recognized one. *)
Lemma BuildImage_options_spec (config : BuildInfo) (s : CallState St) :
  let o := BuildImage_options rt config s in
  final o = s /\
  match BuildImage_contextDir rt (Dockerfile config) with
  | Err e => emitted o = [] /\ res o = Return (Some e)
  | Ok (contextDir, dockerfiles) =>
      if recognized_format (Image_format config) then
        (exists reason,
            emitted o = [EvReply (Continues s) (ReplyErrorOccurred reason)]
            /\ res o = Return None)
        \/ (exists options,
              emitted o = [] /\ res o = Val (options, dockerfiles)
              /\ imagebuildah.NamespaceOptions options = [hostNetwork]
              /\ imagebuildah.AdditionalTags options = Tags config)
      else
        emitted o =
          [EvReply (Continues s)
             (ReplyErrorOccurred
                ("unrecognized image type " ++ Quote rt (Image_format config))%string)]
        /\ res o = Return None
  end.
Proof.
  unfold BuildImage_options, recognized_format, HasPrefix.
  destruct (BuildImage_contextDir rt (Dockerfile config))
    as [[contextDir dockerfiles]|e]; mstep; [|auto].
  destruct (Image_format config =? "")%string eqn:Hempty; cbn [orb].
  - cbn [String.prefix]. mstep.
    destruct (Memory config =? "")%string; mstep;
      [|destruct (units_RAMInBytes rt (Memory config)); mstep;
        [|split; [reflexivity|left; eexists; split; reflexivity]]].
    all: destruct (Memory_swap config =? "")%string; mstep;
      [|destruct (units_RAMInBytes rt (Memory_swap config)); mstep;
        [|split; [reflexivity|left; eexists; split; reflexivity]]].
    all: split; [reflexivity|right; eexists; repeat split; reflexivity].
  - destruct (String.prefix "oci" (Image_format config)); cbn [orb]; mstep.
    + destruct (Memory config =? "")%string; mstep;
        [|destruct (units_RAMInBytes rt (Memory config)); mstep;
          [|split; [reflexivity|left; eexists; split; reflexivity]]].
      all: destruct (Memory_swap config =? "")%string; mstep;
        [|destruct (units_RAMInBytes rt (Memory_swap config)); mstep;
          [|split; [reflexivity|left; eexists; split; reflexivity]]].
      all: split; [reflexivity|right; eexists; repeat split; reflexivity].
    + destruct (String.prefix "docker" (Image_format config)); mstep.
      * destruct (Memory config =? "")%string; mstep;
          [|destruct (units_RAMInBytes rt (Memory config)); mstep;
            [|split; [reflexivity|left; eexists; split; reflexivity]]].
        all: destruct (Memory_swap config =? "")%string; mstep;
          [|destruct (units_RAMInBytes rt (Memory_swap config)); mstep;
            [|split; [reflexivity|left; eexists; split; reflexivity]]].
        all: split; [reflexivity|right; eexists; repeat split; reflexivity].
      * auto.
Qed.

(** When the checks pass they have sent nothing, and the options they give
    put the build in the network namespace of the host and name the tags of
    the request. *)
Lemma BuildImage_options_val (config : BuildInfo) (s : CallState St)
    (options : imagebuildah.BuildOptions) (dockerfiles : list string) :
  res (BuildImage_options rt config s) = Val (options, dockerfiles) ->
  emitted (BuildImage_options rt config s) = []
  /\ final (BuildImage_options rt config s) = s
  /\ imagebuildah.NamespaceOptions options = [hostNetwork]
  /\ imagebuildah.AdditionalTags options = Tags config
  /\ recognized_format (Image_format config) = true
  /\ exists contextDir,
       BuildImage_contextDir rt (Dockerfile config) = Ok (contextDir, dockerfiles).
Proof.
  intros Hres.
  destruct (BuildImage_options_spec config s) as [Hfin Hcases].
  rewrite Hres in Hcases.
  destruct (BuildImage_contextDir rt (Dockerfile config))
    as [[contextDir dfs]|e]; [|destruct Hcases; discriminate].
  destruct (recognized_format (Image_format config));
    [|destruct Hcases; discriminate].
  destruct Hcases as [[reason [_ H]]|[o [Hev [Hval [Hns Htags]]]]];
    [discriminate|].
  inversion Hval; subst. repeat split; try assumption. now exists contextDir.
Qed.

(** When the checks fail the handler ends as they end. *)
Lemma BuildImage_stops_with_checks (wantsMore : bool) (config : BuildInfo)
    (st : St) (e : option error) :
  res (BuildImage_options rt config (mkCallState st false)) = Return e ->
  let o := run (BuildImage rt wantsMore config) st in
  emitted o = emitted (BuildImage_options rt config (mkCallState st false))
  /\ final o = final (BuildImage_options rt config (mkCallState st false))
  /\ ending o = Returned e.
Proof.
  intros Hres. unfold run, BuildImage.
  rewrite (bind_return _ _ _ _ Hres). cbn. auto.
Qed.

(** ** BuildImage: a whole run *)

(** The run of [BuildImage] once the checks have passed: the build is
    started, the loop polls it with the events [polled], and the handler
    ends by what the build reports and by the first tag of the request. *)
Lemma BuildImage_run_spec (wantsMore : bool) (config : BuildInfo) (st : St)
    (options : imagebuildah.BuildOptions) (dockerfiles : list string) :
  res (BuildImage_options rt config (mkCallState st false))
    = Val (options, dockerfiles) ->
  let c := Runtime_Build rt options dockerfiles st in
  let o := run (BuildImage rt wantsMore config) st in
  exists polled batch,
    builds polled = []
    /\ (forall k r, In (k, r) (replies polled) -> k = wantsMore)
    /\ (wantsMore = false ->
        replies polled =
          match build_err c with
          | Some err => [(false, ReplyErrorOccurred (Error rt err))]
          | None => []
          end)
    /\ (build_err c = None -> reply_logs polled ++ batch = lines polled)
    /\ store (final o) = store_after c
    /\ match build_err c with
       | Some err =>
           emitted o = EvBuild options dockerfiles :: polled
           /\ ending o = Returned None
       | None =>
           match Tags config with
           | [] =>
               emitted o = EvBuild options dockerfiles :: polled
               /\ ending o = Panicked "index out of range"
           | tag0 :: _ =>
               emitted o =
                 EvBuild options dockerfiles :: polled ++
                 [EvReply false
                    match NewFromLocal rt tag0 (store_after c) with
                    | Ok newImage =>
                        ReplyBuildImage {| Logs := batch; Id := ID newImage |}
                    | Err err => ReplyErrorOccurred (Error rt err)
                    end]
               /\ ending o = Returned None
           end
       end.
Proof.
  intros Hres c o.
  destruct (BuildImage_options_val config (mkCallState st false) _ _ Hres)
    as [Hev [Hfin _]].
  set (s1 := mkCallState st wantsMore).
  set (p := BuildImage_poll rt (poll_fuel "" (writes c)) wantsMore c ""
              (writes c) [] s1).
  assert (Hfuel : poll_measure "" (writes c) < poll_fuel "" (writes c)).
  { unfold poll_measure, poll_fuel. lia. }
  destruct (BuildImage_poll_spec rt wantsMore c _ _ _ [] s1 Hfuel)
    as [Hpfin [Hpb [[batch [Hpres Hplog]] [Hprep Hpk]]]].
  fold p in Hpfin, Hpb, Hpres, Hplog, Hprep, Hpk.
  cbn [Continues s1] in Hpfin, Hprep, Hpk.
  exists (emitted p), batch.
  assert (Ho : o =
    bind (ret tt)
      (fun _ => bind (emit (EvBuild options dockerfiles))
         (fun _ => bind (fun _ => p)
            (fun log =>
               match log with
               | None => panic "poll: out of fuel"
               | Some log =>
                   set_Continues false ;;
                   match Tags config with
                   | [] => panic "index out of range"
                   | tag0 :: _ =>
                       st <- get_store ;;
                       match NewFromLocal rt tag0 st with
                       | Err err =>
                           return_reply (ReplyErrorOccurred (Error rt err))
                       | Ok newImage =>
                           return_reply
                             (ReplyBuildImage
                                {| Logs := log; Id := ID newImage |})
                       end
                   end
               end))) s1).
  { subst o. unfold run, BuildImage.
    rewrite (bind_val _ _ _ _ Hres), Hev, Hfin. cbn [app fst snd].
    unfold build. subst p s1 c. destruct wantsMore; reflexivity. }
  clearbody o. subst o.
  split; [exact Hpb|]. split; [exact Hpk|].
  split; [intros Hw; rewrite (Hprep Hw), Hw; reflexivity|].
  split; [intros Hok; now rewrite (Hplog Hok)|].
  mstep. rewrite Hpres.
  destruct (build_err c) as [err|]; mstep.
  - rewrite Hpfin. auto.
  - rewrite Hpfin. mstep.
    destruct (Tags config) as [|tag0 rest]; mstep.
    + rewrite app_nil_r. auto.
    + destruct (NewFromLocal rt tag0 (store_after c)); mstep; auto.
Qed.

Lemma In_builds (options : imagebuildah.BuildOptions) (dockerfiles : list string)
    (evs : list Event) :
  In (EvBuild options dockerfiles) evs -> In options (builds evs).
Proof.
  induction evs as [|e evs IH]; [intros []|].
  intros [->|Hin]; [now left|].
  destruct e; cbn; auto.
Qed.

Lemma reply_logs_no_reply (evs : list Event) :
  replies evs = [] -> reply_logs evs = [].
Proof.
  induction evs as [|e evs IH]; [reflexivity|].
  destruct e; cbn; auto. discriminate.
Qed.

(** C1, as the code has it.  A request whose output format is not a
    recognized one never gets to the build: none is started, no log line is
    read or sent, and the store is as it was.  The handler ends at once, with
    the reply [ErrorOccurred: unrecognized image type] when the paths of the
    Dockerfiles resolve, and with the path error, and no reply, when the
    resolution, which comes first, fails. *)
Theorem BuildImage_unrecognized_format (wantsMore : bool) (config : BuildInfo)
    (st : St) :
  recognized_format (Image_format config) = false ->
  let o := run (BuildImage rt wantsMore config) st in
  builds (emitted o) = []
  /\ lines (emitted o) = []
  /\ reply_logs (emitted o) = []
  /\ store (final o) = st
  /\ match BuildImage_contextDir rt (Dockerfile config) with
     | Ok _ =>
         emitted o =
           [EvReply false
              (ReplyErrorOccurred
                 ("unrecognized image type " ++
                  Quote rt (Image_format config))%string)]
         /\ ending o = Returned None
     | Err e => emitted o = [] /\ ending o = Returned (Some e)
     end.
Proof.
  intros Hfmt o.
  destruct (BuildImage_options_spec config (mkCallState st false))
    as [Hfin Hcases].
  rewrite Hfmt in Hcases.
  destruct (BuildImage_contextDir rt (Dockerfile config))
    as [[contextDir dockerfiles]|e];
    destruct Hcases as [Hev Hres];
    destruct (BuildImage_stops_with_checks wantsMore config st _ Hres)
      as [Hev' [Hfin' Hend]];
    fold o in Hev', Hfin', Hend;
    rewrite Hev', Hev, Hfin', Hfin; cbn;
    repeat split; assumption || reflexivity.
Qed.

(** C8.  Whatever the request, a build that [BuildImage] starts has the
    network namespace of the host as its one namespace option: the request
    has nothing that changes it. *)
Theorem BuildImage_host_network (wantsMore : bool) (config : BuildInfo)
    (st : St) (options : imagebuildah.BuildOptions)
    (dockerfiles : list string) :
  In (EvBuild options dockerfiles)
     (emitted (run (BuildImage rt wantsMore config) st)) ->
  imagebuildah.NamespaceOptions options =
    [{| buildah.Name := specs.NetworkNamespace; buildah.Host := true |}].
Proof.
  intros Hin.
  destruct (res (BuildImage_options rt config (mkCallState st false)))
    as [[options' dfs]|e|msg] eqn:Hres.
  - destruct (BuildImage_options_val config (mkCallState st false) _ _ Hres)
      as [_ [_ [Hns _]]].
    destruct (BuildImage_run_spec wantsMore config st _ _ Hres)
      as [polled [batch [Hb [_ [_ [_ [_ Hshape]]]]]]].
    assert (Hev : exists tail,
      emitted (run (BuildImage rt wantsMore config) st)
        = EvBuild options' dfs :: polled ++ tail /\ builds tail = []).
    { destruct (build_err (Runtime_Build rt options' dfs st)).
      - destruct Hshape as [-> _]. exists []. now rewrite app_nil_r.
      - destruct (Tags config).
        + destruct Hshape as [-> _]. exists []. now rewrite app_nil_r.
        + destruct Hshape as [-> _]. eexists. split; reflexivity. }
    destruct Hev as [tail [Hev Htail]]. rewrite Hev in Hin.
    apply In_builds in Hin. cbn [builds] in Hin.
    rewrite builds_app, Hb, Htail in Hin.
    destruct Hin as [<-|[]]. exact Hns.
  - destruct (BuildImage_stops_with_checks wantsMore config st _ Hres)
      as [Hev _].
    rewrite Hev in Hin.
    destruct (BuildImage_options_spec config (mkCallState st false))
      as [_ Hcases].
    rewrite Hres in Hcases.
    destruct (BuildImage_contextDir rt (Dockerfile config)) as [[cd dfs]|e'].
    + destruct (recognized_format (Image_format config)).
      * destruct Hcases as [[reason [H _]]|[o [_ [H _]]]]; [|discriminate].
        rewrite H in Hin. destruct Hin as [Hin|[]]. discriminate.
      * destruct Hcases as [H _].
        rewrite H in Hin. destruct Hin as [Hin|[]]. discriminate.
    + destruct Hcases as [H _]. rewrite H in Hin. destruct Hin.
  - destruct (BuildImage_options_spec config (mkCallState st false))
      as [_ Hcases].
    rewrite Hres in Hcases.
    destruct (BuildImage_contextDir rt (Dockerfile config)) as [[cd dfs]|e'].
    + destruct (recognized_format (Image_format config)).
      * destruct Hcases as [[reason [_ H]]|[o [_ [H _]]]]; discriminate.
      * destruct Hcases as [_ H]. discriminate.
    + destruct Hcases as [_ H]. discriminate.
Qed.

(** C9.  After the checks have passed and the build has reported success,
    the handler takes the first tag of the request without asking whether
    there is one.  With no tag the handler panics on the index and the call
    never gets its final reply; with a tag the handler returns, and its last
    event is the final reply, made from the lookup of that first tag. *)
Theorem BuildImage_first_tag_unguarded (wantsMore : bool) (config : BuildInfo)
    (st : St) (options : imagebuildah.BuildOptions)
    (dockerfiles : list string) :
  res (BuildImage_options rt config (mkCallState st false))
    = Val (options, dockerfiles) ->
  build_err (Runtime_Build rt options dockerfiles st) = None ->
  let o := run (BuildImage rt wantsMore config) st in
  (Tags config = [] ->
     ending o = Panicked "index out of range"
     /\ forall r, ~ In (false, r) (replies (emitted o)))
  /\ (forall tag0 rest,
        Tags config = tag0 :: rest ->
        ending o = Returned None
        /\ exists evs batch,
             emitted o =
               evs ++
               [EvReply false
                  match NewFromLocal rt tag0 (store (final o)) with
                  | Ok newImage =>
                      ReplyBuildImage {| Logs := batch; Id := ID newImage |}
                  | Err err => ReplyErrorOccurred (Error rt err)
                  end]).
Proof.
  intros Hres Hok o.
  destruct (BuildImage_run_spec wantsMore config st _ _ Hres)
    as [polled [batch [Hb [Hk [Hrep [_ [Hstore Hshape]]]]]]].
  fold o in Hstore, Hshape. rewrite Hok in Hshape, Hrep.
  split.
  - intros Htags. rewrite Htags in Hshape. destruct Hshape as [Hev Hend].
    split; [exact Hend|].
    intros r Hin. rewrite Hev in Hin. cbn [replies] in Hin.
    destruct wantsMore.
    + apply Hk in Hin. discriminate.
    + rewrite (Hrep eq_refl) in Hin. destruct Hin.
  - intros tag0 rest Htags. rewrite Htags in Hshape.
    destruct Hshape as [Hev Hend]. split; [exact Hend|].
    exists (EvBuild options dockerfiles :: polled), batch.
    rewrite Hev, Hstore. reflexivity.
Qed.

(** The ways a call without [wantsMore] can go. *)
Lemma BuildImage_plain_cases (config : BuildInfo) (st : St) :
  let o := run (BuildImage rt false config) st in
  (exists e,
      BuildImage_contextDir rt (Dockerfile config) = Err e
      /\ replies (emitted o) = [] /\ ending o = Returned (Some e))
  \/ (exists reason,
        replies (emitted o) = [(false, ReplyErrorOccurred reason)]
        /\ ending o = Returned None)
  \/ (exists options dockerfiles,
        res (BuildImage_options rt config (mkCallState st false))
          = Val (options, dockerfiles)
        /\ build_err (Runtime_Build rt options dockerfiles st) = None
        /\ Tags config = []
        /\ replies (emitted o) = []
        /\ ending o = Panicked "index out of range")
  \/ (exists options dockerfiles tag0 rest newImage,
        res (BuildImage_options rt config (mkCallState st false))
          = Val (options, dockerfiles)
        /\ build_err (Runtime_Build rt options dockerfiles st) = None
        /\ Tags config = tag0 :: rest
        /\ NewFromLocal rt tag0 (store (final o)) = Ok newImage
        /\ store (final o) = store_after (Runtime_Build rt options dockerfiles st)
        /\ replies (emitted o) =
             [(false,
               ReplyBuildImage
                 {| Logs := lines (emitted o); Id := ID newImage |})]
        /\ ending o = Returned None).
Proof.
  intros o.
  destruct (res (BuildImage_options rt config (mkCallState st false)))
    as [[options dfs]|e|msg] eqn:Hres.
  - (* the checks pass *)
    destruct (BuildImage_run_spec false config st _ _ Hres)
      as [polled [batch [Hb [Hk [Hrep [Hlog [Hstore Hshape]]]]]]].
    fold o in Hstore, Hshape. specialize (Hrep eq_refl).
    destruct (build_err (Runtime_Build rt options dfs st)) as [err|] eqn:Hbuild.
    + right; left. destruct Hshape as [Hev Hend].
      exists (Error rt err). rewrite Hev. cbn [replies]. now rewrite Hrep.
    + specialize (Hlog eq_refl).
      rewrite (reply_logs_no_reply _ Hrep) in Hlog. cbn [app] in Hlog.
      destruct (Tags config) as [|tag0 rest] eqn:Htags;
        destruct Hshape as [Hev Hend].
      * right; right; left. exists options, dfs.
        rewrite Hev. cbn [replies]. rewrite Hrep. auto.
      * rewrite <- Hstore in Hev.
        destruct (NewFromLocal rt tag0 (store (final o)))
          as [newImage|err] eqn:Hlookup.
        -- right; right; right.
           exists options, dfs, tag0, rest, newImage.
           rewrite Hev. cbn [replies lines].
           rewrite replies_app, lines_app, Hrep, Hlog. cbn.
           rewrite app_nil_r. repeat split; assumption || reflexivity.
        -- right; left. exists (Error rt err).
           rewrite Hev. cbn [replies]. rewrite replies_app, Hrep.
           cbn. auto.
  - (* the checks end the handler *)
    destruct (BuildImage_stops_with_checks false config st _ Hres)
      as [Hev [_ Hend]].
    fold o in Hev, Hend.
    destruct (BuildImage_options_spec config (mkCallState st false))
      as [_ Hcases].
    rewrite Hres in Hcases.
    destruct (BuildImage_contextDir rt (Dockerfile config)) as [[cd dfs]|e'].
    + right; left.
      destruct (recognized_format (Image_format config)).
      * destruct Hcases as [[reason [H H']]|[x [_ [H _]]]]; [|discriminate].
        inversion H'; subst. exists reason. now rewrite Hev, H.
      * destruct Hcases as [H H']. inversion H'; subst.
        eexists. rewrite Hev, H. split; [reflexivity|assumption].
    + left. destruct Hcases as [H H']. inversion H'; subst.
      exists e'. rewrite Hev, H. auto.
  - exfalso.
    destruct (BuildImage_options_spec config (mkCallState st false))
      as [_ Hcases].
    rewrite Hres in Hcases.
    destruct (BuildImage_contextDir rt (Dockerfile config)) as [[cd dfs]|e'].
    + destruct (recognized_format (Image_format config)).
      * destruct Hcases as [[reason [_ H]]|[x [_ [H _]]]]; discriminate.
      * destruct Hcases as [_ H]. discriminate.
    + destruct Hcases as [_ H]. discriminate.
Qed.

(** C2, as the code has it.  A call without [wantsMore] gets at most one
    reply, and none that is framed as one of several.  When the paths of the
    Dockerfiles resolve and the request names a tag, it gets exactly one, and
    the handler returns: a fault, or the reply that carries every line the
    loop has read and the ID of the image found under the first tag; the
    latter whenever the checks pass, the build succeeds and the image is
    found.  And in any call, a reply framed as one of several means that the
    caller asked for more. *)
Theorem BuildImage_single_reply (config : BuildInfo) (st : St) :
  let o := run (BuildImage rt false config) st in
  length (replies (emitted o)) <= 1
  /\ (forall k r, In (k, r) (replies (emitted o)) -> k = false)
  /\ (forall r tag0 rest,
        BuildImage_contextDir rt (Dockerfile config) = Ok r ->
        Tags config = tag0 :: rest ->
        ending o = Returned None
        /\ exists reply,
             replies (emitted o) = [(false, reply)]
             /\ (is_fault reply = true
                 \/ exists newImage,
                      NewFromLocal rt tag0 (store (final o)) = Ok newImage
                      /\ reply =
                           ReplyBuildImage
                             {| Logs := lines (emitted o);
                                Id := ID newImage |}))
  /\ (forall options dockerfiles tag0 rest newImage,
        res (BuildImage_options rt config (mkCallState st false))
          = Val (options, dockerfiles) ->
        build_err (Runtime_Build rt options dockerfiles st) = None ->
        Tags config = tag0 :: rest ->
        NewFromLocal rt tag0
          (store_after (Runtime_Build rt options dockerfiles st))
          = Ok newImage ->
        replies (emitted o) =
          [(false,
            ReplyBuildImage {| Logs := lines (emitted o); Id := ID newImage |})])
  /\ (forall wantsMore r,
        In (true, r)
           (replies (emitted (run (BuildImage rt wantsMore config) st))) ->
        wantsMore = true).
Proof.
  intros o.
  assert (Hflags : forall k r, In (k, r) (replies (emitted o)) -> k = false).
  { intros k r Hin.
    destruct (BuildImage_plain_cases config st)
      as [[e [_ [H _]]]|[[reason [H _]]|[[op [df [_ [_ [_ [H _]]]]]]
         |[op [df [t [rs [img [_ [_ [_ [_ [_ [H _]]]]]]]]]]]]]];
      fold o in H; rewrite H in Hin; cbn in Hin;
      try contradiction; destruct Hin as [Hin|[]]; now inversion Hin. }
  split; [|split; [exact Hflags|split; [|split]]].
  - destruct (BuildImage_plain_cases config st)
      as [[e [_ [H _]]]|[[reason [H _]]|[[op [df [_ [_ [_ [H _]]]]]]
         |[op [df [t [rs [img [_ [_ [_ [_ [_ [H _]]]]]]]]]]]]]];
      fold o in H; rewrite H; cbn; lia.
  - intros r tag0 rest Hctx Htags.
    destruct (BuildImage_plain_cases config st)
      as [[e [H _]]|[[reason [H Hend]]|[[op [df [_ [_ [H _]]]]]
         |[op [df [t [rs [img [_ [_ [Ht [Hl [_ [H Hend]]]]]]]]]]]]]];
      fold o in H; try fold o in Hend.
    + congruence.
    + split; [exact Hend|]. exists (ReplyErrorOccurred reason). auto.
    + congruence.
    + fold o in Hl. split; [exact Hend|]. eexists. split; [exact H|].
      right. exists img. split; [|reflexivity]. congruence.
  - intros options dockerfiles tag0 rest newImage Hres Hok Htags Hlookup.
    destruct (BuildImage_plain_cases config st)
      as [[e [_ [_ Hend]]]|[[reason [H Hend]]|[[op [df [_ [_ [H _]]]]]
         |[op [df [t [rs [img [Hres' [_ [Ht [Hl [Hs [H _]]]]]]]]]]]]]];
      try fold o in H; try fold o in Hend.
    + destruct (BuildImage_run_spec false config st _ _ Hres)
        as [polled [batch [_ [_ [_ [_ [_ Hshape]]]]]]].
      fold o in Hshape. rewrite Hok, Htags in Hshape.
      destruct Hshape as [_ Hend']. congruence.
    + destruct (BuildImage_run_spec false config st _ _ Hres)
        as [polled [batch [_ [_ [Hrep [_ [_ Hshape]]]]]]].
      fold o in Hshape. rewrite Hok, Htags, Hlookup in Hshape.
      rewrite Hok in Hrep. specialize (Hrep eq_refl).
      destruct Hshape as [Hev _]. rewrite Hev in H. cbn [replies] in H.
      rewrite replies_app, Hrep in H. cbn in H. discriminate.
    + congruence.
    + fold o in Hl, Hs. rewrite Hres in Hres'. inversion Hres'; subst.
      rewrite Htags in Ht. inversion Ht; subst.
      rewrite Hs, Hlookup in Hl. inversion Hl; subst. exact H.
  - intros [|] r Hin; [reflexivity|].
    apply Hflags in Hin. discriminate.
Qed.

End BuildImageFacts.

(** *** Runs of the theorems on the demo runtime *)

(** A run of C1's theorem: the format [tar] is refused before anything is
    built. *)
Lemma BuildImage_unrecognized_format_witness :
  let rt := Demo.runtime Demo.knobs in
  let config := Demo.request ["app:1"] "tar" in
  let o := run (BuildImage rt true config) Demo.store0 in
  builds (emitted o) = []
  /\ lines (emitted o) = []
  /\ reply_logs (emitted o) = []
  /\ store (final o) = Demo.store0
  /\ match BuildImage_contextDir rt (Dockerfile config) with
     | Ok _ =>
         emitted o =
           [EvReply false
              (ReplyErrorOccurred
                 ("unrecognized image type " ++
                  Quote rt (Image_format config))%string)]
         /\ ending o = Returned None
     | Err e => emitted o = [] /\ ending o = Returned (Some e)
     end.
Proof.
  apply (BuildImage_unrecognized_format (Demo.runtime Demo.knobs) true
           (Demo.request ["app:1"] "tar") Demo.store0).
  reflexivity.
Defined.

(** C1 as the claim has it fails.  The process has no working directory,
    the Dockerfile is named by a relative path and the format is [tar]: the
    handler returns the path error and sends no reply at all, so the caller
    does not get the fault for the format. *)
Lemma BuildImage_path_error_before_format :
  let o := run (BuildImage (Demo.runtime Demo.no_cwd) false
                  (Demo.request ["app:1"] "tar")) Demo.store0 in
  recognized_format "tar" = false
  /\ replies (emitted o) = []
  /\ ending o =
       Returned
         (Some (withMessage (errorString "getwd: no such file or directory")
                  ("error determining path to file " ++
                   Demo.quote "Dockerfile")%string)).
Proof. repeat split. Qed.

(** C2 as the claim has it fails.  A call without [wantsMore] whose
    Dockerfile path cannot be resolved ends with the returned error: not one
    reply is sent. *)
Lemma BuildImage_plain_call_without_reply :
  let o := run (BuildImage (Demo.runtime Demo.no_cwd) false
                  (Demo.request ["app:1"] "")) Demo.store0 in
  replies (emitted o) = []
  /\ length (replies (emitted o)) <> 1
  /\ exists e, ending o = Returned (Some e).
Proof.
  split; [reflexivity|]. split; [discriminate|]. eexists. reflexivity.
Qed.

(** The demo build without [wantsMore]: one reply, with every line read. *)
Example BuildImage_plain_run :
  replies (emitted (run (BuildImage (Demo.runtime Demo.knobs) false
                           (Demo.request ["app:1"] "")) Demo.store0))
  = [(false,
      ReplyBuildImage
        {| Logs := [("STEP 1: FROM alpine" ++ String newline "")%string;
                    ("ue" ++ String newline "")%string;
                    ("STEP 3: COMMIT" ++ String newline "")%string];
           Id := "f00d" |})].
Proof. reflexivity. Qed.

(** The same build with [wantsMore]: a partial reply, then the final one. *)
Example BuildImage_streamed_run :
  replies (emitted (run (BuildImage (Demo.runtime Demo.knobs) true
                           (Demo.request ["app:1"] "")) Demo.store0))
  = [(true,
      ReplyBuildImage
        {| Logs := [("STEP 1: FROM alpine" ++ String newline "")%string];
           Id := "" |});
     (false,
      ReplyBuildImage
        {| Logs := [("ue" ++ String newline "")%string;
                    ("STEP 3: COMMIT" ++ String newline "")%string];
           Id := "f00d" |})].
Proof. reflexivity. Qed.

(** A run of C8's theorem: the build of the demo request. *)
Lemma BuildImage_host_network_witness :
  exists options,
    In (EvBuild options ["Dockerfile"%string])
       (emitted (run (BuildImage (Demo.runtime Demo.knobs) true
                        (Demo.request ["app:1"] "docker")) Demo.store0))
    /\ imagebuildah.NamespaceOptions options =
         [{| buildah.Name := specs.NetworkNamespace; buildah.Host := true |}].
Proof.
  eexists. split.
  - left. reflexivity.
  - apply (BuildImage_host_network (Demo.runtime Demo.knobs) true
             (Demo.request ["app:1"] "docker") Demo.store0 _
             ["Dockerfile"%string]).
    left. reflexivity.
Defined.

(** A run of C9's theorem: the demo build with no tag requested. *)
Lemma BuildImage_first_tag_unguarded_witness :
  let o := run (BuildImage (Demo.runtime Demo.knobs) false
                  (Demo.request [] "")) Demo.store0 in
  ending o = Panicked "index out of range"
  /\ forall r, ~ In (false, r) (replies (emitted o)).
Proof.
  refine (proj1 (BuildImage_first_tag_unguarded (Demo.runtime Demo.knobs)
                   false (Demo.request [] "") Demo.store0 _ _ _ _) eq_refl);
    reflexivity.
Defined.

(* ================================================================= *)
(** * Further properties *)

(** ** BuildImage: the log *)

Section BuildImageLog.
Context {St : Type} (rt : Runtime St).

Lemma reply_logs_app (evs evs' : list Event) :
  reply_logs (evs ++ evs') = reply_logs evs ++ reply_logs evs'.
Proof.
  induction evs as [|e evs IH]; [reflexivity|].
  destruct e as [k r| | | | | | | |]; cbn; try exact IH.
  destruct r; cbn; try exact IH. now rewrite IH, app_assoc.
Qed.

Lemma split_delim_whole (buf line rest : string) :
  split_delim newline buf = Some (line, rest) ->
  whole_line line /\ buf = (line ++ rest)%string.
Proof.
  revert line rest. induction buf as [|c buf IH]; intros line rest; cbn.
  - discriminate.
  - destruct (c =? newline)%char eqn:Hc.
    + intros H. inversion H; subst. apply Ascii.eqb_eq in Hc. subst c.
      split; [|reflexivity]. exists ""%string. split; reflexivity.
    + destruct (split_delim newline buf) as [[l r]|]; [|discriminate].
      intros H. inversion H; subst.
      destruct (IH l rest eq_refl) as [[body [Hl Hn]] Hbuf].
      split.
      * exists (String c body). split; [cbn; now rewrite Hl|].
        cbn. now rewrite Hc.
      * cbn. now rewrite Hbuf.
Qed.

(** One iteration of the loop, spelled out. *)
Lemma BuildImage_poll_step (fuel : nat) (wantsMore : bool) (c : BuildRun St)
    (buf : string) (pending log : list string) :
  BuildImage_poll rt (Datatypes.S fuel) wantsMore c buf pending log =
  match split_delim newline (fst (deliver buf pending)) with
  | Some (line, buf2) =>
      emit (EvLine line) ;;
      BuildImage_poll rt fuel wantsMore c buf2 (snd (deliver buf pending))
        (log ++ [line])
  | None =>
      match deliver "" (snd (deliver buf pending)) with
      | (_, []) =>
          put_store (store_after c) ;;
          match build_err c with
          | Some err => return_reply (ReplyErrorOccurred (Error rt err))
          | None => ret (Some log)
          end
      | (buf3, w :: rest) =>
          if negb wantsMore then
            emit EvSleep ;;
            BuildImage_poll rt fuel wantsMore c buf3 (w :: rest) log
          else
            reply (ReplyBuildImage {| Logs := log; Id := "" |}) ;;
            BuildImage_poll rt fuel wantsMore c buf3 (w :: rest) []
      end
  end.
Proof.
  cbn [BuildImage_poll]. destruct (deliver buf pending) as [buf1 pending1].
  cbn [fst snd]. unfold ReadString.
  destruct (split_delim newline buf1) as [[line buf2]|]; [reflexivity|].
  cbn [negb]. destruct (deliver "" pending1) as [buf3 [|w rest]]; reflexivity.
Qed.


(** Every line the loop reads is a whole line. *)
Lemma BuildImage_poll_whole_lines (wantsMore : bool) (c : BuildRun St) :
  forall (fuel : nat) (buf : string) (pending log : list string)
         (s : CallState St),
    Forall whole_line
      (lines (emitted (BuildImage_poll rt fuel wantsMore c buf pending log s))).
Proof.
  induction fuel as [|fuel IH]; intros buf pending log s; [constructor|].
  rewrite BuildImage_poll_step.
  destruct (split_delim newline (fst (deliver buf pending)))
    as [[line buf2]|] eqn:Hsplit.
  - mstep. cbn [lines]. constructor; [|apply IH].
    now apply split_delim_whole in Hsplit.
  - destruct (deliver "" (snd (deliver buf pending))) as [buf3 [|w rest]].
    + mstep. destruct (build_err c); constructor.
    + destruct wantsMore; cbn [negb]; mstep; cbn [lines]; apply IH.
Qed.

Lemma deliver_newlines (buf : string) (pending : list string) :
  newlines (fst (deliver buf pending))
  + pending_newlines (snd (deliver buf pending))
  = newlines buf + pending_newlines pending.
Proof.
  destruct pending as [|w rest]; cbn; [reflexivity|].
  rewrite newlines_app. lia.
Qed.

(** The loop reads no more lines than there are line ends in what is
    written. *)
Lemma BuildImage_poll_lines_bound (wantsMore : bool) (c : BuildRun St) :
  forall (fuel : nat) (buf : string) (pending log : list string)
         (s : CallState St),
    length
      (lines (emitted (BuildImage_poll rt fuel wantsMore c buf pending log s)))
    <= newlines buf + pending_newlines pending.
Proof.
  induction fuel as [|fuel IH]; intros buf pending log s; [cbn; lia|].
  rewrite BuildImage_poll_step.
  pose proof (deliver_newlines buf pending) as Hd1.
  destruct (split_delim newline (fst (deliver buf pending)))
    as [[line buf2]|] eqn:Hsplit.
  - apply split_delim_some in Hsplit. mstep. cbn [lines length].
    specialize (IH buf2 (snd (deliver buf pending)) (log ++ [line]) s). lia.
  - apply split_delim_none in Hsplit.
    pose proof (deliver_newlines "" (snd (deliver buf pending))) as Hd3.
    cbn [newlines] in Hd3.
    destruct (deliver "" (snd (deliver buf pending))) as [buf3 [|w rest]]
      eqn:Hdel.
    + mstep. destruct (build_err c); cbn; lia.
    + cbn [fst snd] in Hd3.
      destruct wantsMore; cbn [negb]; mstep; cbn [lines].
      * specialize (IH buf3 (w :: rest) [] s). lia.
      * specialize (IH buf3 (w :: rest) log s). lia.
Qed.

(** When the build fails, the loop's last event is the error reply, and no
    reply before it names an image. *)
Lemma BuildImage_poll_failure (wantsMore : bool) (c : BuildRun St)
    (err : error) :
  build_err c = Some err ->
  forall (fuel : nat) (buf : string) (pending log : list string)
         (s : CallState St),
    poll_measure buf pending < fuel ->
    exists evs,
      emitted (BuildImage_poll rt fuel wantsMore c buf pending log s) =
        evs ++ [EvReply (Continues s) (ReplyErrorOccurred (Error rt err))]
      /\ (forall k br, In (k, ReplyBuildImage br) (replies evs) -> Id br = ""%string).
Proof.
  intros Herr.
  induction fuel as [|fuel IH]; intros buf pending log s Hfuel; [lia|].
  rewrite BuildImage_poll_step.
  pose proof (deliver_newlines buf pending) as Hd1.
  assert (Hlen1 : length (snd (deliver buf pending)) <= length pending).
  { destruct pending; cbn; lia. }
  destruct (split_delim newline (fst (deliver buf pending)))
    as [[line buf2]|] eqn:Hsplit.
  - apply split_delim_some in Hsplit.
    destruct (IH buf2 (snd (deliver buf pending)) (log ++ [line]) s)
      as [evs [Hev Hid]].
    { unfold poll_measure in *. lia. }
    exists (EvLine line :: evs). mstep. rewrite Hev. split; [reflexivity|].
    exact Hid.
  - apply split_delim_none in Hsplit.
    pose proof (deliver_newlines "" (snd (deliver buf pending))) as Hd3.
    cbn [newlines] in Hd3.
    assert (Hlen3 : forall w rest,
              snd (deliver "" (snd (deliver buf pending))) = w :: rest ->
              Datatypes.S (length (w :: rest))
              <= length (snd (deliver buf pending))).
    { intros w rest. destruct (snd (deliver buf pending)); cbn;
        intros H; [discriminate|]. rewrite H. cbn. lia. }
    destruct (deliver "" (snd (deliver buf pending))) as [buf3 [|w rest]]
      eqn:Hdel.
    + exists []. mstep. rewrite Herr. mstep. split; [reflexivity|].
      intros k br [].
    + cbn [fst snd] in Hd3. specialize (Hlen3 w rest eq_refl).
      assert (Hlt : poll_measure buf3 (w :: rest) < fuel).
      { unfold poll_measure in *. cbn [length] in *. lia. }
      destruct wantsMore; cbn [negb].
      * destruct (IH buf3 (w :: rest) [] s Hlt) as [evs [Hev Hid]].
        exists (EvReply (Continues s)
                  (ReplyBuildImage {| Logs := log; Id := "" |}) :: evs).
        mstep. rewrite Hev. split; [reflexivity|].
        intros k br [H|H]; [now inversion H|now apply (Hid k br)].
      * destruct (IH buf3 (w :: rest) log s Hlt) as [evs [Hev Hid]].
        exists (EvSleep :: evs). mstep. rewrite Hev. split; [reflexivity|].
        exact Hid.
Qed.

(** The events of a run whose checks have passed, with the loop's own
    events in the open. *)
Lemma BuildImage_run_polled (wantsMore : bool) (config : BuildInfo) (st : St)
    (options : imagebuildah.BuildOptions) (dockerfiles : list string) :
  res (BuildImage_options rt config (mkCallState st false))
    = Val (options, dockerfiles) ->
  let c := Runtime_Build rt options dockerfiles st in
  let p := BuildImage_poll rt (poll_fuel "" (writes c)) wantsMore c ""
             (writes c) [] (mkCallState st wantsMore) in
  let o := run (BuildImage rt wantsMore config) st in
  exists tail,
    emitted o = EvBuild options dockerfiles :: emitted p ++ tail
    /\ ending o =
         match build_err c, Tags config with
         | Some _, _ => Returned None
         | None, [] => Panicked "index out of range"
         | None, _ :: _ => Returned None
         end
    /\ match build_err c, Tags config with
       | None, tag0 :: _ =>
           exists batch,
             res p = Val (Some batch)
             /\ tail =
                  [EvReply false
                     match NewFromLocal rt tag0 (store_after c) with
                     | Ok newImage =>
                         ReplyBuildImage {| Logs := batch; Id := ID newImage |}
                     | Err err => ReplyErrorOccurred (Error rt err)
                     end]
       | _, _ => tail = []
       end.
Proof.
  intros Hres c p o.
  destruct (BuildImage_options_val rt config (mkCallState st false) _ _ Hres)
    as [Hev [Hfin _]].
  assert (Hfuel : poll_measure "" (writes c) < poll_fuel "" (writes c)).
  { unfold poll_measure, poll_fuel. lia. }
  destruct (BuildImage_poll_spec rt wantsMore c _ _ _ []
              (mkCallState st wantsMore) Hfuel)
    as [Hpfin [_ [[batch [Hpres _]] _]]].
  fold p in Hpfin, Hpres. cbn [Continues] in Hpfin.
  assert (Ho : o =
    bind (ret tt)
      (fun _ => bind (emit (EvBuild options dockerfiles))
         (fun _ => bind (fun _ => p)
            (fun log =>
               match log with
               | None => panic "poll: out of fuel"
               | Some log =>
                   set_Continues false ;;
                   match Tags config with
                   | [] => panic "index out of range"
                   | tag0 :: _ =>
                       st <- get_store ;;
                       match NewFromLocal rt tag0 st with
                       | Err err =>
                           return_reply (ReplyErrorOccurred (Error rt err))
                       | Ok newImage =>
                           return_reply
                             (ReplyBuildImage
                                {| Logs := log; Id := ID newImage |})
                       end
                   end
               end))) (mkCallState st wantsMore)).
  { subst o. unfold run, BuildImage.
    rewrite (bind_val _ _ _ _ Hres), Hev, Hfin. cbn [app fst snd].
    unfold build. subst p c. destruct wantsMore; reflexivity. }
  clearbody o. subst o. mstep. rewrite Hpres.
  destruct (build_err c) as [err|]; mstep.
  - exists []. rewrite app_nil_r. auto.
  - rewrite Hpfin. mstep.
    destruct (Tags config) as [|tag0 rest]; mstep.
    + exists []. auto.
    + eexists. split; [reflexivity|].
      destruct (NewFromLocal rt tag0 (store_after c)); mstep;
        (split; [reflexivity|]); exists batch; auto.
Qed.

(** The events of a run whose build succeeded and whose first tag names an
    image: the build, the loop, the final reply. *)
Lemma BuildImage_success_events (wantsMore : bool) (config : BuildInfo)
    (st : St) (options : imagebuildah.BuildOptions)
    (dockerfiles : list string) (tag0 : string) (rest : list string)
    (newImage : Image) :
  res (BuildImage_options rt config (mkCallState st false))
    = Val (options, dockerfiles) ->
  build_err (Runtime_Build rt options dockerfiles st) = None ->
  Tags config = tag0 :: rest ->
  NewFromLocal rt tag0 (store_after (Runtime_Build rt options dockerfiles st))
    = Ok newImage ->
  let c := Runtime_Build rt options dockerfiles st in
  let p := BuildImage_poll rt (poll_fuel "" (writes c)) wantsMore c ""
             (writes c) [] (mkCallState st wantsMore) in
  exists batch,
    emitted (run (BuildImage rt wantsMore config) st) =
      EvBuild options dockerfiles :: emitted p ++
      [EvReply false (ReplyBuildImage {| Logs := batch; Id := ID newImage |})]
    /\ reply_logs (emitted p) ++ batch = lines (emitted p).
Proof.
  intros Hres Hok Htags Hlookup c p.
  destruct (BuildImage_run_polled wantsMore config st _ _ Hres)
    as [tail [Hev [_ Htail]]].
  fold c p in Hev, Htail. fold c in Hok, Hlookup.
  rewrite Hok, Htags, Hlookup in Htail.
  destruct Htail as [batch [Hpres ->]].
  exists batch. split; [exact Hev|].
  assert (Hfuel : poll_measure "" (writes c) < poll_fuel "" (writes c)).
  { unfold poll_measure, poll_fuel. lia. }
  destruct (BuildImage_poll_spec rt wantsMore c _ _ _ []
              (mkCallState st wantsMore) Hfuel)
    as [_ [_ [[batch' [Hpres' Hlog]] _]]].
  fold p in Hpres', Hlog. rewrite Hok in Hpres'.
  rewrite Hpres in Hpres'. inversion Hpres'; subst batch'.
  exact (Hlog Hok).
Qed.

(** X1.  In a build that succeeds and whose first tag names an image, the
    lines that the replies carry, partial replies and final reply taken in
    order, are the lines the loop has read from the output of the build, in
    order: between the reads and the replies no line is lost, repeated or
    moved, with or without [wantsMore]. *)
Theorem BuildImage_replies_carry_every_line (wantsMore : bool)
    (config : BuildInfo) (st : St) (options : imagebuildah.BuildOptions)
    (dockerfiles : list string) (tag0 : string) (rest : list string)
    (newImage : Image) :
  res (BuildImage_options rt config (mkCallState st false))
    = Val (options, dockerfiles) ->
  build_err (Runtime_Build rt options dockerfiles st) = None ->
  Tags config = tag0 :: rest ->
  NewFromLocal rt tag0 (store_after (Runtime_Build rt options dockerfiles st))
    = Ok newImage ->
  let o := run (BuildImage rt wantsMore config) st in
  reply_logs (emitted o) = lines (emitted o).
Proof.
  intros Hres Hok Htags Hlookup o.
  destruct (BuildImage_success_events wantsMore config st _ _ _ _ _
              Hres Hok Htags Hlookup) as [batch [Hev Hlog]].
  subst o. rewrite Hev. cbn [reply_logs lines].
  rewrite reply_logs_app, lines_app. cbn [reply_logs lines Logs].
  rewrite !app_nil_r. exact Hlog.
Qed.


(** A build that the handler has started is the one the checks gave the
    options for. *)
Lemma BuildImage_started_build (wantsMore : bool) (config : BuildInfo)
    (st : St) (options : imagebuildah.BuildOptions)
    (dockerfiles : list string) :
  In (EvBuild options dockerfiles)
     (emitted (run (BuildImage rt wantsMore config) st)) ->
  res (BuildImage_options rt config (mkCallState st false))
    = Val (options, dockerfiles).
Proof.
  intros Hin.
  destruct (BuildImage_options_spec rt config (mkCallState st false))
    as [_ Hcases].
  destruct (res (BuildImage_options rt config (mkCallState st false)))
    as [[options' dfs]|e|msg] eqn:Hres.
  - destruct (BuildImage_run_polled wantsMore config st _ _ Hres)
      as [tail [Hev [_ Htail]]].
    rewrite Hev in Hin.
    assert (Hfuel : forall c : BuildRun St,
              poll_measure "" (writes c) < poll_fuel "" (writes c)).
    { intros c. unfold poll_measure, poll_fuel. lia. }
    destruct (BuildImage_poll_spec rt wantsMore
                (Runtime_Build rt options' dfs st) _ _ _ []
                (mkCallState st wantsMore)
                (Hfuel (Runtime_Build rt options' dfs st)))
      as [_ [Hb _]].
    destruct Hin as [Hin|Hin]; [now inversion Hin|].
    apply in_app_or in Hin. destruct Hin as [Hin|Hin].
    + apply In_builds in Hin. rewrite Hb in Hin. destruct Hin.
    + destruct (build_err (Runtime_Build rt options' dfs st));
        [subst tail; destruct Hin|].
      destruct (Tags config); [subst tail; destruct Hin|].
      destruct Htail as [batch [_ ->]].
      destruct Hin as [Hin|[]]. discriminate.
  - exfalso.
    destruct (BuildImage_stops_with_checks rt wantsMore config st _ Hres)
      as [Hev _].
    rewrite Hev in Hin.
    destruct (BuildImage_contextDir rt (Dockerfile config)) as [[cd dfs]|e'].
    + destruct (recognized_format (Image_format config)).
      * destruct Hcases as [[reason [H _]]|[o [_ [H _]]]]; [|discriminate].
        rewrite H in Hin. destruct Hin as [Hin|[]]. discriminate.
      * destruct Hcases as [H _].
        rewrite H in Hin. destruct Hin as [Hin|[]]. discriminate.
    + destruct Hcases as [H _]. rewrite H in Hin. destruct Hin.
  - exfalso.
    destruct (BuildImage_contextDir rt (Dockerfile config)) as [[cd dfs]|e'].
    + destruct (recognized_format (Image_format config)).
      * destruct Hcases as [[reason [_ H]]|[o [_ [H _]]]]; discriminate.
      * destruct Hcases as [_ H]. discriminate.
    + destruct Hcases as [_ H]. discriminate.
Qed.

(** The lines of a run are those of its loop, if it gets there. *)
Lemma BuildImage_lines_cases (wantsMore : bool) (config : BuildInfo)
    (st : St) :
  let o := run (BuildImage rt wantsMore config) st in
  lines (emitted o) = []
  \/ exists options dockerfiles,
       res (BuildImage_options rt config (mkCallState st false))
         = Val (options, dockerfiles)
       /\ lines (emitted o) =
            lines (emitted
                     (BuildImage_poll rt
                        (poll_fuel ""
                           (writes (Runtime_Build rt options dockerfiles st)))
                        wantsMore (Runtime_Build rt options dockerfiles st) ""
                        (writes (Runtime_Build rt options dockerfiles st)) []
                        (mkCallState st wantsMore))).
Proof.
  intros o.
  destruct (BuildImage_options_spec rt config (mkCallState st false))
    as [_ Hcases].
  destruct (res (BuildImage_options rt config (mkCallState st false)))
    as [[options dfs]|e|msg] eqn:Hres.
  - right. exists options, dfs. split; [reflexivity|].
    destruct (BuildImage_run_polled wantsMore config st _ _ Hres)
      as [tail [Hev [_ Htail]]].
    fold o in Hev. rewrite Hev. cbn [lines]. rewrite lines_app.
    assert (Ht : lines tail = []).
    { destruct (build_err (Runtime_Build rt options dfs st));
        [now subst tail|].
      destruct (Tags config); [now subst tail|].
      destruct Htail as [batch [_ ->]]. reflexivity. }
    rewrite Ht. apply app_nil_r.
  - left.
    destruct (BuildImage_stops_with_checks rt wantsMore config st _ Hres)
      as [Hev _].
    fold o in Hev. rewrite Hev.
    destruct (BuildImage_contextDir rt (Dockerfile config)) as [[cd dfs]|e'].
    + destruct (recognized_format (Image_format config)).
      * destruct Hcases as [[reason [H _]]|[x [_ [H _]]]]; [|discriminate].
        now rewrite H.
      * destruct Hcases as [H _]. now rewrite H.
    + destruct Hcases as [H _]. now rewrite H.
  - exfalso.
    destruct (BuildImage_contextDir rt (Dockerfile config)) as [[cd dfs]|e'].
    + destruct (recognized_format (Image_format config)).
      * destruct Hcases as [[reason [_ H]]|[x [_ [H _]]]]; discriminate.
      * destruct Hcases as [_ H]. discriminate.
    + destruct Hcases as [_ H]. discriminate.
Qed.

(** X3.  The log of a build is made of whole lines only: every line the
    handler reads, and so every line it can put in a reply, is a text
    without a line end followed by one line end; what the build has written
    without ending the line is never reported as a line.  And the handler
    reads no more lines than the build has written line ends. *)
Theorem BuildImage_log_whole_lines (wantsMore : bool) (config : BuildInfo)
    (st : St) :
  let o := run (BuildImage rt wantsMore config) st in
  Forall whole_line (lines (emitted o))
  /\ (forall options dockerfiles,
        res (BuildImage_options rt config (mkCallState st false))
          = Val (options, dockerfiles) ->
        length (lines (emitted o))
        <= pending_newlines (writes (Runtime_Build rt options dockerfiles st))).
Proof.
  intros o.
  destruct (BuildImage_lines_cases wantsMore config st)
    as [Hnil|[options [dfs [Hres Hlines]]]]; fold o in Hnil || fold o in Hlines.
  - rewrite Hnil. split; [constructor|]. intros. cbn. lia.
  - rewrite Hlines. split; [apply BuildImage_poll_whole_lines|].
    intros options' dfs' Hres'. rewrite Hres in Hres'.
    inversion Hres'; subst.
    pose proof (BuildImage_poll_lines_bound wantsMore
                  (Runtime_Build rt options' dfs' st)
                  (poll_fuel "" (writes (Runtime_Build rt options' dfs' st)))
                  "" (writes (Runtime_Build rt options' dfs' st)) []
                  (mkCallState st wantsMore)) as H.
    cbn [newlines] in H. lia.
Qed.

(** X4.  When the checks have passed and the build reports an error, the
    call ends with that error: the handler returns after an [ErrorOccurred]
    reply with the text of the error, which is the last thing it does; no
    image is looked up, and no reply of the call names an image. *)
Theorem BuildImage_build_failure (wantsMore : bool) (config : BuildInfo)
    (st : St) (options : imagebuildah.BuildOptions)
    (dockerfiles : list string) (err : error) :
  res (BuildImage_options rt config (mkCallState st false))
    = Val (options, dockerfiles) ->
  build_err (Runtime_Build rt options dockerfiles st) = Some err ->
  let o := run (BuildImage rt wantsMore config) st in
  ending o = Returned None
  /\ store (final o) = store_after (Runtime_Build rt options dockerfiles st)
  /\ (exists evs,
        emitted o =
          evs ++ [EvReply wantsMore (ReplyErrorOccurred (Error rt err))])
  /\ (forall k br,
        In (k, ReplyBuildImage br) (replies (emitted o)) -> Id br = ""%string).
Proof.
  intros Hres Herr o.
  destruct (BuildImage_run_polled wantsMore config st _ _ Hres)
    as [tail [Hev [Hend Htail]]].
  fold o in Hev, Hend. rewrite Herr in Hend, Htail. subst tail.
  rewrite app_nil_r in Hev.
  destruct (BuildImage_run_spec rt wantsMore config st _ _ Hres)
    as [_x [_y [_ [_ [_ [_ [Hstore _]]]]]]].
  fold o in Hstore.
  assert (Hfuel :
    poll_measure "" (writes (Runtime_Build rt options dockerfiles st))
    < poll_fuel "" (writes (Runtime_Build rt options dockerfiles st))).
  { unfold poll_measure, poll_fuel. lia. }
  destruct (BuildImage_poll_failure wantsMore _ _ Herr _ _ _ []
              (mkCallState st wantsMore) Hfuel) as [evs [Hp Hid]].
  cbn [Continues] in Hp. rewrite Hp in Hev.
  split; [exact Hend|]. split; [exact Hstore|]. split.
  - exists (EvBuild options dockerfiles :: evs). exact Hev.
  - intros k br Hin. rewrite Hev in Hin. cbn [replies] in Hin.
    rewrite replies_app in Hin. apply in_app_or in Hin.
    destruct Hin as [Hin|[Hin|[]]]; [now apply (Hid k br)|discriminate].
Qed.

End BuildImageLog.

(** ** BuildImage: the checks and the options *)

Section BuildImageChecks.
Context {St : Type} (rt : Runtime St).

(** X5.  The first loop of [BuildImage] resolves the first Dockerfile that
    is not a URL and no other: it succeeds exactly when either every
    Dockerfile is a URL, and then the context directory is empty and the list
    is as it was, or the first one that is not has an absolute path, the
    context directory is the directory of that path, and the list is as it
    was but for that one entry, replaced by its path relative to the context
    directory.  Entries after it are not looked at. *)
Theorem BuildImage_contextDir_first_local (dockerfiles : list string)
    (contextDir : string) (dockerfiles' : list string) :
  BuildImage_contextDir rt dockerfiles = Ok (contextDir, dockerfiles')
  <->
  (Forall (fun d => is_remote d = true) dockerfiles
   /\ contextDir = ""%string /\ dockerfiles' = dockerfiles)
  \/ (exists pre d post absFile rel,
        dockerfiles = pre ++ d :: post
        /\ Forall (fun d => is_remote d = true) pre
        /\ is_remote d = false
        /\ filepath_Abs rt d = Ok absFile
        /\ contextDir = filepath_Dir rt absFile
        /\ filepath_Rel rt contextDir absFile = Ok rel
        /\ dockerfiles' = pre ++ rel :: post).
Proof.
  revert contextDir dockerfiles'.
  induction dockerfiles as [|d rest IH]; intros contextDir dockerfiles'.
  - cbn. split.
    + intros H. inversion H; subst. left. auto.
    + intros [[_ [-> ->]]|[pre [d [post [a [r [H _]]]]]]]; [reflexivity|].
      destruct pre; discriminate.
  - cbn [BuildImage_contextDir]. destruct (is_remote d) eqn:Hd.
    + split.
      * destruct (BuildImage_contextDir rt rest) as [[c ds]|e] eqn:Hrest;
          [|discriminate].
        intros H. inversion H; subst.
        destruct (proj1 (IH contextDir ds) eq_refl)
          as [[Hall [-> ->]]|[pre [x [post [a [r [Hl [Hpre Hx]]]]]]]].
        -- left. auto.
        -- right. exists (d :: pre), x, post, a, r.
           destruct Hx as [Hx [Ha [Hc [Hr Hds]]]]. subst rest ds.
           repeat split; auto.
      * intros [[Hall [-> ->]]|[pre [x [post [a [r [Hl [Hpre Hx]]]]]]]].
        -- inversion Hall; subst.
           rewrite (proj2 (IH ""%string rest)); [reflexivity|left; auto].
        -- destruct pre as [|p pre]; cbn in Hl; inversion Hl; subst.
           ++ destruct Hx as [Hx _]. congruence.
           ++ destruct Hx as [Hx [Ha [Hc [Hr Hds]]]]. inversion Hpre; subst.
              rewrite (proj2 (IH (filepath_Dir rt a) (pre ++ r :: post)));
                [reflexivity|].
              right. exists pre, x, post, a, r. repeat split; auto.
    + split.
      * destruct (filepath_Abs rt d) as [absFile|e] eqn:Habs; [|discriminate].
        destruct (filepath_Rel rt (filepath_Dir rt absFile) absFile)
          as [rel|e] eqn:Hrel; [|discriminate].
        intros H. inversion H; subst. right.
        exists [], d, rest, absFile, rel. repeat split; auto.
      * intros [[Hall _]|[pre [x [post [a [r [Hl [Hpre Hx]]]]]]]].
        -- inversion Hall; subst. congruence.
        -- destruct pre as [|p pre]; cbn in Hl; inversion Hl; subst.
           ++ destruct Hx as [_ [Ha [Hc [Hr Hds]]]]. subst.
              rewrite Ha, Hr. reflexivity.
           ++ inversion Hpre; subst. congruence.
Qed.

(** The fields of the options that the checks give. *)
Lemma BuildImage_options_fields (config : BuildInfo) (s : CallState St)
    (options : imagebuildah.BuildOptions) (dockerfiles : list string) :
  res (BuildImage_options rt config s) = Val (options, dockerfiles) ->
  imagebuildah.OutputFormat options =
    (if (Image_format config =? "")%string
        || String.prefix "oci" (Image_format config)
     then buildah.OCIv1ImageManifest else buildah.Dockerv2ImageManifest)
  /\ imagebuildah.PullPolicy_ options =
       (if Pull_always config then imagebuildah.PullAlways
        else if Pull config then imagebuildah.PullIfMissing
        else imagebuildah.PullNever)
  /\ ((Memory config = ""%string
       /\ buildah.Memory (imagebuildah.CommonBuildOpts options) = 0%Z)
      \/ units_RAMInBytes rt (Memory config)
         = Ok (buildah.Memory (imagebuildah.CommonBuildOpts options)))
  /\ ((Memory_swap config = ""%string
       /\ buildah.MemorySwap (imagebuildah.CommonBuildOpts options) = 0%Z)
      \/ units_RAMInBytes rt (Memory_swap config)
         = Ok (buildah.MemorySwap (imagebuildah.CommonBuildOpts options))).
Proof.
  unfold BuildImage_options, HasPrefix.
  destruct (BuildImage_contextDir rt (Dockerfile config))
    as [[contextDir dfs]|e]; mstep; [|discriminate].
  destruct (Image_format config =? "")%string eqn:Hempty; cbn [orb].
  - change (String.prefix "oci" "oci") with true. mstep.
    destruct (Memory config =? "")%string eqn:Hm; mstep;
      [apply String.eqb_eq in Hm
      |destruct (units_RAMInBytes rt (Memory config)) eqn:Hmv; mstep;
       [|discriminate]].
    all: destruct (Memory_swap config =? "")%string eqn:Hs; mstep;
      [apply String.eqb_eq in Hs
      |destruct (units_RAMInBytes rt (Memory_swap config)) eqn:Hsv; mstep;
       [|discriminate]].
    all: intros H; inversion H; subst; cbn; repeat split; auto.
  - destruct (String.prefix "oci" (Image_format config)); cbn [orb]; mstep.
    + destruct (Memory config =? "")%string eqn:Hm; mstep;
        [apply String.eqb_eq in Hm
        |destruct (units_RAMInBytes rt (Memory config)) eqn:Hmv; mstep;
         [|discriminate]].
      all: destruct (Memory_swap config =? "")%string eqn:Hs; mstep;
        [apply String.eqb_eq in Hs
        |destruct (units_RAMInBytes rt (Memory_swap config)) eqn:Hsv; mstep;
         [|discriminate]].
      all: intros H; inversion H; subst; cbn; repeat split; auto.
    + destruct (String.prefix "docker" (Image_format config)); mstep;
        [|discriminate].
      destruct (Memory config =? "")%string eqn:Hm; mstep;
        [apply String.eqb_eq in Hm
        |destruct (units_RAMInBytes rt (Memory config)) eqn:Hmv; mstep;
         [|discriminate]].
      all: destruct (Memory_swap config =? "")%string eqn:Hs; mstep;
        [apply String.eqb_eq in Hs
        |destruct (units_RAMInBytes rt (Memory_swap config)) eqn:Hsv; mstep;
         [|discriminate]].
      all: intros H; inversion H; subst; cbn; repeat split; auto.
Qed.

(** X6.  What the backend is asked for, whatever the request: the output
    format is one of the two manifest types and never the text of the
    request, the OCI one when the request gives no format or one that begins
    with [oci], the Docker one otherwise; [pull_always] wins over [pull], and
    without either nothing is pulled; the tags of the request go with it;
    and a memory limit that is not given is zero, one that is given is what
    it parses to. *)
Theorem BuildImage_build_options (wantsMore : bool) (config : BuildInfo)
    (st : St) (options : imagebuildah.BuildOptions)
    (dockerfiles : list string) :
  In (EvBuild options dockerfiles)
     (emitted (run (BuildImage rt wantsMore config) st)) ->
  imagebuildah.OutputFormat options =
    (if (Image_format config =? "")%string
        || String.prefix "oci" (Image_format config)
     then v1.MediaTypeImageManifest else manifest.DockerV2Schema2MediaType)
  /\ imagebuildah.PullPolicy_ options =
       (if Pull_always config then imagebuildah.PullAlways
        else if Pull config then imagebuildah.PullIfMissing
        else imagebuildah.PullNever)
  /\ imagebuildah.AdditionalTags options = Tags config
  /\ ((Memory config = ""%string
       /\ buildah.Memory (imagebuildah.CommonBuildOpts options) = 0%Z)
      \/ units_RAMInBytes rt (Memory config)
         = Ok (buildah.Memory (imagebuildah.CommonBuildOpts options)))
  /\ ((Memory_swap config = ""%string
       /\ buildah.MemorySwap (imagebuildah.CommonBuildOpts options) = 0%Z)
      \/ units_RAMInBytes rt (Memory_swap config)
         = Ok (buildah.MemorySwap (imagebuildah.CommonBuildOpts options))).
Proof.
  intros Hin. apply BuildImage_started_build in Hin.
  destruct (BuildImage_options_fields _ _ _ _ Hin) as [Hf [Hp [Hm Hs]]].
  destruct (BuildImage_options_val rt _ _ _ _ Hin) as [_ [_ [_ [Ht _]]]].
  auto.
Qed.

(** X7.  A memory limit that does not parse stops the call before the
    build: when the paths resolve and the format is a recognized one, and
    the memory limit, or else the swap limit, is given and cannot be
    parsed, the one reply is [ErrorOccurred] with the text of the parse
    error, nothing is built and the store is as it was. *)
Theorem BuildImage_unparseable_memory (wantsMore : bool) (config : BuildInfo)
    (st : St) (r : string * list string) (e : error) :
  BuildImage_contextDir rt (Dockerfile config) = Ok r ->
  recognized_format (Image_format config) = true ->
  (Memory config <> ""%string
   /\ units_RAMInBytes rt (Memory config) = Err e)
  \/ ((Memory config = ""%string
       \/ exists v, units_RAMInBytes rt (Memory config) = Ok v)
      /\ Memory_swap config <> ""%string
      /\ units_RAMInBytes rt (Memory_swap config) = Err e) ->
  let o := run (BuildImage rt wantsMore config) st in
  emitted o = [EvReply false (ReplyErrorOccurred (Error rt e))]
  /\ ending o = Returned None
  /\ store (final o) = st.
Proof.
  intros Hctx Hfmt Hmem o.
  assert (Hchecks :
    emitted (BuildImage_options rt config (mkCallState st false))
      = [EvReply false (ReplyErrorOccurred (Error rt e))]
    /\ final (BuildImage_options rt config (mkCallState st false))
       = mkCallState st false
    /\ res (BuildImage_options rt config (mkCallState st false))
       = Return None).
  { assert (Hm : exists m,
      (if HasPrefix (if (Image_format config =? "")%string then "oci"
                     else Image_format config) "oci"
       then ret buildah.OCIv1ImageManifest
       else if HasPrefix (if (Image_format config =? "")%string then "oci"
                          else Image_format config) "docker"
            then ret buildah.Dockerv2ImageManifest
       else return_reply
              (ReplyErrorOccurred
                 ("unrecognized image type " ++
                  Quote rt (if (Image_format config =? "")%string then "oci"
                            else Image_format config))%string))
      = (ret m : M St string)).
    { unfold recognized_format, HasPrefix in *.
      destruct (Image_format config =? "")%string; cbn in *; [now eexists|].
      destruct (String.prefix "oci" (Image_format config)); cbn in *;
        [now eexists|].
      rewrite Hfmt. now eexists. }
    destruct Hm as [m Hm].
    unfold BuildImage_options. cbv zeta. rewrite Hctx, Hm. mstep.
    destruct Hmem as [[Hne Herr]|[Hmok [Hne Herr]]].
    - apply String.eqb_neq in Hne. rewrite Hne, Herr. mstep. auto.
    - apply String.eqb_neq in Hne.
      destruct Hmok as [->|[v Hv]]; cbn [String.eqb]; mstep.
      + rewrite Hne, Herr. mstep. auto.
      + rewrite Hv. destruct (Memory config =? "")%string; mstep;
          rewrite Hne, Herr; mstep; auto. }
  destruct Hchecks as [Hev [Hfin Hres]].
  destruct (BuildImage_stops_with_checks rt wantsMore config st _ Hres)
    as [Hev' [Hfin' Hend]].
  fold o in Hev', Hfin', Hend. rewrite Hev', Hev, Hfin', Hfin. auto.
Qed.

End BuildImageChecks.

(** *** Runs of the theorems on the demo runtime *)

(** A run of X1: the streamed demo build. *)
Lemma BuildImage_replies_carry_every_line_witness :
  let o := run (BuildImage (Demo.runtime Demo.knobs) true
                  (Demo.request ["app:1"] "")) Demo.store0 in
  reply_logs (emitted o) = lines (emitted o).
Proof.
  refine (BuildImage_replies_carry_every_line (Demo.runtime Demo.knobs) true
            (Demo.request ["app:1"] "") Demo.store0 _ _ "app:1" []
            (mkImage "f00d" ["app:1"]) _ _ _ _);
    reflexivity.
Defined.


(** A run of X4: a build that fails at its second step, streamed. *)
Lemma BuildImage_build_failure_witness :
  let rt := Demo.runtime Demo2.build_fails in
  let o := run (BuildImage rt true (Demo.request ["app:1"] "")) Demo.store0 in
  ending o = Returned None
  /\ store (final o) = Demo.store0
  /\ (exists evs,
        emitted o =
          evs ++ [EvReply true (ReplyErrorOccurred "error building at step 2")])
  /\ (forall k br,
        In (k, ReplyBuildImage br) (replies (emitted o)) -> Id br = ""%string).
Proof.
  refine (BuildImage_build_failure (Demo.runtime Demo2.build_fails) true
            (Demo.request ["app:1"] "") Demo.store0 _ _
            (errorString "error building at step 2") _ _);
    reflexivity.
Defined.

(** A run of X6: a request for the format [docker-v2] with both pull flags. *)
Lemma BuildImage_build_options_witness :
  exists options,
    In (EvBuild options ["Dockerfile"%string])
       (emitted (run (BuildImage (Demo.runtime Demo.knobs) false
                        (Demo2.request_mem "1g" "")) Demo.store0))
    /\ imagebuildah.OutputFormat options = manifest.DockerV2Schema2MediaType
    /\ imagebuildah.PullPolicy_ options = imagebuildah.PullAlways
    /\ imagebuildah.AdditionalTags options = ["app:1"%string]
    /\ buildah.Memory (imagebuildah.CommonBuildOpts options) = 1073741824%Z.
Proof.
  eexists. split; [left; reflexivity|].
  pose proof (BuildImage_build_options (Demo.runtime Demo.knobs) false
                (Demo2.request_mem "1g" "") Demo.store0 _
                ["Dockerfile"%string] (or_introl eq_refl)) as H.
  repeat split; apply H || reflexivity.
Defined.

(** A run of X7: a memory limit that is no size. *)
Lemma BuildImage_unparseable_memory_witness :
  let o := run (BuildImage (Demo.runtime Demo.knobs) false
                  (Demo2.request_mem "lots" "")) Demo.store0 in
  emitted o = [EvReply false (ReplyErrorOccurred "invalid size: 'lots'")]
  /\ ending o = Returned None
  /\ store (final o) = Demo.store0.
Proof.
  refine (BuildImage_unparseable_memory (Demo.runtime Demo.knobs) false
            (Demo2.request_mem "lots" "") Demo.store0 ("/work", ["Dockerfile"])
            (errorString "invalid size: 'lots'") _ _ _);
    [reflexivity|reflexivity|].
  left. split; [discriminate|reflexivity].
Defined.

(** ** PushImage and PullImage: outcomes *)

Section PushPullFacts.
Context {St : Type} (rt : Runtime St).

(** The credentials block of the two handlers, by [parsed_creds]. *)
Lemma creds_block_ok (creds : string) (registryCreds : option DockerAuthConfig) :
  parsed_creds rt creds = Ok registryCreds ->
  (if (creds =? "")%string then ret None
   else match util_ParseRegistryCreds rt creds with
        | Err err => return_ (Some err)
        | Ok c => ret (Some c)
        end) = (ret registryCreds : M St (option DockerAuthConfig)).
Proof.
  unfold parsed_creds. destruct (creds =? "")%string.
  - intros H. now inversion H.
  - destruct (util_ParseRegistryCreds rt creds); intros H; now inversion H.
Qed.

Lemma creds_block_err (creds : string) (e : error) :
  parsed_creds rt creds = Err e ->
  (if (creds =? "")%string then ret None
   else match util_ParseRegistryCreds rt creds with
        | Err err => return_ (Some err)
        | Ok c => ret (Some c)
        end) = (return_ (Some e) : M St (option DockerAuthConfig)).
Proof.
  unfold parsed_creds. destruct (creds =? "")%string; [discriminate|].
  destruct (util_ParseRegistryCreds rt creds); intros H; now inversion H.
Qed.

(** The format switch of [PushImage], by [push_manifestType]. *)
Lemma push_format_block_known (format : string) :
  push_format_known format ->
  (if (format =? "")%string then ret ""%string
   else if (format =? "oci")%string then ret v1.MediaTypeImageManifest
   else if (format =? "v2s1")%string
        then ret manifest.DockerV2Schema1SignedMediaType
   else if ((format =? "v2s2") || (format =? "docker"))%string
        then ret manifest.DockerV2Schema2MediaType
   else return_reply (ReplyErrorOccurred
          ("unknown format " ++ Quote rt format ++
           ". Choose on of the supported formats: 'oci', 'v2s1', or 'v2s2'")%string))
  = (ret (push_manifestType format) : M St string).
Proof.
  unfold push_format_known. cbn [In].
  intros [<-|[<-|[<-|[<-|[<-|[]]]]]]; reflexivity.
Qed.

Lemma push_format_block_unknown (format : string) :
  ~ push_format_known format ->
  (if (format =? "")%string then ret ""%string
   else if (format =? "oci")%string then ret v1.MediaTypeImageManifest
   else if (format =? "v2s1")%string
        then ret manifest.DockerV2Schema1SignedMediaType
   else if ((format =? "v2s2") || (format =? "docker"))%string
        then ret manifest.DockerV2Schema2MediaType
   else return_reply (ReplyErrorOccurred
          ("unknown format " ++ Quote rt format ++
           ". Choose on of the supported formats: 'oci', 'v2s1', or 'v2s2'")%string))
  = (return_reply (ReplyErrorOccurred
          ("unknown format " ++ Quote rt format ++
           ". Choose on of the supported formats: 'oci', 'v2s1', or 'v2s2'")%string)
     : M St string).
Proof.
  unfold push_format_known. cbn [In]. intros Hn.
  assert (H1 : (format =? "")%string = false)
    by (apply String.eqb_neq; intros ->; apply Hn; auto).
  assert (H2 : (format =? "oci")%string = false)
    by (apply String.eqb_neq; intros ->; apply Hn; auto).
  assert (H3 : (format =? "v2s1")%string = false)
    by (apply String.eqb_neq; intros ->; apply Hn; auto).
  assert (H4 : (format =? "v2s2")%string = false)
    by (apply String.eqb_neq; intros ->; apply Hn; auto 6).
  assert (H5 : (format =? "docker")%string = false)
    by (apply String.eqb_neq; intros ->; apply Hn; auto 6).
  now rewrite H1, H2, H3, H4, H5.
Qed.

(** The start of [PushImage] on an image that is there. *)
Lemma PushImage_found (name tag : string) (tlsVerify : bool)
    (signaturePolicy creds certDir : string) (compress : bool)
    (format : string) (removeSignatures : bool) (signBy : string)
    (st : St) (newImage : Image)
    (credsBlock : M St (option DockerAuthConfig))
    (formatBlock : M St string) :
  NewFromLocal rt name st = Ok newImage ->
  (if (creds =? "")%string then ret None
   else match util_ParseRegistryCreds rt creds with
        | Err err => return_ (Some err)
        | Ok c => ret (Some c)
        end) = credsBlock ->
  (if (format =? "")%string then ret ""%string
   else if (format =? "oci")%string then ret v1.MediaTypeImageManifest
   else if (format =? "v2s1")%string
        then ret manifest.DockerV2Schema1SignedMediaType
   else if ((format =? "v2s2") || (format =? "docker"))%string
        then ret manifest.DockerV2Schema2MediaType
   else return_reply (ReplyErrorOccurred
          ("unknown format " ++ Quote rt format ++
           ". Choose on of the supported formats: 'oci', 'v2s1', or 'v2s2'")%string))
  = formatBlock ->
  run (PushImage rt name tag tlsVerify signaturePolicy creds certDir compress
         format removeSignatures signBy) st =
  (registryCreds <- credsBlock ;;
   manifestType <- formatBlock ;;
   r <- PushImageToDestination rt newImage
          (if (tag =? "")%string then name else tag) manifestType
          signaturePolicy compress
          {| RemoveSignatures := removeSignatures; SignBy := signBy |}
          {| DockerRegistryCreds := registryCreds;
             DockerCertPath := certDir;
             DockerInsecureSkipTLSVerify :=
               if negb tlsVerify then OptionalBoolTrue
               else OptionalBoolUndefined |} ;;
   match r with
   | Some err => return_reply (ReplyErrorOccurred (Error rt err))
   | None => return_reply (ReplyPushImage (ID newImage))
   end) (mkCallState st false).
Proof.
  intros Himg <- <-. unfold run, PushImage.
  rewrite (bind_val get_store _ _ st) by reflexivity.
  cbn [get_store emitted final res app]. rewrite Himg.
  symmetry. apply out_eta.
Qed.

(** X8.  A push that gets as far as the transport: for an image that is
    there, credentials that are usable and a format that is known, the
    handler pushes once, with the media type that belongs to the format
    ([v2s2] and [docker] give the same, no format gives none), with the
    signing options and credentials of the call, and with TLS verification
    switched off exactly when [tlsVerify] is false; the reply and the store
    are by the result of that push. *)
Theorem PushImage_outcome (name tag : string) (tlsVerify : bool)
    (signaturePolicy creds certDir : string) (compress : bool)
    (format : string) (removeSignatures : bool) (signBy : string)
    (st : St) (newImage : Image) (registryCreds : option DockerAuthConfig) :
  NewFromLocal rt name st = Ok newImage ->
  parsed_creds rt creds = Ok registryCreds ->
  push_format_known format ->
  let o := run (PushImage rt name tag tlsVerify signaturePolicy creds
                  certDir compress format removeSignatures signBy) st in
  let destname := if (tag =? "")%string then name else tag in
  let r := PushImageToHeuristicDestination rt newImage destname
             (push_manifestType format) signaturePolicy compress
             {| RemoveSignatures := removeSignatures; SignBy := signBy |}
             {| DockerRegistryCreds := registryCreds;
                DockerCertPath := certDir;
                DockerInsecureSkipTLSVerify :=
                  if tlsVerify then OptionalBoolUndefined
                  else OptionalBoolTrue |} st in
  emitted o =
    [EvPush newImage destname (push_manifestType format);
     EvReply false
       match fst r with
       | Some err => ReplyErrorOccurred (Error rt err)
       | None => ReplyPushImage (ID newImage)
       end]
  /\ ending o = Returned None
  /\ store (final o) = snd r.
Proof.
  intros Himg Hcreds Hfmt o destname r. subst o r destname.
  rewrite (PushImage_found name tag tlsVerify signaturePolicy creds certDir
             compress format removeSignatures signBy st newImage _ _ Himg
             (creds_block_ok _ _ Hcreds) (push_format_block_known _ Hfmt)).
  unfold PushImageToDestination. mstep.
  destruct tlsVerify; cbn [negb];
    match goal with
    | |- context [PushImageToHeuristicDestination ?a ?b ?c ?d ?e ?f ?g ?h ?i] =>
        destruct (PushImageToHeuristicDestination a b c d e f g h i)
          as [[err|] st']
    end; auto.
Qed.

(** X9.  What stops a push before the transport, and leaves the store as
    it was: an image that cannot be found (the reply is [ImageNotFound] with
    the text of the lookup error), credentials that do not parse (the
    handler returns the parse error and sends no reply), a format that is
    not known (the reply is [ErrorOccurred]).  The lookup comes first, the
    credentials second, the format last. *)
Theorem PushImage_refusals (name tag : string) (tlsVerify : bool)
    (signaturePolicy creds certDir : string) (compress : bool)
    (format : string) (removeSignatures : bool) (signBy : string) (st : St) :
  let o := run (PushImage rt name tag tlsVerify signaturePolicy creds
                  certDir compress format removeSignatures signBy) st in
  (forall e,
     NewFromLocal rt name st = Err e ->
     emitted o = [EvReply false (ReplyImageNotFound (Error rt e))]
     /\ ending o = Returned None /\ store (final o) = st)
  /\ (forall newImage e,
        NewFromLocal rt name st = Ok newImage ->
        parsed_creds rt creds = Err e ->
        emitted o = [] /\ ending o = Returned (Some e)
        /\ store (final o) = st)
  /\ (forall newImage registryCreds,
        NewFromLocal rt name st = Ok newImage ->
        parsed_creds rt creds = Ok registryCreds ->
        ~ push_format_known format ->
        emitted o =
          [EvReply false
             (ReplyErrorOccurred
                ("unknown format " ++ Quote rt format ++
                 ". Choose on of the supported formats: 'oci', 'v2s1', or 'v2s2'")%string)]
        /\ ending o = Returned None /\ store (final o) = st).
Proof.
  intros o. split; [|split].
  - intros e He. subst o. unfold run, PushImage.
    rewrite (bind_val get_store _ _ st) by reflexivity.
    cbn [get_store emitted final res app]. rewrite He. mstep. auto.
  - intros newImage e Himg He. subst o.
    rewrite (PushImage_found name tag tlsVerify signaturePolicy creds certDir
               compress format removeSignatures signBy st newImage _ _ Himg
               (creds_block_err _ _ He) eq_refl).
    rewrite (bind_return _ _ _ (Some e)) by reflexivity. mstep. auto.
  - intros newImage registryCreds Himg Hc Hn. subst o.
    rewrite (PushImage_found name tag tlsVerify signaturePolicy creds certDir
               compress format removeSignatures signBy st newImage _ _ Himg
               (creds_block_ok _ _ Hc) (push_format_block_unknown _ Hn)).
    mstep. auto.
Qed.

(** X10.  A pull from a registry: for a name without the archive scheme
    and credentials that are usable, the handler hands the name to the
    registry pull once, and replies by its result, the ID of the image or
    [ErrorOccurred] with [unable to pull], the name and the text of the
    error.  The pull is told to verify TLS when [tlsVerify] is set and is
    told nothing when it is not: the call cannot switch the verification
    off. *)
Theorem PullImage_registry (name certDir creds signaturePolicy : string)
    (tlsVerify : bool) (st : St) (registryCreds : option DockerAuthConfig) :
  HasPrefix name (dockerarchive_Transport_Name rt ++ ":")%string = false ->
  parsed_creds rt creds = Ok registryCreds ->
  let o := run (PullImage rt name certDir creds signaturePolicy tlsVerify) st in
  let dockerRegistryOptions :=
    {| DockerRegistryCreds := registryCreds;
       DockerCertPath := certDir;
       DockerInsecureSkipTLSVerify :=
         if tlsVerify then OptionalBoolFalse else OptionalBoolUndefined |} in
  let r := ImageRuntime_New rt name signaturePolicy dockerRegistryOptions
             no_signing st in
  emitted o =
    [EvPull name;
     EvReply false
       match fst r with
       | Ok newImage => ReplyPullImage (ID newImage)
       | Err err =>
           ReplyErrorOccurred
             ("unable to pull " ++ name ++ ": " ++ Error rt err)%string
       end]
  /\ ending o = Returned None
  /\ store (final o) = snd r
  /\ DockerInsecureSkipTLSVerify dockerRegistryOptions <> OptionalBoolTrue.
Proof.
  intros Hpre Hcreds o opts r. subst o r opts.
  unfold run, PullImage, New, no_signing.
  rewrite (creds_block_ok _ _ Hcreds). mstep. rewrite Hpre. mstep.
  destruct tlsVerify; cbn [negb NewOptionalBool];
    match goal with
    | |- context [ImageRuntime_New ?a ?b ?c ?d ?e ?f] =>
        destruct (ImageRuntime_New a b c d e f) as [[i|err] st']
    end; mstep; repeat split; discriminate.
Qed.

(** X11.  How [PullImage] ends when the registry is not asked.
    Credentials that do not parse end it before anything is read, with the
    parse error and no reply.  In the archive branch a name that does not
    parse as a reference and an archive that does not load end it with that
    error, wrapped, and no reply; an archive that loads with no image in it
    ends it with a panic on the first image; and an archive with images in
    it gives the ID of the first one. *)
Theorem PullImage_without_registry (name certDir creds signaturePolicy : string)
    (tlsVerify : bool) (st : St) :
  let o := run (PullImage rt name certDir creds signaturePolicy tlsVerify) st in
  (forall e,
     parsed_creds rt creds = Err e ->
     emitted o = [] /\ ending o = Returned (Some e) /\ store (final o) = st)
  /\ (forall registryCreds,
        parsed_creds rt creds = Ok registryCreds ->
        HasPrefix name (dockerarchive_Transport_Name rt ++ ":")%string = true ->
        match alltransports_ParseImageName rt name with
        | Err e =>
            emitted o = []
            /\ ending o =
                 Returned
                   (Some (withMessage e
                            ("error parsing " ++ Quote rt name)%string))
        | Ok srcRef =>
            match fst (LoadFromArchiveReference rt srcRef signaturePolicy st)
            with
            | Err e =>
                emitted o = [EvLoadArchive srcRef]
                /\ ending o =
                     Returned
                       (Some (withMessage e
                                ("error pulling image from " ++
                                 Quote rt name)%string))
            | Ok [] =>
                emitted o = [EvLoadArchive srcRef]
                /\ ending o = Panicked "index out of range"
            | Ok (img :: _) =>
                emitted o =
                  [EvLoadArchive srcRef;
                   EvReply false (ReplyPullImage (ID img))]
                /\ ending o = Returned None
            end
        end).
Proof.
  intros o. split.
  - intros e He. subst o. unfold run, PullImage.
    rewrite (creds_block_err _ _ He). mstep. auto.
  - intros registryCreds Hc Hpre. subst o.
    unfold run, PullImage, LoadFromArchive.
    rewrite (creds_block_ok _ _ Hc). mstep. rewrite Hpre.
    destruct (alltransports_ParseImageName rt name) as [srcRef|e]; mstep;
      [|auto].
    destruct (LoadFromArchiveReference rt srcRef signaturePolicy st)
      as [[[|img rest]|e] st']; mstep; auto.
Qed.

End PushPullFacts.

(** A run of X8: [myapp:latest] pushed in the format [docker], unverified. *)
Lemma PushImage_outcome_witness :
  let o := run (PushImage (Demo.runtime Demo.knobs) "myapp:latest" "" false
                  "" "" "" true "docker" false "") Demo.store0 in
  emitted o =
    [EvPush Demo.alpine "myapp:latest" manifest.DockerV2Schema2MediaType;
     EvReply false (ReplyPushImage "abc123")]
  /\ ending o = Returned None
  /\ store (final o) = Demo.store0.
Proof.
  refine (PushImage_outcome (Demo.runtime Demo.knobs) "myapp:latest" ""
            false "" "" "" true "docker" false "" Demo.store0 Demo.alpine
            None _ _ _);
    [reflexivity|reflexivity|].
  unfold push_format_known. cbn. auto 10.
Defined.

(** A run of X10: [alpine] pulled from the registry, without [tlsVerify]. *)
Lemma PullImage_registry_witness :
  let o := run (PullImage (Demo.runtime Demo2.registry_has_alpine) "alpine"
                  "" "" "" false) Demo.store0 in
  emitted o = [EvPull "alpine"; EvReply false (ReplyPullImage "a1b2")]
  /\ ending o = Returned None
  /\ store (final o) = Demo.store0 ++ [mkImage "a1b2" ["alpine"%string]]
  /\ OptionalBoolUndefined <> OptionalBoolTrue.
Proof.
  refine (PullImage_registry (Demo.runtime Demo2.registry_has_alpine)
            "alpine" "" "" "" false Demo.store0 None _ _);
    reflexivity.
Defined.

(** ** SearchImage: when every registry fails *)

Section SearchAllFail.
Context {St : Type} (rt : Runtime St).

Lemma search_results_all_fail (name : string) (limit : Z)
    (regs : list string) :
  (forall reg s, In reg regs ->
     exists e, fst (docker_SearchRegistry rt reg name limit s) = Err e) ->
  forall st, search_results rt name limit regs st = [].
Proof.
  induction regs as [|reg rest IH]; intros Hall st; [reflexivity|].
  cbn [search_results].
  destruct (Hall reg st (or_introl eq_refl)) as [e ->].
  cbn [app]. apply IH. intros r s Hin. apply Hall. now right.
Qed.

(** X12.  With two registries or more, a search in which every registry
    fails is not reported as a failure: every registry is asked, in order,
    and the one reply is the search reply with no result in it, as when
    nothing matches. *)
Theorem SearchImage_all_fail (name : string) (limit : Z) (st : St)
    (registries : list string) :
  sysreg_GetRegistries rt st = Ok registries ->
  2 <= length registries ->
  (forall reg s, In reg registries ->
     exists e, fst (docker_SearchRegistry rt reg name limit s) = Err e) ->
  let o := run (SearchImage rt name limit) st in
  emitted o =
    map EvSearch registries ++ [EvReply false (ReplySearchImage [])]
  /\ ending o = Returned None.
Proof.
  intros Hregs Hn Hall o. subst o. unfold run, SearchImage.
  destruct (SearchImage_loop_many rt (length registries) name limit
              registries Hn [] (mkCallState st false)) as [Hev [Hres Hfin]].
  cbn [store Continues app] in *.
  rewrite (search_results_all_fail name limit registries Hall) in Hres.
  rewrite (bind_val get_store _ _ st) by reflexivity.
  cbn [get_store emitted final res app]. rewrite Hregs.
  rewrite (bind_val (SearchImage_loop rt _ name limit registries [])
             _ _ _ Hres), Hev, Hfin.
  cbn. auto.
Qed.

End SearchAllFail.

(** A run of X12: two registries, both refusing. *)
Lemma SearchImage_all_fail_witness :
  let o := run (SearchImage (Demo.runtime Demo2.all_refuse) "alpine" 10)
             Demo.store0 in
  emitted o =
    [EvSearch "docker.io"; EvSearch "quay.io";
     EvReply false (ReplySearchImage [])]
  /\ ending o = Returned None.
Proof.
  refine (SearchImage_all_fail (Demo.runtime Demo2.all_refuse) "alpine" 10
            Demo.store0 ["docker.io"; "quay.io"]%string _ _ _);
    [reflexivity|cbn; lia|].
  intros reg s [<-|[<-|[]]]; eexists; reflexivity.
Defined.

(** ** The remaining handlers *)

(** One step of symbolic execution of a handler of the remaining ones. *)
Ltac xstep :=
  cbv [bindX retX liftX emitX return_replyX ErrorOccurred ImageNotFound
       bind ret return_ return_reply reply emit get_store put_store
       get_Continues set_Continues panic];
  cbn [emittedX finalX resX emitted final res store Continues app fst snd
       map endingX sent].

Section MissingImage.
Context {St : Type} (rt : Runtime St) (rx : Runtime2 St).

(** X13.  A name that the store cannot resolve: every handler that begins
    by looking the image up replies once and does nothing else, so that the
    store is as it was.  [HistoryImage], [InspectImage], [TagImage],
    [RemoveImage] and [ExportImage] reply [ImageNotFound] with the name,
    whatever the lookup error was; [GetImage] and [PushImage] reply
    [ImageNotFound] with the text of the error. *)
Theorem missing_image_changes_nothing (name : string) (st : St) (e : error) :
  NewFromLocal rt name st = Err e ->
  only_reply (run (HistoryImage rt name) st) (ReplyImageNotFound name) st
  /\ (forall tag tlsVerify signaturePolicy creds certDir compress format
             removeSignatures signBy,
        only_reply
          (run (PushImage rt name tag tlsVerify signaturePolicy creds
                  certDir compress format removeSignatures signBy) st)
          (ReplyImageNotFound (Error rt e)) st)
  /\ only_replyX (runX (GetImage rt rx name) st)
       (Old (EvReply false (ReplyImageNotFound (Error rt e)))) st
  /\ only_replyX (runX (InspectImage rt rx name) st)
       (Old (EvReply false (ReplyImageNotFound name))) st
  /\ (forall tag,
        only_replyX (runX (TagImage rt rx name tag) st)
          (Old (EvReply false (ReplyImageNotFound name))) st)
  /\ (forall force,
        only_replyX (runX (RemoveImage rt rx name force) st)
          (Old (EvReply false (ReplyImageNotFound name))) st)
  /\ (forall destination compress tags,
        only_replyX (runX (ExportImage rt rx name destination compress tags) st)
          (Old (EvReply false (ReplyImageNotFound name))) st).
Proof.
  intros He. unfold only_reply, only_replyX.
  repeat match goal with |- _ /\ _ => split end; intros;
    unfold run, runX, HistoryImage, PushImage, GetImage, InspectImage,
      TagImage, RemoveImage, ExportImage;
    xstep; rewrite He; xstep; cbn [ending res]; auto.
Qed.

End MissingImage.

(** ** DeleteUnusedImages *)

Section DeleteUnusedImagesFacts.
Context {St : Type} (rt : Runtime St) (rx : Runtime2 St).



End DeleteUnusedImagesFacts.

(** ** ListImages and GetImage *)

Section ListImagesFacts.
Context {St : Type} (rt : Runtime St) (rx : Runtime2 St).

(** The loop goes through the images it can list and adds their entries. *)
Lemma ListImages_loop_listable (pre : list Image) :
  forall (rest : list Image) (imageList : list ImageInList)
         (s : CallState St),
    Forall (listable rx (store s)) pre ->
    ListImages_loop rt rx (pre ++ rest) imageList s =
    ListImages_loop rt rx rest
      (imageList ++ map (list_entry rx (store s)) pre) s.
Proof.
  induction pre as [|image pre IH]; intros rest imageList s Hall.
  - cbn. now rewrite app_nil_r.
  - inversion Hall as [|x l [[d Hd] [[p Hp] [sz Hsz]]] Hpre]; subst.
    cbn [app ListImages_loop]. unfold bindX at 1. xstep.
    rewrite Hd, Hp, Hsz. rewrite (IH rest _ s Hpre).
    cbn [map]. rewrite <- app_assoc. cbn [app].
    set (entries := map (list_entry rx (store s)) pre).
    unfold list_entry. rewrite Hd, Hp, Hsz.
    destruct (ListImages_loop rt rx rest _ s); reflexivity.
Qed.

(** X15.  When every image of the store can be listed, [ListImages] sends
    one reply with one entry per image, in the order of the store, and
    leaves the store alone.  That the labels or the containers of an image
    cannot be read does not fail the call: the entry is made from what came
    with the error. *)
Theorem ListImages_one_entry_per_image (st : St) (images : list Image) :
  GetImages rx st = Ok images ->
  Forall (listable rx st) images ->
  only_replyX (runX (ListImages rt rx) st)
    (EvReplyX false (ReplyListImages (map (list_entry rx st) images))) st.
Proof.
  intros Himgs Hall. unfold only_replyX, runX, ListImages.
  unfold bindX at 1. xstep. rewrite Himgs.
  pose proof (ListImages_loop_listable images [] [] (mkCallState st false)
                Hall) as H.
  rewrite app_nil_r in H. rewrite H. cbn. auto.
Qed.

(** X16.  An image whose size comes back as a nil pointer stops the listing
    with a panic: when the images before it can be listed and its digests
    and parenthood can be read, the handler dereferences the nil size, and
    no reply is sent. *)
Theorem ListImages_nil_size_panics (st : St)
    (pre : list Image) (image : Image) (post : list Image)
    (repoDigests : list string) (isParent : bool) :
  GetImages rx st = Ok (pre ++ image :: post) ->
  Forall (listable rx st) pre ->
  Image_RepoDigests rx image st = Ok repoDigests ->
  Image_IsParent rx image st = Ok isParent ->
  fst (Image_Size rx image st) = None ->
  let o := runX (ListImages rt rx) st in
  emittedX o = [] /\ endingX o = Panicked "nil pointer dereference"
  /\ store (finalX o) = st.
Proof.
  intros Himgs Hall Hd Hp Hsz o. subst o. unfold runX, ListImages.
  unfold bindX at 1. xstep. rewrite Himgs.
  rewrite (ListImages_loop_listable pre (image :: post) []
             (mkCallState st false) Hall).
  cbn [ListImages_loop]. unfold bindX at 1. xstep.
  rewrite Hd, Hp, Hsz. xstep. auto.
Qed.

(** X17.  When everything about an image can be read, [GetImage] replies
    with the entry that [ListImages] makes for that image, but for the mark
    of a parent, which [GetImage] never sets. *)
Theorem GetImage_entry (name : string) (st : St) (newImage : Image)
    (repoDigests : list string) (size : Z) :
  NewFromLocal rt name st = Ok newImage ->
  snd (Image_Labels rx newImage st) = None ->
  snd (Image_Containers rx newImage st) = None ->
  Image_RepoDigests rx newImage st = Ok repoDigests ->
  Image_Size rx newImage st = (Some size, None) ->
  only_replyX (runX (GetImage rt rx name) st)
    (EvReplyX false
       (ReplyGetImage (without_parent (list_entry rx st newImage)))) st.
Proof.
  intros Himg Hl Hc Hd Hsz. unfold only_replyX, runX, GetImage. xstep.
  rewrite Himg, Hl, Hc, Hd, Hsz. cbn [fst snd]. xstep.
  unfold without_parent, list_entry. cbn. rewrite Hd, Hsz. cbn. auto.
Qed.

(** X18.  [GetImage] is strict where [ListImages] is not: when the labels,
    the containers, the digests or the size of the image cannot be read,
    the handler returns that error and sends no reply. *)
Theorem GetImage_read_errors (name : string) (st : St) (newImage : Image)
    (e : error) :
  NewFromLocal rt name st = Ok newImage ->
  snd (Image_Labels rx newImage st) = Some e
  \/ (snd (Image_Labels rx newImage st) = None
      /\ snd (Image_Containers rx newImage st) = Some e)
  \/ (snd (Image_Labels rx newImage st) = None
      /\ snd (Image_Containers rx newImage st) = None
      /\ Image_RepoDigests rx newImage st = Err e)
  \/ (snd (Image_Labels rx newImage st) = None
      /\ snd (Image_Containers rx newImage st) = None
      /\ (exists d, Image_RepoDigests rx newImage st = Ok d)
      /\ snd (Image_Size rx newImage st) = Some e) ->
  let o := runX (GetImage rt rx name) st in
  emittedX o = [] /\ endingX o = Returned (Some e) /\ store (finalX o) = st.
Proof.
  intros Himg Hcases o. subst o. unfold runX, GetImage. xstep. rewrite Himg.
  destruct Hcases as [Hl|[[Hl Hc]|[[Hl [Hc Hd]]|[Hl [Hc [[d Hd] Hs]]]]]];
    rewrite ?Hl, ?Hc, ?Hd, ?Hs; xstep; auto.
Qed.

End ListImagesFacts.

(** ** Commit, ImportImage, ExportImage, ContainerRunlabel *)

Section CommitFacts.
Context {St : Type} (rt : Runtime St) (rx : Runtime2 St).

Lemma commit_format_cases (manifestType : string) :
  commit_format_known manifestType \/
  (((manifestType =? "oci") || (manifestType =? ""))%string = false
   /\ (manifestType =? "docker")%string = false
   /\ ~ commit_format_known manifestType).
Proof.
  unfold commit_format_known. cbn [In].
  destruct (manifestType =? "oci")%string eqn:H1;
    [apply String.eqb_eq in H1; auto|].
  destruct (manifestType =? "")%string eqn:H2;
    [apply String.eqb_eq in H2; auto|].
  destruct (manifestType =? "docker")%string eqn:H3;
    [apply String.eqb_eq in H3; auto 6|].
  right. repeat split.
  apply String.eqb_neq in H1, H2, H3. intros [H|[H|[H|[]]]]; congruence.
Qed.

(** X19.  What [Commit] checks before it commits, in this order.  A
    container that is not there gives [ContainerNotFound], whatever the
    format.  For a container that is there, a format other than none,
    [oci] and [docker] gives [ErrorOccurred]; in both cases nothing is
    committed and the store is as it was. *)
Theorem Commit_refusals (name imageName : string) (changes : list string)
    (author message : string) (pause : bool) (manifestType : string)
    (st : St) :
  let o := runX (Commit rt rx name imageName changes author message pause
                   manifestType) st in
  (forall e,
     LookupContainer rx name st = Err e ->
     only_replyX o (EvReplyX false (ReplyContainerNotFound name)) st)
  /\ (forall ctr,
        LookupContainer rx name st = Ok ctr ->
        ~ commit_format_known manifestType ->
        only_replyX o
          (Old (EvReply false
                  (ReplyErrorOccurred
                     ("unrecognized image format " ++
                      Quote rt manifestType)%string))) st).
Proof.
  intros o. subst o. unfold only_replyX, runX, Commit. split.
  - intros e He. xstep. rewrite He. xstep. auto.
  - intros ctr Hctr Hn. xstep. rewrite Hctr.
    destruct (commit_format_cases manifestType) as [Hk|[H1 [H2 _]]];
      [contradiction|].
    rewrite H1, H2. xstep. auto.
Qed.

(** X20.  What [Commit] commits.  Every commit of a run is of the container
    the name resolves to, under the image name of the call, with a format
    that is none, [oci] or [docker]; the manifest type asked for is the
    Docker one for [docker] and the OCI one otherwise, the signature policy
    is that of the runtime's configuration, and pause, message, changes and
    author are those of the call.  The reply follows the commit. *)
Theorem Commit_commits (name imageName : string) (changes : list string)
    (author message : string) (pause : bool) (manifestType : string)
    (st : St) (ctr : Container) (n : string)
    (options : ContainerCommitOptions) :
  In (EvCommit ctr n options)
     (emittedX (runX (Commit rt rx name imageName changes author message
                        pause manifestType) st)) ->
  LookupContainer rx name st = Ok ctr
  /\ n = imageName
  /\ commit_format_known manifestType
  /\ co_PreferredManifestType (cco_CommitOptions options) =
       (if (manifestType =? "docker")%string
        then manifest.DockerV2Schema2MediaType
        else v1.MediaTypeImageManifest)
  /\ co_SignaturePolicyPath (cco_CommitOptions options)
     = Config_SignaturePolicyPath rx st
  /\ cco_Pause options = pause /\ cco_Message options = message
  /\ cco_Changes options = changes /\ cco_Author options = author
  /\ emittedX (runX (Commit rt rx name imageName changes author message
                       pause manifestType) st) =
       [EvCommit ctr n options;
        match fst (Container_Commit rx ctr n options st) with
        | Ok newImage => EvReplyX false (ReplyCommit (ID newImage))
        | Err err => Old (EvReply false (ReplyErrorOccurred (Error rt err)))
        end]
  /\ store (finalX (runX (Commit rt rx name imageName changes author message
                            pause manifestType) st))
     = snd (Container_Commit rx ctr n options st).
Proof.
  unfold runX, Commit. xstep.
  destruct (LookupContainer rx name st) as [ctr'|e]; xstep.
  2:{ intros [H|[]]. discriminate. }
  destruct (commit_format_cases manifestType) as [Hk|[H1 [H2 _]]].
  - unfold commit_format_known in Hk. cbn [In] in Hk.
    assert (Hfmt : In manifestType [""; "oci"; "docker"]%string)
      by (cbn; tauto).
    destruct Hk as [<-|[<-|[<-|[]]]]; cbn [String.eqb Ascii.eqb Bool.eqb orb];
      xstep;
      match goal with
      | |- context [Container_Commit ?a ?b ?c ?d ?e] =>
          destruct (Container_Commit a b c d e) as [[img|err] st'] eqn:Hcm
      end; xstep;
      (intros [H|[H|[]]]; [|discriminate]);
      inversion H; subst; rewrite Hcm; cbn [fst snd];
      repeat split; auto.
  - rewrite H1, H2. xstep. intros [H|[]]. discriminate.
Qed.

(** X21.  What [ImportImage] imports.  Changes that do not parse give
    [ErrorOccurred] and nothing is imported.  Otherwise the import is of
    the source and under the reference of the call, unsigned, with the
    configuration the changes parse to and a history of exactly one entry,
    whose comment is the message of the call. *)
Theorem ImportImage_single_history_entry (source reference message : string)
    (changes : list string) (st : St) :
  let o := runX (ImportImage rt rx source reference message changes) st in
  match util_GetImageConfig rx changes with
  | Err e =>
      only_replyX o (Old (EvReply false (ReplyErrorOccurred (Error rt e)))) st
  | Ok configChanges =>
      let config :=
        {| imgspec.Config := configChanges;
           imgspec.History_ := [ {| imgspec.Comment := message |} ] |} in
      let r := ImageRuntime_Import rx source reference no_signing config st in
      emittedX o =
        [EvImport source reference no_signing config;
         match fst r with
         | Ok newImage => EvReplyX false (ReplyImportImage (ID newImage))
         | Err err => Old (EvReply false (ReplyErrorOccurred (Error rt err)))
         end]
      /\ store (finalX o) = snd r
      /\ endingX o = Returned None
  end.
Proof.
  intros o. subst o. unfold only_replyX, runX, ImportImage, no_signing.
  destruct (util_GetImageConfig rx changes) as [configChanges|e]; xstep;
    [|auto].
  match goal with
  | |- context [ImageRuntime_Import ?a ?b ?c ?d ?e ?f] =>
      destruct (ImageRuntime_Import a b c d e f) as [[img|err] st']
  end; xstep; auto.
Qed.

(** X22.  What [ExportImage] does with an image that is there.  Tags that
    do not parse end the call with the returned error and no reply, before
    anything is pushed.  Otherwise the image is pushed once, to the
    destination as the call gives it, with no manifest type and no
    signature policy asked for, unsigned, with empty registry options, and
    with the parsed tags; the reply follows the push. *)
Theorem ExportImage_push (name destination : string) (compress : bool)
    (tags : list string) (st : St) (newImage : Image) :
  NewFromLocal rt name st = Ok newImage ->
  let o := runX (ExportImage rt rx name destination compress tags) st in
  match image_GetAdditionalTags rx tags with
  | Err e =>
      emittedX o = [] /\ endingX o = Returned (Some e)
      /\ store (finalX o) = st
  | Ok additionalTags =>
      let r := PushImageToHeuristicDestination_tags rx newImage destination
                 "" "" compress no_signing no_registry_options
                 additionalTags st in
      emittedX o =
        [EvPushTo newImage destination "" "" compress no_signing
           no_registry_options additionalTags;
         match fst r with
         | Some err => Old (EvReply false (ReplyErrorOccurred (Error rt err)))
         | None => EvReplyX false (ReplyExportImage (ID newImage))
         end]
      /\ store (finalX o) = snd r
      /\ endingX o = Returned None
  end.
Proof.
  intros Himg o. subst o.
  unfold runX, ExportImage, no_signing, no_registry_options. xstep.
  rewrite Himg.
  destruct (image_GetAdditionalTags rx tags) as [additionalTags|e]; xstep;
    [|auto].
  match goal with
  | |- context [PushImageToHeuristicDestination_tags ?a ?b ?c ?d ?e ?f ?g ?h
                  ?i ?j] =>
      destruct (PushImageToHeuristicDestination_tags a b c d e f g h i j)
        as [[err|] st']
  end; xstep; auto.
Qed.

(** X23.  [ContainerRunlabel] and the label that is not there.  When the
    image has no such label the handler returns nil without a reply, and
    runs nothing.  Nothing is run either when the label cannot be got or the
    command cannot be made: whatever the handler runs is the command made
    from a label that is not empty. *)
Theorem ContainerRunlabel_runs_label_only (input : Runlabel) (st : St) :
  let o := runX (ContainerRunlabel rt rx input) st in
  let dockerRegistryOptions :=
    {| DockerRegistryCreds := None;
       DockerCertPath := rl_CertDir input;
       DockerInsecureSkipTLSVerify :=
         if rl_TlsVerify input then OptionalBoolUndefined
         else OptionalBoolTrue |} in
  let r := shared_GetRunlabel rx (rl_Label input) (rl_Image input)
             (rl_Pull input) (rl_Creds input) dockerRegistryOptions
             (rl_Authfile input) (rl_SignaturePolicyPath input) st in
  (forall imageName,
     fst r = Ok (""%string, imageName) ->
     emittedX o =
       [EvGetRunlabel (rl_Label input) (rl_Image input) (rl_Pull input)
          dockerRegistryOptions]
     /\ sent (emittedX o) = 0
     /\ endingX o = Returned None)
  /\ (forall env cmd args,
        In (EvExec env cmd args) (emittedX o) ->
        exists runLabel imageName,
          fst r = Ok (runLabel, imageName)
          /\ runLabel <> ""%string
          /\ shared_GenerateRunlabelCommand rx runLabel imageName
               (rl_Name input) (rl_Opts input) (rl_ExtraArgs input)
             = Ok (cmd :: args, env)).
Proof.
  intros o opts r. subst o r opts. unfold runX, ContainerRunlabel. xstep.
  destruct (rl_TlsVerify input); cbn [negb];
    match goal with
    | |- context [shared_GetRunlabel ?a ?b ?c ?d ?e ?f ?g ?h ?i] =>
        destruct (shared_GetRunlabel a b c d e f g h i)
          as [[[runLabel imageName]|err0] st'] eqn:Hgr
    end; xstep.
  all: split; [intros imageName' H; try discriminate|].
  all: try (inversion H; subst; cbn [String.eqb]; xstep; auto).
  all: try (intros env cmd args [H|[]]; discriminate).
  all: destruct (runLabel =? "")%string eqn:Hl;
    [xstep; intros env cmd args [H|[]]; discriminate|].
  all: apply String.eqb_neq in Hl.
  all: destruct (shared_GenerateRunlabelCommand rx runLabel imageName
                   (rl_Name input) (rl_Opts input) (rl_ExtraArgs input))
         as [[[|cmd0 args0] env0]|e] eqn:Hgen;
    xstep; try (intros env cmd args [H|[]]; discriminate).
  all: destruct (utils_ExecCmdWithStdStreams rx env0 cmd0 args0 st')
         as [[err|] st2]; xstep;
    intros env cmd args [H|[H|[H|[]]]]; try discriminate;
    inversion H; subst; exists runLabel, imageName; auto.
Qed.

End CommitFacts.

(** A listing of X13: the name [nosuch] is not in the store. *)
Lemma missing_image_changes_nothing_witness :
  only_reply (run (HistoryImage (Demo.runtime Demo.knobs) "nosuch")
                Demo.store0)
    (ReplyImageNotFound "nosuch") Demo.store0
  /\ only_replyX
       (runX (GetImage (Demo.runtime Demo.knobs)
                (Demo2.runtime2 Demo2.knobs) "nosuch") Demo.store0)
       (Old (EvReply false
               (ReplyImageNotFound
                  "unable to find nosuch: unable to find image")))
       Demo.store0.
Proof.
  pose proof (missing_image_changes_nothing (Demo.runtime Demo.knobs)
                (Demo2.runtime2 Demo2.knobs) "nosuch" Demo.store0
                (withMessage ErrNoSuchImage "unable to find nosuch") eq_refl)
    as [H1 [_ [H3 _]]].
  split; [exact H1|exact H3].
Defined.


(** A run of X15: the three images of the store, listed. *)
Lemma ListImages_one_entry_per_image_witness :
  only_replyX
    (runX (ListImages (Demo.runtime Demo.knobs) (Demo2.runtime2 Demo2.knobs))
       Demo.store0)
    (EvReplyX false
       (ReplyListImages
          (map (list_entry (Demo2.runtime2 Demo2.knobs) Demo.store0)
             [Demo.alpine; Demo.busybox; Demo.scratch])))
    Demo.store0.
Proof.
  refine (ListImages_one_entry_per_image (Demo.runtime Demo.knobs)
            (Demo2.runtime2 Demo2.knobs) Demo.store0 Demo.store0 eq_refl _).
  repeat constructor; eexists; reflexivity.
Defined.

(** A run of X16: the size of the second image is nil. *)
Lemma ListImages_nil_size_panics_witness :
  let o := runX (ListImages (Demo.runtime Demo.knobs)
                   (Demo2.runtime2 Demo2.busybox_sizeless)) Demo.store0 in
  emittedX o = [] /\ endingX o = Panicked "nil pointer dereference"
  /\ store (finalX o) = Demo.store0.
Proof.
  refine (ListImages_nil_size_panics (Demo.runtime Demo.knobs)
            (Demo2.runtime2 Demo2.busybox_sizeless) Demo.store0
            [Demo.alpine] Demo.busybox [Demo.scratch] [] false
            eq_refl _ eq_refl eq_refl eq_refl).
  repeat constructor; eexists; reflexivity.
Defined.

(** A run of X17: the entry of [myapp:latest]. *)
Lemma GetImage_entry_witness :
  only_replyX
    (runX (GetImage (Demo.runtime Demo.knobs) (Demo2.runtime2 Demo2.knobs)
             "myapp:latest") Demo.store0)
    (EvReplyX false
       (ReplyGetImage
          (without_parent
             (list_entry (Demo2.runtime2 Demo2.knobs) Demo.store0
                Demo.alpine))))
    Demo.store0.
Proof.
  exact (GetImage_entry (Demo.runtime Demo.knobs)
           (Demo2.runtime2 Demo2.knobs) "myapp:latest" Demo.store0
           Demo.alpine [] 1024%Z eq_refl eq_refl eq_refl eq_refl eq_refl).
Defined.

(** A run of X18: the size of [busybox:1] cannot be determined. *)
Lemma GetImage_read_errors_witness :
  let o := runX (GetImage (Demo.runtime Demo.knobs)
                   (Demo2.runtime2 Demo2.busybox_sizeless) "busybox:1")
             Demo.store0 in
  emittedX o = []
  /\ endingX o = Returned (Some (errorString "unable to determine size"))
  /\ store (finalX o) = Demo.store0.
Proof.
  refine (GetImage_read_errors (Demo.runtime Demo.knobs)
            (Demo2.runtime2 Demo2.busybox_sizeless) "busybox:1" Demo.store0
            Demo.busybox (errorString "unable to determine size") eq_refl _).
  right. right. right.
  split; [reflexivity|]. split; [reflexivity|].
  split; [exists []; reflexivity|reflexivity].
Defined.

(** A run of X20: the container [web1] committed as [snap:1], in the format
    [docker]. *)
Lemma Commit_commits_witness :
  let options :=
    {| cco_CommitOptions :=
         {| co_SignaturePolicyPath := "/etc/containers/policy.json";
            co_SystemContext :=
              GetSystemContext "/etc/containers/policy.json" "" false;
            co_PreferredManifestType := manifest.DockerV2Schema2MediaType |};
       cco_Pause := true;
       cco_Message := "msg";
       cco_Changes := ["CMD sh"%string];
       cco_Author := "me" |} in
  let o := runX (Commit (Demo.runtime Demo.knobs)
                   (Demo2.runtime2 Demo2.knobs) "web1" "snap:1"
                   ["CMD sh"%string] "me" "msg" true "docker") Demo.store0 in
  emittedX o =
    [EvCommit (mkContainer "web1") "snap:1" options;
     EvReplyX false (ReplyCommit "c0ffee")]
  /\ store (finalX o) = (Demo.store0 ++ [mkImage "c0ffee" ["snap:1"%string]]).
Proof.
  intros options o.
  pose proof (Commit_commits (Demo.runtime Demo.knobs)
                (Demo2.runtime2 Demo2.knobs) "web1" "snap:1"
                ["CMD sh"%string] "me" "msg" true "docker" Demo.store0
                (mkContainer "web1") "snap:1" options
                (or_introl eq_refl)) as H.
  split; [apply H|apply H].
Defined.

(** A run of X22: [myapp:latest] exported to a directory under one more
    tag. *)
Lemma ExportImage_push_witness :
  let o := runX (ExportImage (Demo.runtime Demo.knobs)
                   (Demo2.runtime2 Demo2.knobs) "myapp:latest" "dir:/tmp/x"
                   true ["a:b"%string]) Demo.store0 in
  emittedX o =
    [EvPushTo Demo.alpine "dir:/tmp/x" "" "" true no_signing
       no_registry_options [mkNamedTagged "a:b"];
     EvReplyX false (ReplyExportImage "abc123")]
  /\ store (finalX o) = Demo.store0
  /\ endingX o = Returned None.
Proof.
  exact (ExportImage_push (Demo.runtime Demo.knobs)
           (Demo2.runtime2 Demo2.knobs) "myapp:latest" "dir:/tmp/x" true
           ["a:b"%string] Demo.store0 Demo.alpine eq_refl).
Defined.

(** A run of X23: the label [run] of [myapp:latest] is there, and its
    command is what is run. *)
Lemma ContainerRunlabel_runs_label_only_witness :
  exists runLabel imageName,
    fst (shared_GetRunlabel (Demo2.runtime2 Demo2.labelled) "run"
           "myapp:latest" false ""
           {| DockerRegistryCreds := None;
              DockerCertPath := "";
              DockerInsecureSkipTLSVerify := OptionalBoolUndefined |}
           "" "" Demo.store0) = Ok (runLabel, imageName)
    /\ runLabel <> ""%string
    /\ shared_GenerateRunlabelCommand (Demo2.runtime2 Demo2.labelled)
         runLabel imageName "" [] []
       = Ok (["podman"; "run"; "myapp:latest"]%string, []).
Proof.
  exact (proj2 (ContainerRunlabel_runs_label_only (Demo.runtime Demo.knobs)
                  (Demo2.runtime2 Demo2.labelled) Demo2.runlabel_call
                  Demo.store0)
           [] "podman"%string ["run"; "myapp:latest"]%string
           (or_intror (or_introl eq_refl))).
Defined.

(** ** InspectImage, TagImage and RemoveImage on an image that is there *)

Section FoundImage.
Context {St : Type} (rt : Runtime St) (rx : Runtime2 St).

(** X24.  For an image that is there: [InspectImage] reads and replies, and
    leaves the store alone; when the data cannot be serialized the reply is
    [ErrorOccurred] with a fixed text, whatever the error was.  [TagImage]
    and [RemoveImage] act once, on the image the name resolves to, with the
    tag or the force of the call, and reply by the result: the ID of that
    image, or [ErrorOccurred] with the text of the error. *)
Theorem found_image_one_action (name : string) (st : St) (newImage : Image) :
  NewFromLocal rt name st = Ok newImage ->
  only_replyX (runX (InspectImage rt rx name) st)
    match Image_Inspect rx newImage st with
    | Err err => Old (EvReply false (ReplyErrorOccurred (Error rt err)))
    | Ok inspectInfo =>
        match json_Marshal rx inspectInfo with
        | Err _ => Old (EvReply false (ReplyErrorOccurred "unable to serialize"))
        | Ok b => EvReplyX false (ReplyInspectImage b)
        end
    end st
  /\ (forall tag,
        let o := runX (TagImage rt rx name tag) st in
        let r := Image_TagImage rx newImage tag st in
        emittedX o =
          [EvTag newImage tag (fst r);
           match fst r with
           | Some err => Old (EvReply false (ReplyErrorOccurred (Error rt err)))
           | None => EvReplyX false (ReplyTagImage (ID newImage))
           end]
        /\ store (finalX o) = snd r /\ endingX o = Returned None)
  /\ (forall force,
        let o := runX (RemoveImage rt rx name force) st in
        let r := Runtime_RemoveImage rx newImage force st in
        emittedX o =
          match fst r with
          | Err err =>
              [EvRemoveImage newImage force (Some err);
               Old (EvReply false (ReplyErrorOccurred (Error rt err)))]
          | Ok _ =>
              [EvRemoveImage newImage force None;
               EvReplyX false (ReplyRemoveImage (ID newImage))]
          end
        /\ store (finalX o) = snd r /\ endingX o = Returned None).
Proof.
  intros Himg. split; [|split].
  - unfold only_replyX, runX, InspectImage. xstep. rewrite Himg.
    destruct (Image_Inspect rx newImage st) as [inspectInfo|err]; xstep;
      [|auto].
    destruct (json_Marshal rx inspectInfo) as [b|err]; xstep; auto.
  - intros tag o r. subst o r. unfold runX, TagImage. xstep. rewrite Himg.
    xstep. destruct (Image_TagImage rx newImage tag st) as [[err|] st'];
      xstep; auto.
  - intros force o r. subst o r. unfold runX, RemoveImage. xstep.
    rewrite Himg. xstep.
    destruct (Runtime_RemoveImage rx newImage force st) as [[id|err] st'];
      xstep; auto.
Qed.

End FoundImage.

(** A run of X24: [busybox:1], which no container uses, tagged and removed. *)
Lemma found_image_one_action_witness :
  emittedX (runX (TagImage (Demo.runtime Demo.knobs)
                    (Demo2.runtime2 Demo2.knobs) "busybox:1" "bb:2")
              Demo.store0) =
    [EvTag Demo.busybox "bb:2" None; EvReplyX false (ReplyTagImage "def456")]
  /\ emittedX (runX (RemoveImage (Demo.runtime Demo.knobs)
                       (Demo2.runtime2 Demo2.knobs) "busybox:1" false)
                 Demo.store0) =
       [EvRemoveImage Demo.busybox false None;
        EvReplyX false (ReplyRemoveImage "def456")].
Proof.
  pose proof (found_image_one_action (Demo.runtime Demo.knobs)
                (Demo2.runtime2 Demo2.knobs) "busybox:1" Demo.store0
                Demo.busybox eq_refl) as [_ [H2 H3]].
  split; [exact (proj1 (H2 "bb:2"%string))|exact (proj1 (H3 false))].
Defined.

(** ** One reply, and nothing after it *)

Section ReplyIsLast.
Context {St : Type} (rt : Runtime St) (rx : Runtime2 St).

Lemma reply_is_last_app (pre post : list EventX) :
  no_reply pre = true ->
  reply_is_last (pre ++ post) = reply_is_last post.
Proof.
  induction pre as [|e pre IH]; [reflexivity|].
  cbn [no_reply forallb app reply_is_last]. intros H.
  apply andb_prop in H. destruct H as [He Hpre].
  destruct (is_reply e); [discriminate|]. now apply IH.
Qed.

(** The search loop: no reply while it goes on, one at the end when it
    stops. *)
Lemma SearchImage_loop_replies (n : nat) (name : string) (limit : Z)
    (regs : list string) :
  forall (imageResults : list ImageSearch) (s : CallState St),
    let o := SearchImage_loop rt n name limit regs imageResults s in
    match res o with
    | Val _ => no_reply (map Old (emitted o)) = true
    | _ => reply_is_last (map Old (emitted o)) = true
    end.
Proof.
  induction regs as [|reg rest IH]; intros imageResults s o; subst o.
  - reflexivity.
  - cbn [SearchImage_loop]. unfold SearchRegistry. mstep.
    destruct (docker_SearchRegistry rt reg name limit (store s))
      as [[results|err] st'] eqn:Hs; cbn [fst snd].
    + specialize (IH (imageResults ++ map imageSearch results)%list
                    (mkCallState st' (Continues s))).
      cbv zeta in IH.
      destruct (res (SearchImage_loop rt n name limit rest
                       (imageResults ++ map imageSearch results)
                       (mkCallState st' (Continues s)))); exact IH.
    + destruct (1 <? n)%nat.
      * specialize (IH imageResults (mkCallState st' (Continues s))).
        cbv zeta in IH.
        destruct (res (SearchImage_loop rt n name limit rest imageResults
                         (mkCallState st' (Continues s)))); exact IH.
      * reflexivity.
Qed.

Lemma ImagesPrune_loop_replies (pruneImages : list Image) :
  forall (pruned : list string) (s : CallState St),
    reply_is_last
      (map Old (emitted (ImagesPrune_loop rt pruneImages pruned s))) = true.
Proof.
  induction pruneImages as [|i rest IH]; intros pruned s.
  - reflexivity.
  - cbn [ImagesPrune_loop]. unfold Remove. mstep.
    destruct (Image_Remove rt i true (store s)) as [[err|] st'];
      cbn [fst snd]; [reflexivity|].
    apply IH.
Qed.

Lemma ListImages_loop_replies (images : list Image) :
  forall (imageList : list ImageInList) (s : CallState St),
    reply_is_last (emittedX (ListImages_loop rt rx images imageList s)) = true.
Proof.
  induction images as [|image rest IH]; intros imageList s.
  - reflexivity.
  - cbn [ListImages_loop]. unfold bindX at 1. xstep.
    destruct (Image_RepoDigests rx image (store s)); [|reflexivity].
    destruct (Image_IsParent rx image (store s)); [|reflexivity].
    destruct (fst (Image_Size rx image (store s))); [|reflexivity].
    apply IH.
Qed.

Lemma DeleteUnusedImages_loop_replies (images : list Image) :
  forall (deletedImages : list string) (s : CallState St),
    reply_is_last
      (emittedX (DeleteUnusedImages_loop rt rx images deletedImages s)) = true.
Proof.
  induction images as [|img rest IH]; intros deletedImages s.
  - reflexivity.
  - cbn [DeleteUnusedImages_loop]. unfold bindX at 1. xstep.
    destruct (Image_Containers rx img (store s)) as [containers [err|]];
      [reflexivity|].
    destruct (length containers =? 0)%nat; [|apply IH].
    unfold Remove. xstep.
    destruct (Image_Remove rt img false (store s)) as [[err|] st'];
      cbn [fst snd]; [reflexivity|].
    apply IH.
Qed.

(** X25.  But for [BuildImage], which streams, no handler replies more than
    once or does anything after it has replied: in every run a reply, when
    there is one, is the last event. *)
Theorem reply_ends_the_call (st : St) :
  (forall name,
     reply_is_last (map Old (emitted (run (ImageExists rt name) st))) = true)
  /\ (forall name,
        reply_is_last (map Old (emitted (run (HistoryImage rt name) st)))
        = true)
  /\ (forall name tag tlsVerify signaturePolicy creds certDir compress format
             removeSignatures signBy,
        reply_is_last
          (map Old (emitted (run (PushImage rt name tag tlsVerify
                                    signaturePolicy creds certDir compress
                                    format removeSignatures signBy) st)))
        = true)
  /\ (forall name limit,
        reply_is_last (map Old (emitted (run (SearchImage rt name limit) st)))
        = true)
  /\ (forall name certDir creds signaturePolicy tlsVerify,
        reply_is_last
          (map Old (emitted (run (PullImage rt name certDir creds
                                    signaturePolicy tlsVerify) st))) = true)
  /\ reply_is_last (map Old (emitted (run (ImagesPrune rt) st))) = true
  /\ reply_is_last (emittedX (runX (ListImages rt rx) st)) = true
  /\ (forall name,
        reply_is_last (emittedX (runX (GetImage rt rx name) st)) = true)
  /\ reply_is_last (emittedX (runX (CreateImage (St:=St)) st)) = true
  /\ (forall name,
        reply_is_last (emittedX (runX (InspectImage rt rx name) st)) = true)
  /\ (forall name tag,
        reply_is_last (emittedX (runX (TagImage rt rx name tag) st)) = true)
  /\ (forall name force,
        reply_is_last (emittedX (runX (RemoveImage rt rx name force) st))
        = true)
  /\ reply_is_last (emittedX (runX (DeleteUnusedImages rt rx) st)) = true
  /\ (forall name imageName changes author message pause manifestType,
        reply_is_last
          (emittedX (runX (Commit rt rx name imageName changes author message
                             pause manifestType) st)) = true)
  /\ (forall source reference message changes,
        reply_is_last
          (emittedX (runX (ImportImage rt rx source reference message changes)
                       st)) = true)
  /\ (forall name destination compress tags,
        reply_is_last
          (emittedX (runX (ExportImage rt rx name destination compress tags)
                       st)) = true)
  /\ (forall input,
        reply_is_last (emittedX (runX (ContainerRunlabel rt rx input) st))
        = true).
Proof.
  repeat match goal with |- _ /\ _ => split end.
  - intros name. unfold run, ImageExists. mstep.
    destruct (NewFromLocal rt name st) as [i|e]; [reflexivity|].
    destruct (is_ErrNoSuchImage e); reflexivity.
  - intros name. unfold run, HistoryImage. mstep.
    destruct (NewFromLocal rt name st) as [i|e]; [|reflexivity].
    destruct (Image_History rt i st); reflexivity.
  - intros name tag tlsVerify signaturePolicy creds certDir compress format
      removeSignatures signBy.
    unfold run, PushImage, PushImageToDestination.
    rewrite (bind_val get_store _ _ st) by reflexivity.
    cbn [get_store emitted final res app store].
    destruct (NewFromLocal rt name st) as [newImage|e]; [|reflexivity].
    destruct (creds =? "")%string;
      [|destruct (util_ParseRegistryCreds rt creds); [|reflexivity]].
    all: destruct (format =? "")%string;
      [|destruct (format =? "oci")%string;
        [|destruct (format =? "v2s1")%string;
          [|destruct ((format =? "v2s2") || (format =? "docker"))%string;
            [|reflexivity]]]].
    all: mstep.
    all: match goal with
         | |- context [PushImageToHeuristicDestination ?a ?b ?c ?d ?e ?f ?g
                         ?h ?i] =>
             destruct (PushImageToHeuristicDestination a b c d e f g h i)
               as [[err|] st']
         end; reflexivity.
  - intros name limit. unfold run, SearchImage.
    rewrite (bind_val get_store _ _ st) by reflexivity.
    cbn [get_store emitted final res app store].
    destruct (sysreg_GetRegistries rt st) as [registries|e]; [|reflexivity].
    pose proof (SearchImage_loop_replies (length registries) name limit
                  registries [] (mkCallState st false)) as H.
    cbv zeta in H.
    destruct (res (SearchImage_loop rt (length registries) name limit
                     registries [] (mkCallState st false)))
      as [imageResults|e|msg] eqn:Hres.
    + rewrite (bind_val (SearchImage_loop rt _ name limit registries [])
                 _ _ _ Hres).
      cbn [emitted]. rewrite map_app. now rewrite reply_is_last_app.
    + rewrite (bind_return (SearchImage_loop rt _ name limit registries [])
                 _ _ _ Hres).
      exact H.
    + rewrite (bind_panic (SearchImage_loop rt _ name limit registries [])
                 _ _ _ Hres).
      exact H.
  - intros name certDir creds signaturePolicy tlsVerify.
    unfold run, PullImage, LoadFromArchive, New.
    destruct (creds =? "")%string;
      [|destruct (util_ParseRegistryCreds rt creds); [|reflexivity]].
    all: destruct (HasPrefix name (dockerarchive_Transport_Name rt ++ ":")).
    all: try (destruct (alltransports_ParseImageName rt name) as [srcRef|e];
              [|reflexivity]).
    all: mstep.
    all: match goal with
         | |- context [LoadFromArchiveReference ?a ?b ?c ?d] =>
             destruct (LoadFromArchiveReference a b c d) as [[[|img l]|e] st']
         | |- context [ImageRuntime_New ?a ?b ?c ?d ?e ?f] =>
             destruct (ImageRuntime_New a b c d e f) as [[img|err] st']
         end; reflexivity.
  - unfold run, ImagesPrune. mstep.
    destruct (GetPruneImages rt st) as [pruneImages|e]; [|reflexivity].
    apply ImagesPrune_loop_replies.
  - unfold runX, ListImages. unfold bindX at 1. xstep.
    destruct (GetImages rx st) as [images|e]; [|reflexivity].
    apply ListImages_loop_replies.
  - intros name. unfold runX, GetImage. xstep.
    destruct (NewFromLocal rt name st) as [newImage|e]; [|reflexivity].
    destruct (snd (Image_Labels rx newImage st)); [reflexivity|].
    destruct (snd (Image_Containers rx newImage st)); [reflexivity|].
    destruct (Image_RepoDigests rx newImage st); [|reflexivity].
    destruct (snd (Image_Size rx newImage st)); [reflexivity|].
    destruct (fst (Image_Size rx newImage st)); reflexivity.
  - reflexivity.
  - intros name. unfold runX, InspectImage. xstep.
    destruct (NewFromLocal rt name st) as [newImage|e]; [|reflexivity].
    destruct (Image_Inspect rx newImage st) as [inspectInfo|e];
      [|reflexivity].
    destruct (json_Marshal rx inspectInfo); reflexivity.
  - intros name tag. unfold runX, TagImage. xstep.
    destruct (NewFromLocal rt name st) as [newImage|e]; [|reflexivity].
    xstep. destruct (Image_TagImage rx newImage tag st) as [[err|] st'];
      reflexivity.
  - intros name force. unfold runX, RemoveImage. xstep.
    destruct (NewFromLocal rt name st) as [newImage|e]; [|reflexivity].
    xstep.
    destruct (Runtime_RemoveImage rx newImage force st) as [[id|err] st'];
      reflexivity.
  - unfold runX, DeleteUnusedImages. unfold bindX at 1. xstep.
    destruct (GetImages rx st) as [images|e]; [|reflexivity].
    apply DeleteUnusedImages_loop_replies.
  - intros name imageName changes author message pause manifestType.
    unfold runX, Commit. unfold bindX at 1. xstep.
    destruct (LookupContainer rx name st) as [ctr|e]; [|reflexivity].
    destruct ((manifestType =? "oci") || (manifestType =? ""))%string;
      [|destruct (manifestType =? "docker")%string; [|reflexivity]].
    all: xstep.
    all: match goal with
         | |- context [Container_Commit ?a ?b ?c ?d ?e] =>
             destruct (Container_Commit a b c d e) as [[newImage|err] st']
         end; reflexivity.
  - intros source reference message changes. unfold runX, ImportImage.
    destruct (util_GetImageConfig rx changes) as [configChanges|e];
      [|reflexivity].
    xstep.
    match goal with
    | |- context [ImageRuntime_Import ?a ?b ?c ?d ?e ?f] =>
        destruct (ImageRuntime_Import a b c d e f) as [[newImage|err] st']
    end; reflexivity.
  - intros name destination compress tags. unfold runX, ExportImage. xstep.
    destruct (NewFromLocal rt name st) as [newImage|e]; [|reflexivity].
    destruct (image_GetAdditionalTags rx tags) as [additionalTags|e];
      [|reflexivity].
    xstep.
    match goal with
    | |- context [PushImageToHeuristicDestination_tags ?a ?b ?c ?d ?e ?f ?g
                    ?h ?i ?j] =>
        destruct (PushImageToHeuristicDestination_tags a b c d e f g h i j)
          as [[err|] st']
    end; reflexivity.
  - intros input. unfold runX, ContainerRunlabel. xstep.
    match goal with
    | |- context [shared_GetRunlabel ?a ?b ?c ?d ?e ?f ?g ?h ?i] =>
        destruct (shared_GetRunlabel a b c d e f g h i)
          as [[[runLabel imageName]|err0] st']
    end; xstep; [|reflexivity].
    destruct (runLabel =? "")%string; [reflexivity|].
    destruct (shared_GenerateRunlabelCommand rx runLabel imageName
                (rl_Name input) (rl_Opts input) (rl_ExtraArgs input))
      as [[[|cmd0 args0] env0]|e]; try reflexivity.
    xstep.
    destruct (utils_ExecCmdWithStdStreams rx env0 cmd0 args0 st')
      as [[err|] st2]; reflexivity.
Qed.

End ReplyIsLast.
